(** * liblog/logd_write.c: the writer side of the logd socket transport

    A shallow embedding of [src/liblog/logd_write.c] as it is built for a
    device: [FAKE_LOG_DEVICE == 0], [HAVE_PTHREADS] and [__BIONIC__] defined,
    none of the vendor switches ([MOTOROLA_LOG], [MTK_HARDWARE], [AMAZON_LOG]).

    The three file-scope variables of the C file ([write_to_log], [logd_fd]
    and the function-static [last_uid]) become the fields of a [state]
    record that every function threads through a small state monad.  The
    operating system is a fixed table of answers, one per call of each system
    call, and every call the library makes is appended to a trace that is part
    of the state, so that "how many times did the code call socket()" is a
    question about the trace.

    The embedding is sequential: [pthread_mutex_lock] and
    [pthread_mutex_unlock] on [log_init_lock] have no effect on a single
    thread and are left out.  Threads that race through a section under
    the lock are runs of that section one after the other, in the order in
    which they get the lock ([racing_first_calls]). *)

From Stdlib Require Import ZArith Lia String Ascii Bool.
From stdpp Require Import base list.

Open Scope Z_scope.

(** ** Constants that come from headers outside this file *)

(** [logd_write.c] uses these names and leaves their values to
    [<log/logger.h>], [<log/log.h>], [<private/android_filesystem_config.h>],
    [<android/log.h>], [<errno.h>] and [<stdint.h>].  The development is
    parametric in them; each theorem lists what it needs to know of them. *)
Class platform := {
  LOGGER_ENTRY_MAX_PAYLOAD : Z;  (* largest caller payload logd accepts *)
  sizeof_log_id_t : Z;           (* sizeof(typeof_log_id_t) *)
  sizeof_log_time : Z;           (* sizeof(log_time) *)
  SIZE_MAX : Z;                  (* largest value of a size_t *)
  AID_ROOT : Z;                  (* uid of root *)
  AID_LOGD : Z;                  (* uid of logd once it dropped privileges *)
  ENOTCONN : Z;
  EBADF : Z;
  ANDROID_LOG_FATAL : Z;
  EVENT_TYPE_STRING : Z;
}.

(** The values of a 32-bit ARM Android build, used for the concrete runs. *)
Definition android_arm : platform := {|
  LOGGER_ENTRY_MAX_PAYLOAD := 4076;
  sizeof_log_id_t := 1;
  sizeof_log_time := 8;
  SIZE_MAX := 2 ^ 32 - 1;
  AID_ROOT := 0;
  AID_LOGD := 1036;
  ENOTCONN := 107;
  EBADF := 9;
  ANDROID_LOG_FATAL := 7;
  EVENT_TYPE_STRING := 2;
|}.

(** [log_id_t]: the enumerators are the ones [LOG_NAME] is indexed by. *)
Inductive log_id_t :=
  | LOG_ID_MAIN
  | LOG_ID_RADIO
  | LOG_ID_EVENTS
  | LOG_ID_SYSTEM
  | LOG_ID_CRASH.

(** ** Machine integers *)

(** Arithmetic on [size_t] wraps around at [SIZE_MAX + 1]. *)
Definition size_t `{platform} (z : Z) : Z := z mod (SIZE_MAX + 1).

(** [uint16_t] and [uint32_t] stores keep the low bits. *)
Definition uint16_t (z : Z) : Z := z mod 2 ^ 16.
Definition uint32_t (z : Z) : Z := z mod 2 ^ 32.

(** Conversion of an [ssize_t] to the [int] a function returns: [int] has
    32 bits on every Android ABI, and the conversion keeps the value modulo
    2^32 in the signed range. *)
Definition to_int (z : Z) : Z := (z + 2 ^ 31) mod 2 ^ 32 - 2 ^ 31.

(** ** Byte ranges *)

(** What an [iov_base] points to.  The library never looks inside the bytes
    it is handed; it only builds ranges over its own objects and over the
    caller's. *)
Inductive object :=
  | obj_log_id (log_id_buf : log_id_t)        (* &log_id_buf *)
  | obj_tid (tid : Z)                         (* &tid *)
  | obj_realtime (tv_sec tv_nsec : Z)         (* &realtime_ts *)
  | obj_prio (prio : Z)                       (* &prio *)
  | obj_cstr (s : string)                     (* a NUL-terminated string *)
  | obj_int32 (v : Z)                         (* &tag, &len *)
  | obj_char (c : Z)                          (* &type *)
  | obj_bytes (payload : list Z).             (* caller memory *)

Record iovec := { iov_base : object; iov_len : Z }.

(** Sum of the lengths of a sequence of ranges. *)
Definition total_len (v : list iovec) : Z :=
  foldr (fun x acc => iov_len x + acc) 0 v.

(** ** Frame builder

    The part of [__write_to_log_kernel] between the [logd_fd] test and the
    first [writev].  [newVec] is a variable-length array of
    [nr + header_length] elements that starts out indeterminate: an element
    is [None] until the code stores into it. *)

Definition header_length : nat := 3.

Section FrameBuilder.
Context `{P : platform}.

(** The three stores [newVec[0]], [newVec[1]], [newVec[2]]. *)
Definition store_header (log_id : log_id_t) (tid : Z) (ts : Z * Z)
    (newVec : list (option iovec)) : list (option iovec) :=
  let newVec :=
    <[0%nat := Some {| iov_base := obj_log_id log_id;
                       iov_len := sizeof_log_id_t |}]> newVec in
  let newVec :=
    <[1%nat := Some {| iov_base := obj_tid tid; iov_len := 2 |}]> newVec in
  <[2%nat := Some {| iov_base := obj_realtime (fst ts) (snd ts);
                     iov_len := sizeof_log_time |}]> newVec.

(** The [for] loop.  The recursion is on the caller ranges not yet visited,
    [vec[i - header_length]], [vec[i - header_length + 1]], ...: the loop
    test [i < nr + header_length] fails exactly when none is left.  The
    result is the array and the value of [i] after the loop. *)
Fixpoint copy_payload (rest : list iovec) (newVec : list (option iovec))
    (payload_size : Z) (i : nat) : list (option iovec) * nat :=
  match rest with
  | [] => (newVec, i)
  | v :: rest' =>
      let newVec := <[i := Some v]> newVec in
      let payload_size := size_t (payload_size + iov_len v) in
      if LOGGER_ENTRY_MAX_PAYLOAD <? payload_size then
        let over := size_t (payload_size - LOGGER_ENTRY_MAX_PAYLOAD) in
        let len := size_t (iov_len v - over) in
        let newVec :=
          <[i := Some {| iov_base := iov_base v; iov_len := len |}]> newVec in
        if len =? 0 then (newVec, i) else (newVec, S i)   (* break *)
      else copy_payload rest' newVec payload_size (S i)
  end.

(** Declaration of [newVec], header stores and loop together. *)
Definition build_frame (log_id : log_id_t) (tid : Z) (ts : Z * Z)
    (vec : list iovec) : list (option iovec) * nat :=
  let nr := length vec in
  let newVec := replicate (nr + header_length) None in
  let newVec := store_header log_id tid ts newVec in
  copy_payload vec newVec 0 header_length.

(** The header as a list of ranges. *)
Definition header (log_id : log_id_t) (tid : Z) (ts : Z * Z) : list iovec :=
  [ {| iov_base := obj_log_id log_id; iov_len := sizeof_log_id_t |};
    {| iov_base := obj_tid tid; iov_len := 2 |};
    {| iov_base := obj_realtime (fst ts) (snd ts);
       iov_len := sizeof_log_time |} ].

(** A range the loop can add to [payload_size] without wrapping around:
    its length is a [size_t] value with [LOGGER_ENTRY_MAX_PAYLOAD] of
    headroom.  Every range that lies in memory is one. *)
Definition range_ok (v : iovec) : Prop :=
  0 <= iov_len v <= SIZE_MAX - LOGGER_ENTRY_MAX_PAYLOAD.

(** What the loop leaves of [rest] when [acc] bytes were taken before. *)
Fixpoint capped (acc : Z) (rest : list iovec) : list iovec :=
  match rest with
  | [] => []
  | v :: rest' =>
      if LOGGER_ENTRY_MAX_PAYLOAD <? acc + iov_len v then
        if LOGGER_ENTRY_MAX_PAYLOAD - acc =? 0 then []
        else [ {| iov_base := iov_base v;
                  iov_len := LOGGER_ENTRY_MAX_PAYLOAD - acc |} ]
      else v :: capped (acc + iov_len v) rest'
  end.

End FrameBuilder.

(** ** The operating system and the trace *)

(** What a system call hands back: its return value, and the value of
    [errno] after it. *)
Record sysret := { rv : Z; errno : Z }.

(** The answers of the operating system during one run of the process:
    [os_socket os n] is what the [n]-th call of [socket] returns, and so on.
    The library is deterministic, so whatever the kernel would decide from
    the arguments and its own state is some such table. *)
Record OS := {
  os_getuid : nat -> Z;
  os_gettid : nat -> Z;
  os_clock_gettime : nat -> Z * Z;      (* tv_sec, tv_nsec *)
  os_socket : nat -> sysret;
  os_fcntl : nat -> sysret;
  os_connect : nat -> sysret;
  os_writev : nat -> sysret;
}.

(** A failed call leaves a positive [int] in [errno]. *)
Definition valid_errno (r : sysret) : Prop :=
  rv r < 0 -> 0 < errno r <= 2 ^ 31 - 1.

(** What the code relies on from the kernel: failed calls set [errno], and
    the byte count of a [writev] fits an [int] (Linux transfers at most
    [MAX_RW_COUNT] bytes per call). *)
Record linux (os : OS) : Prop := {
  linux_socket : forall n, valid_errno (os_socket os n);
  linux_fcntl : forall n, valid_errno (os_fcntl os n);
  linux_connect : forall n, valid_errno (os_connect os n);
  linux_writev : forall n, valid_errno (os_writev os n);
  linux_writev_count : forall n, rv (os_writev os n) <= 2 ^ 31 - 1;
}.

(** One entry per call the library makes, with its arguments and result.
    [writev] records the [iovcnt] array elements it was given. *)
Inductive event :=
  | EvGetuid (uid : Z)
  | EvClockGettime (ts : Z * Z)
  | EvGettid (tid : Z)
  | EvSetAbortMessage (msg : string)
  | EvClose (fd : Z)
  | EvSocket (r : Z)
  | EvFcntl (fd : Z) (r : Z)
  | EvConnect (fd : Z) (r : Z)
  | EvWritev (fd : Z) (iov : list (option iovec)) (r : Z).

Definition is_getuid (e : event) : bool :=
  match e with EvGetuid _ => true | _ => false end.
Definition is_clock_gettime (e : event) : bool :=
  match e with EvClockGettime _ => true | _ => false end.
Definition is_gettid (e : event) : bool :=
  match e with EvGettid _ => true | _ => false end.
Definition is_close (e : event) : bool :=
  match e with EvClose _ => true | _ => false end.
Definition is_socket (e : event) : bool :=
  match e with EvSocket _ => true | _ => false end.
Definition is_fcntl (e : event) : bool :=
  match e with EvFcntl _ _ => true | _ => false end.
Definition is_connect (e : event) : bool :=
  match e with EvConnect _ _ => true | _ => false end.
Definition is_writev (e : event) : bool :=
  match e with EvWritev _ _ _ => true | _ => false end.

(** A [close] that names a descriptor: descriptors are not negative. *)
Definition closes_descriptor (e : event) : bool :=
  match e with EvClose fd => 0 <=? fd | _ => false end.

(** Number of events of one kind in a trace. *)
Fixpoint calls (kind : event -> bool) (tr : list event) : nat :=
  match tr with
  | [] => O
  | e :: tr' => ((if kind e then 1 else 0) + calls kind tr')%nat
  end.

(** The arrays handed to [writev], in the order of the calls. *)
Fixpoint writev_frames (tr : list event) : list (list (option iovec)) :=
  match tr with
  | [] => []
  | EvWritev _ iov _ :: tr' => iov :: writev_frames tr'
  | _ :: tr' => writev_frames tr'
  end.

(** ** Program state *)

(** The value of the function pointer [write_to_log]. *)
Inductive fnptr :=
  | ptr__write_to_log_init
  | ptr__write_to_log_null
  | ptr__write_to_log_kernel.

Record state := {
  write_to_log : fnptr;
  logd_fd : Z;
  last_uid : Z;            (* static in __write_to_log_kernel *)
  trace : list event;
}.

Definition with_write_to_log (f : fnptr) (s : state) : state :=
  {| write_to_log := f; logd_fd := logd_fd s; last_uid := last_uid s;
     trace := trace s |}.
Definition with_logd_fd (fd : Z) (s : state) : state :=
  {| write_to_log := write_to_log s; logd_fd := fd; last_uid := last_uid s;
     trace := trace s |}.
Definition with_last_uid (uid : Z) (s : state) : state :=
  {| write_to_log := write_to_log s; logd_fd := logd_fd s; last_uid := uid;
     trace := trace s |}.
Definition with_event (e : event) (s : state) : state :=
  {| write_to_log := write_to_log s; logd_fd := logd_fd s;
     last_uid := last_uid s; trace := trace s ++ [e] |}.

(** The initializers of the three variables, before any call. *)
Definition initial_state `{platform} : state :=
  {| write_to_log := ptr__write_to_log_init; logd_fd := -1;
     last_uid := AID_ROOT; trace := [] |}.

(** ** State monad *)

Definition M (A : Type) : Type := state -> A * state.

Definition ret {A : Type} (a : A) : M A := fun s => (a, s).

Definition bind {A B : Type} (m : M A) (k : A -> M B) : M B :=
  fun s => let (a, s') := m s in k a s'.

Declare Scope prog_scope.
Delimit Scope prog_scope with prog.
Notation "x <- m ;; k" := (bind m (fun x => k))
  (at level 100, m at level 99, k at level 200, right associativity)
  : prog_scope.
Notation "m ;; k" := (bind m (fun _ => k))
  (at level 100, k at level 200, right associativity) : prog_scope.

Definition get {A : Type} (field : state -> A) : M A := fun s => (field s, s).
Definition modify (f : state -> state) : M unit := fun s => (tt, f s).

(** ** The C functions *)

Section Program.
Context `{P : platform} (os : OS).
Local Open Scope prog_scope.

(** *** System calls: look the answer up, append the event *)

Definition getuid : M Z := fun s =>
  let uid := os_getuid os (calls is_getuid (trace s)) in
  (uid, with_event (EvGetuid uid) s).

Definition gettid : M Z := fun s =>
  let tid := os_gettid os (calls is_gettid (trace s)) in
  (tid, with_event (EvGettid tid) s).

Definition clock_gettime : M (Z * Z) := fun s =>
  let ts := os_clock_gettime os (calls is_clock_gettime (trace s)) in
  (ts, with_event (EvClockGettime ts) s).

(** The code never looks at what [close] returns. *)
Definition close (fd : Z) : M unit := modify (with_event (EvClose fd)).

Definition socket : M sysret := fun s =>
  let r := os_socket os (calls is_socket (trace s)) in
  (r, with_event (EvSocket (rv r)) s).

Definition fcntl (fd : Z) : M sysret := fun s =>
  let r := os_fcntl os (calls is_fcntl (trace s)) in
  (r, with_event (EvFcntl fd (rv r)) s).

Definition connect (fd : Z) : M sysret := fun s =>
  let r := os_connect os (calls is_connect (trace s)) in
  (r, with_event (EvConnect fd (rv r)) s).

(** [writev(logd_fd, newVec, iovcnt)]: the descriptor is read from the
    global at the call. *)
Definition writev (newVec : list (option iovec)) (iovcnt : nat)
    : M sysret := fun s =>
  let r := os_writev os (calls is_writev (trace s)) in
  (r, with_event (EvWritev (logd_fd s) (take iovcnt newVec) (rv r)) s).

Definition android_set_abort_message (msg : string) : M unit :=
  modify (with_event (EvSetAbortMessage msg)).

(** *** [__write_to_log_null] *)
Definition __write_to_log_null (log_fd : log_id_t) (vec : list iovec)
    : M Z :=
  ret (-1).

(** *** [__write_to_log_initialize] *)
Definition __write_to_log_initialize : M Z :=
  fd <- get logd_fd ;;
  (if 0 <=? fd then
     modify (with_logd_fd (-1)) ;;
     close fd
   else ret tt) ;;
  r <- socket ;;
  let i := rv r in
  if i <? 0 then
    modify (with_write_to_log ptr__write_to_log_null) ;;
    modify (with_logd_fd i) ;;
    ret (- errno r)
  else
    r <- fcntl i ;;
    if rv r <? 0 then
      close i ;;
      modify (with_write_to_log ptr__write_to_log_null) ;;
      modify (with_logd_fd (-1)) ;;
      ret (- errno r)
    else
      r <- connect i ;;
      if rv r <? 0 then
        close i ;;
        modify (with_logd_fd (-1)) ;;
        ret (- errno r)
      else
        modify (with_logd_fd i) ;;
        ret 0.

(** *** [__write_to_log_kernel] *)

(** [sizeof_log_id_t + sizeof(tid) + sizeof(log_time)]; [tid] is a
    [uint16_t]. *)
Definition header_size : Z := sizeof_log_id_t + 2 + sizeof_log_time.

(** The last statements of the function: take the header off a count that
    is larger than the header, and return as [int].  The header is a handful
    of bytes, so the cast of its size to [ssize_t] and the subtraction stay
    in range. *)
Definition strip_header (r : Z) : M Z :=
  let r := if header_size <? r then r - header_size else r in
  ret (to_int r).

(** [vec] and [nr] of the C function are the list and its length.
    [realtime_ts] takes the two fields of [ts] as they are read; how wide the
    fields of [log_time] are is left to [<log/log_read.h>]. *)
Definition __write_to_log_kernel (log_id : log_id_t) (vec : list iovec)
    : M Z :=
  let nr := length vec in
  uid <- get last_uid ;;
  (if uid =? AID_ROOT then
     uid <- getuid ;;
     modify (with_last_uid uid)
   else ret tt) ;;
  uid <- get last_uid ;;
  if uid =? AID_LOGD then ret 0
  else
    fd <- get logd_fd ;;
    if fd <? 0 then ret (- EBADF)
    else
      ts <- clock_gettime ;;
      tid <- gettid ;;
      let (newVec, i) := build_frame log_id (uint16_t tid) ts vec in
      r <- writev newVec i ;;
      if rv r <? 0 then
        let e := - errno r in
        if e =? - ENOTCONN then
          e <- __write_to_log_initialize ;;
          if e <? 0 then ret (to_int e)
          else
            r <- writev newVec (nr + header_length) ;;
            strip_header (if rv r <? 0 then - errno r else rv r)
        else strip_header e
      else strip_header (rv r).

(** *** [__android_log_close] *)
Definition __android_log_close : M unit :=
  modify (with_write_to_log ptr__write_to_log_init) ;;
  fd <- get logd_fd ;;
  close fd ;;
  modify (with_logd_fd (-1)).

(** *** [__write_to_log_init]

    The function is reached through [write_to_log], so the test
    [write_to_log == __write_to_log_init] is the first case; there the last
    statement, [write_to_log(log_id, vec, nr)], calls the function that was
    assigned just before.  The other two cases are what the function does
    when the test fails. *)
Definition __write_to_log_init (log_id : log_id_t) (vec : list iovec)
    : M Z :=
  f <- get write_to_log ;;
  match f with
  | ptr__write_to_log_init =>
      e <- __write_to_log_initialize ;;
      if e <? 0 then ret e
      else
        modify (with_write_to_log ptr__write_to_log_kernel) ;;
        __write_to_log_kernel log_id vec
  | ptr__write_to_log_null => __write_to_log_null log_id vec
  | ptr__write_to_log_kernel => __write_to_log_kernel log_id vec
  end.

(** A call through the pointer: [write_to_log(log_id, vec, nr)]. *)
Definition call_write_to_log (log_id : log_id_t) (vec : list iovec)
    : M Z :=
  f <- get write_to_log ;;
  match f with
  | ptr__write_to_log_init => __write_to_log_init log_id vec
  | ptr__write_to_log_null => __write_to_log_null log_id vec
  | ptr__write_to_log_kernel => __write_to_log_kernel log_id vec
  end.

(** *** Text entry points *)

(** A C string is the Rocq string of its bytes before the NUL. *)
Definition strlen (s : string) : Z := Z.of_nat (String.length s).

(** [!strcmp(a, b)] and [!strncmp(a, b, n)]. *)
Definition strcmp_eq (a b : string) : bool := String.eqb a b.
Definition strncmp_eq (a b : string) (n : nat) : bool :=
  String.eqb (substring 0 n a) (substring 0 n b).

(** [snprintf(buf, size, "<prefix>%s", arg)]: at most [size - 1] bytes of
    the expansion are stored. *)
Definition snprintf_s (size : nat) (prefix arg : string) : string :=
  substring 0 (size - 1) (prefix ++ arg).

(** The condition both text entry points test their tag with. *)
Definition radio_tag (tag : string) : bool :=
  strcmp_eq tag "HTC_RIL" ||
  strncmp_eq tag "RIL" 3 ||
  strncmp_eq tag "IMS" 3 ||
  strcmp_eq tag "AT" ||
  strcmp_eq tag "GSM" ||
  strcmp_eq tag "STK" ||
  strcmp_eq tag "CDMA" ||
  strcmp_eq tag "PHONE" ||
  strcmp_eq tag "SMS".

(** [vec[0..2]] of the text entry points. *)
Definition text_vec (prio : Z) (tag msg : string) : list iovec :=
  [ {| iov_base := obj_prio prio; iov_len := 1 |};
    {| iov_base := obj_cstr tag; iov_len := strlen tag + 1 |};
    {| iov_base := obj_cstr msg; iov_len := strlen msg + 1 |} ].

(** [__android_log_write] up to its last statement: the log id and the
    ranges it hands to [write_to_log]. *)
Definition __android_log_write_args (prio : Z) (tag : option string)
    (msg : string) : log_id_t * list iovec :=
  let tag := match tag with Some t => t | None => EmptyString end in
  let (log_id, tag) :=
    if radio_tag tag
    then (LOG_ID_RADIO, snprintf_s 32 "use-Rlog/RLOG-" tag)
    else (LOG_ID_MAIN, tag) in
  (log_id, text_vec prio tag msg).

Definition __android_log_write (prio : Z) (tag : option string)
    (msg : string) : M Z :=
  let (log_id, vec) := __android_log_write_args prio tag msg in
  (if prio =? ANDROID_LOG_FATAL then android_set_abort_message msg
   else ret tt) ;;
  call_write_to_log log_id vec.

(** [bufID] is an [int] that holds a [log_id_t]; the [match] is
    [bufID != LOG_ID_RADIO]. *)
Definition __android_log_buf_write (bufID : log_id_t) (prio : Z)
    (tag : option string) (msg : string) : M Z :=
  let tag := match tag with Some t => t | None => EmptyString end in
  let (bufID, tag) :=
    if (match bufID with LOG_ID_RADIO => false | _ => true end)
       && radio_tag tag
    then (LOG_ID_RADIO, snprintf_s 32 "use-Rlog/RLOG-" tag)
    else (bufID, tag) in
  call_write_to_log bufID (text_vec prio tag msg).

(** *** Binary entry points *)

Definition __android_log_bwrite (tag : Z) (payload : list Z) (len : Z)
    : M Z :=
  call_write_to_log LOG_ID_EVENTS
    [ {| iov_base := obj_int32 tag; iov_len := 4 |};
      {| iov_base := obj_bytes payload; iov_len := len |} ].

Definition __android_log_btwrite (tag : Z) (type : Z) (payload : list Z)
    (len : Z) : M Z :=
  call_write_to_log LOG_ID_EVENTS
    [ {| iov_base := obj_int32 tag; iov_len := 4 |};
      {| iov_base := obj_char type; iov_len := 1 |};
      {| iov_base := obj_bytes payload; iov_len := len |} ].

Definition __android_log_bswrite (tag : Z) (payload : string) : M Z :=
  let type := EVENT_TYPE_STRING in
  let len := uint32_t (strlen payload) in
  call_write_to_log LOG_ID_EVENTS
    [ {| iov_base := obj_int32 tag; iov_len := 4 |};
      {| iov_base := obj_char type; iov_len := 1 |};
      {| iov_base := obj_int32 len; iov_len := 4 |};
      {| iov_base := obj_cstr payload; iov_len := len |} ].

(** *** Reading a run off the answers of the operating system *)

(** The value [__write_to_log_initialize] returns when it starts after the
    trace [tr]: the negated [errno] of the first of [socket], [fcntl] and
    [connect] that fails, and 0 when none does. *)
Definition setup_result (tr : list event) : Z :=
  let r := os_socket os (calls is_socket tr) in
  if rv r <? 0 then - errno r
  else
    let r := os_fcntl os (calls is_fcntl tr) in
    if rv r <? 0 then - errno r
    else
      let r := os_connect os (calls is_connect tr) in
      if rv r <? 0 then - errno r else 0.

(** The value of [last_uid] that [__write_to_log_kernel] compares with
    [AID_LOGD] when it is entered in state [s]. *)
Definition uid_seen (s : state) : Z :=
  if last_uid s =? AID_ROOT then os_getuid os (calls is_getuid (trace s))
  else last_uid s.

(** *** Sequences of calls into the library *)

Inductive api_call :=
  | call_write (prio : Z) (tag : option string) (msg : string)
  | call_buf_write (bufID : log_id_t) (prio : Z) (tag : option string)
      (msg : string)
  | call_bwrite (tag : Z) (payload : list Z) (len : Z)
  | call_btwrite (tag : Z) (type : Z) (payload : list Z) (len : Z)
  | call_bswrite (tag : Z) (payload : string)
  | call_close.

Definition run_call (c : api_call) (s : state) : state :=
  match c with
  | call_write prio tag msg => snd (__android_log_write prio tag msg s)
  | call_buf_write bufID prio tag msg =>
      snd (__android_log_buf_write bufID prio tag msg s)
  | call_bwrite tag payload len =>
      snd (__android_log_bwrite tag payload len s)
  | call_btwrite tag type payload len =>
      snd (__android_log_btwrite tag type payload len s)
  | call_bswrite tag payload => snd (__android_log_bswrite tag payload s)
  | call_close => snd (__android_log_close s)
  end.

Definition run_calls (cs : list api_call) (s : state) : state :=
  foldl (fun s c => run_call c s) s cs.

(** *** Threads racing the first call

    A thread that reads [write_to_log] while it points to
    [__write_to_log_init] enters that function.  Its test
    [write_to_log == __write_to_log_init] and the set-up lie between
    [pthread_mutex_lock] and [pthread_mutex_unlock] on [log_init_lock], so
    the racers pass through them one at a time, each finding what the one
    before left: a race is a sequence of runs of [__write_to_log_init], in
    the order in which the racers get the lock.  The send that follows the
    unlock is taken in the same order. *)
Definition racing_first_calls (racers : list (log_id_t * list iovec))
    (s : state) : state :=
  foldl (fun s r => snd (__write_to_log_init (fst r) (snd r) s)) s racers.

End Program.

(** ** Contracts used in the proofs *)

Section Contracts.
Context `{P : platform} (os : OS).

(** Everything the callers of [__write_to_log_initialize] need to know of
    one call of it. *)
Record initialize_post (s : state) (e : Z) (s' : state) : Prop := {
  init_result : e = setup_result os (trace s);
  init_uid : last_uid s' = last_uid s;
  init_sockets : calls is_socket (trace s') = S (calls is_socket (trace s));
  init_fcntls :
    (calls is_fcntl (trace s) <= calls is_fcntl (trace s'))%nat;
  init_connects :
    (calls is_connect (trace s) <= calls is_connect (trace s'))%nat;
  init_connect_reached :
    0 <= rv (os_socket os (calls is_socket (trace s))) ->
    0 <= rv (os_fcntl os (calls is_fcntl (trace s))) ->
    calls is_connect (trace s') = S (calls is_connect (trace s));
  init_writevs : calls is_writev (trace s') = calls is_writev (trace s);
  init_getuids : calls is_getuid (trace s') = calls is_getuid (trace s);
  init_clocks :
    calls is_clock_gettime (trace s') = calls is_clock_gettime (trace s);
  init_failed : e < 0 -> logd_fd s' < 0;
  init_done :
    linux os -> 0 <= e ->
    e = 0 /\ 0 <= logd_fd s' /\ write_to_log s' = write_to_log s;
  init_ptr_kept :
    0 <= rv (os_socket os (calls is_socket (trace s))) ->
    0 <= rv (os_fcntl os (calls is_fcntl (trace s))) ->
    write_to_log s' = write_to_log s;
  init_ptr_null :
    rv (os_socket os (calls is_socket (trace s))) < 0 \/
    rv (os_fcntl os (calls is_fcntl (trace s))) < 0 ->
    write_to_log s' = ptr__write_to_log_null;
}.

(** From [s] to [s']: system calls were only added, and a cached uid that
    is not [AID_ROOT] was neither replaced nor looked up again. *)
Record steady (s s' : state) : Prop := {
  steady_sockets :
    (calls is_socket (trace s) <= calls is_socket (trace s'))%nat;
  steady_connects :
    (calls is_connect (trace s) <= calls is_connect (trace s'))%nat;
  steady_uid :
    last_uid s <> AID_ROOT ->
    last_uid s' = last_uid s /\
    calls is_getuid (trace s') = calls is_getuid (trace s);
}.

End Contracts.

(** ** Environments and inputs of the concrete runs *)

Definition ok (r : Z) : sysret := {| rv := r; errno := 0 |}.
Definition failed (e : Z) : sysret := {| rv := -1; errno := e |}.

(** An application (uid 10001) on a device where logd listens, was
    restarted after the first record, and listens again: the second [writev]
    fails with [ENOTCONN] (107). *)
Definition os_restarted : OS := {|
  os_getuid := fun _ => 10001;
  os_gettid := fun _ => 70000;
  os_clock_gettime := fun n => (1400000000 + Z.of_nat n, 500);
  os_socket := fun _ => ok 3;
  os_fcntl := fun _ => ok 0;
  os_connect := fun _ => ok 0;
  os_writev := fun n =>
    match n with O => ok 20 | 1%nat => failed 107 | _ => ok 22 end;
|}.

(** The same application when logd is overloaded: the second [writev] fails
    with [EAGAIN] (11). *)
Definition os_overloaded : OS := {|
  os_getuid := fun _ => 10001;
  os_gettid := fun _ => 70000;
  os_clock_gettime := fun n => (1400000000 + Z.of_nat n, 500);
  os_socket := fun _ => ok 3;
  os_fcntl := fun _ => ok 0;
  os_connect := fun _ => ok 0;
  os_writev := fun n =>
    match n with O => ok 20 | 1%nat => failed 11 | _ => ok 22 end;
|}.

(** No logd: every [connect] fails with [ECONNREFUSED] (111). *)
Definition os_refusing : OS := {|
  os_getuid := fun _ => 10001;
  os_gettid := fun _ => 70000;
  os_clock_gettime := fun n => (1400000000 + Z.of_nat n, 500);
  os_socket := fun _ => ok 3;
  os_fcntl := fun _ => ok 0;
  os_connect := fun _ => failed 111;
  os_writev := fun _ => ok 20;
|}.

(** A daemon that runs as root (uid 0) on a healthy device. *)
Definition os_as_root : OS := {|
  os_getuid := fun _ => 0;
  os_gettid := fun _ => 1;
  os_clock_gettime := fun n => (1400000000 + Z.of_nat n, 500);
  os_socket := fun _ => ok 3;
  os_fcntl := fun _ => ok 0;
  os_connect := fun _ => ok 0;
  os_writev := fun _ => ok 20;
|}.

(** logd itself: root (uid 0) at its first record, [AID_LOGD] (1036) from
    the second on. *)
Definition os_as_logd : OS := {|
  os_getuid := fun n => match n with O => 0 | _ => 1036 end;
  os_gettid := fun _ => 1;
  os_clock_gettime := fun n => (1400000000 + Z.of_nat n, 500);
  os_socket := fun _ => ok 3;
  os_fcntl := fun _ => ok 0;
  os_connect := fun _ => ok 0;
  os_writev := fun _ => ok 20;
|}.

(** The state of the library after [__android_log_write(4, "init", "up")]
    as the first call of the process. *)
Definition after_first_write (os : OS) : state :=
  snd (__android_log_write (P := android_arm) os 4 (Some "init"%string)
         "up"%string (initial_state (H := android_arm))).

(** [n] copies of a character. *)
Fixpoint string_of (n : nat) (c : ascii) : string :=
  match n with
  | O => EmptyString
  | S n' => String c (string_of n' c)
  end.

(** A tag of 4076 bytes. *)
Definition long_tag : string := string_of 4076 "A"%char.

(** logd after its first record as root and a second one after the
    privilege drop. *)
Definition logd_after_drop : state :=
  snd (__android_log_write (P := android_arm) os_as_logd 4
         (Some "logd"%string) "dropped"%string
         (after_first_write os_as_logd)).

(** The first record of an application, with a tag of 4076 bytes, when the
    first [writev] fails with [ENOTCONN]. *)
Definition os_gone_at_first_send : OS := {|
  os_getuid := fun _ => 10001;
  os_gettid := fun _ => 70000;
  os_clock_gettime := fun n => (1400000000 + Z.of_nat n, 500);
  os_socket := fun _ => ok 3;
  os_fcntl := fun _ => ok 0;
  os_connect := fun _ => ok 0;
  os_writev := fun n => match n with O => failed 107 | _ => failed 14 end;
|}.

(** Four ranges of a binary record that hold 4181 bytes. *)
Definition four_ranges : list iovec :=
  [ {| iov_base := obj_int32 1234; iov_len := 4 |};
    {| iov_base := obj_bytes []; iov_len := 4070 |};
    {| iov_base := obj_bytes []; iov_len := 100 |};
    {| iov_base := obj_bytes []; iov_len := 7 |} ].

(** Three threads that race the first record of the process. *)
Definition three_racers : list (log_id_t * list iovec) :=
  [ (LOG_ID_MAIN, text_vec 4 "tag" "one");
    (LOG_ID_EVENTS, four_ranges);
    (LOG_ID_MAIN, text_vec 4 "tag" "three") ].

(** * The rest of the file

    The entry points that format their message, [__android_log_assert],
    [__android_log_dev_available], and two functions of the vendor blocks,
    which only add functions: [lab126_log_write], compiled when [AMAZON_LOG]
    is defined, and [__android_log_loggable], compiled when [MOTOROLA_LOG]
    is, in its [HAVE_LIBC_SYSTEM_PROPERTIES] form.  Neither switch changes a
    function above.  With them come the readings of a trace that the
    theorems on descriptors and frames are stated with. *)

(** ** Descriptors the process holds

    What the trace says of the descriptor table: a [socket] that succeeds
    opens its result, a [close] of a descriptor that is open closes it. The
    second component counts the [close] calls that name a descriptor the
    process does not hold at that time; [close(-1)] names none. *)

Fixpoint remove_fd (fd : Z) (open : list Z) : list Z :=
  match open with
  | [] => []
  | x :: open' => if x =? fd then open' else x :: remove_fd fd open'
  end.

Definition fd_audit_step (a : list Z * nat) (e : event) : list Z * nat :=
  match e with
  | EvSocket r => if 0 <=? r then (r :: fst a, snd a) else a
  | EvClose fd =>
      if 0 <=? fd then
        if existsb (Z.eqb fd) (fst a) then (remove_fd fd (fst a), snd a)
        else (fst a, S (snd a))
      else a
  | _ => a
  end.

Definition fd_audit (tr : list event) : list Z * nat :=
  foldl fd_audit_step ([], O) tr.

(** The descriptors a value of [logd_fd] stands for. *)
Definition held (fd : Z) : list Z := if 0 <=? fd then [fd] else [].

(** The library holds the descriptor in [logd_fd] and no other, has closed
    nothing it did not hold, and holds a descriptor only while [write_to_log]
    points to [__write_to_log_kernel]. *)
Record tidy (s : state) : Prop := {
  tidy_open : fst (fd_audit (trace s)) = held (logd_fd s);
  tidy_stray : snd (fd_audit (trace s)) = O;
  tidy_idle : write_to_log s <> ptr__write_to_log_kernel -> logd_fd s < 0;
}.

(** The calls that write a record: all but [__android_log_close]. *)
Definition is_write (c : api_call) : Prop :=
  match c with call_close => False | _ => True end.

(** ** Frames *)

Section Frames.
Context `{P : platform} (os : OS).

(** What the first [writev] of [__write_to_log_kernel] is given when the
    function is entered in state [s] and gets that far. *)
Definition first_frame (s : state) (log_id : log_id_t) (vec : list iovec)
    : list (option iovec) :=
  let ts := os_clock_gettime os (calls is_clock_gettime (trace s)) in
  let tid := os_gettid os (calls is_gettid (trace s)) in
  take (snd (build_frame log_id (uint16_t tid) ts vec))
       (fst (build_frame log_id (uint16_t tid) ts vec)).

(** The same with the ranges not yet run through the loop. *)
Definition first_header (s : state) (log_id : log_id_t) : list iovec :=
  let ts := os_clock_gettime os (calls is_clock_gettime (trace s)) in
  let tid := os_gettid os (calls is_gettid (trace s)) in
  header log_id (uint16_t tid) ts.

(** The state of a process whose channel is open and that is not logd. *)
Record channel_open (s : state) : Prop := {
  open_ptr : write_to_log s = ptr__write_to_log_kernel;
  open_fd : 0 <= logd_fd s;
  open_uid : uid_seen os s <> AID_LOGD;
}.

End Frames.

(** Bytes a frame asks [writev] to send; an element that was never stored
    into has no length to count. *)
Definition frame_bytes (f : list (option iovec)) : Z :=
  foldr (fun x acc => match x with Some v => iov_len v + acc | None => acc end)
        0 f.

(** ** Formatted writes *)

Definition LOG_BUF_SIZE : nat := 1024.

(** [vsnprintf(buf, size, fmt, ap)]: [expansion] is the text that [fmt] and
    its arguments expand to; [buf] gets its first [size - 1] bytes. *)
Definition vsnprintf (size : nat) (expansion : string) : string :=
  substring 0 (size - 1) expansion.

(** The priorities of [<android/log.h>] that the file names, besides
    [ANDROID_LOG_FATAL], and the limits of [<sys/system_properties.h>]. *)
Class priorities := {
  ANDROID_LOG_VERBOSE : Z;
  ANDROID_LOG_DEBUG : Z;
  ANDROID_LOG_INFO : Z;
  ANDROID_LOG_WARN : Z;
  ANDROID_LOG_ERROR : Z;
  ANDROID_LOG_SILENT : Z;
  PROP_NAME_MAX : nat;
}.

Definition android_priorities : priorities := {|
  ANDROID_LOG_VERBOSE := 2;
  ANDROID_LOG_DEBUG := 3;
  ANDROID_LOG_INFO := 4;
  ANDROID_LOG_WARN := 5;
  ANDROID_LOG_ERROR := 6;
  ANDROID_LOG_SILENT := 8;
  PROP_NAME_MAX := 32;
|}.

Section Formatted.
Context `{P : platform} `{L : priorities} (os : OS).
Local Open Scope prog_scope.

Definition __android_log_vprint (prio : Z) (tag : option string)
    (expansion : string) : M Z :=
  let buf := vsnprintf LOG_BUF_SIZE expansion in
  __android_log_write os prio tag buf.

Definition __android_log_print (prio : Z) (tag : option string)
    (expansion : string) : M Z :=
  let buf := vsnprintf LOG_BUF_SIZE expansion in
  __android_log_write os prio tag buf.

Definition __android_log_buf_print (bufID : log_id_t) (prio : Z)
    (tag : option string) (expansion : string) : M Z :=
  let buf := vsnprintf LOG_BUF_SIZE expansion in
  __android_log_buf_write os bufID prio tag buf.

(** *** [__android_log_assert]

    [fmt] is [Some] of its expansion when the caller gave a format.  The
    function ends in [__builtin_trap()]: it does not return to its caller,
    and what it hands back here is the state in which it traps. *)
Inductive trapped := Trapped.

Definition assert_message (cond : option string) (fmt : option string)
    : string :=
  match fmt with
  | Some expansion => vsnprintf LOG_BUF_SIZE expansion
  | None =>
      match cond with
      | Some c => snprintf_s LOG_BUF_SIZE "Assertion failed: " c
      | None => "Unspecified assertion failed"%string
      end
  end.

Definition __android_log_assert (cond : option string) (tag : option string)
    (fmt : option string) : M trapped :=
  let buf := assert_message cond fmt in
  __android_log_write os ANDROID_LOG_FATAL tag buf ;;
  ret Trapped.

(** *** [lab126_log_write] ([AMAZON_LOG]) *)

Definition lab126_log_write (bufID : Z) (prio : Z) (tag : option string)
    (expansion : string) : M Z :=
  let tag := match tag with Some t => t | None => EmptyString end in
  if strncmp_eq tag "Sensors" 7 || strncmp_eq tag "qcom_se" 7 then ret 0
  else
    let buf := vsnprintf LOG_BUF_SIZE expansion in
    let new_tag := snprintf_s 128 "AMZ-" tag in
    __android_log_buf_write os LOG_ID_MAIN ANDROID_LOG_DEBUG (Some new_tag)
      buf.

End Formatted.

(** ** [__android_log_dev_available]

    [g_log_status] is a variable of its own; [access] is answered like the
    other system calls, by the number of the call. *)

Inductive log_status := kLogUninitialized | kLogNotAvailable | kLogAvailable.

Record dev_state := {
  g_log_status : log_status;
  access_calls : nat;          (* calls of access() so far *)
}.

Definition dev_initial : dev_state :=
  {| g_log_status := kLogUninitialized; access_calls := O |}.

Definition __android_log_dev_available (os_access : nat -> Z)
    (d : dev_state) : Z * dev_state :=
  let d :=
    match g_log_status d with
    | kLogUninitialized =>
        if os_access (access_calls d) =? 0
        then {| g_log_status := kLogAvailable;
                access_calls := S (access_calls d) |}
        else {| g_log_status := kLogNotAvailable;
                access_calls := S (access_calls d) |}
    | _ => d
    end in
  ((match g_log_status d with kLogAvailable => 1 | _ => 0 end), d).

(** [n] calls in a row: the values returned, and the state after the last. *)
Fixpoint dev_available_calls (os_access : nat -> Z) (n : nat) (d : dev_state)
    : list Z * dev_state :=
  match n with
  | O => ([], d)
  | S n' =>
      let (r, d') := __android_log_dev_available os_access d in
      let (rs, d'') := dev_available_calls os_access n' d' in
      (r :: rs, d'')
  end.

(** ** [__android_log_loggable] ([MOTOROLA_LOG])

    [props key] is the value of the system property [key], empty when the
    property is not set: [__system_property_get] returns its length. *)

Section Loggable.
Context `{L : priorities}.

Definition prio_fallback : Z := ANDROID_LOG_INFO.

(** [keybuf] after the [memcpy], the [strncpy] and the store of the NUL. *)
Definition loggable_key (tag : string) : string :=
  substring 0 (PROP_NAME_MAX - 1)
    ("log.tag." ++ substring 0 (PROP_NAME_MAX - 8) tag).

Definition __android_log_loggable (props : string -> string) (prio : Z)
    (tag : option string) : Z :=
  let results :=
    match tag with
    | Some t => props (loggable_key t)
    | None => EmptyString
    end in
  let results :=
    if (String.length results =? 0)%nat then props "log.tag.DEFAULT"%string
    else results in
  let nprio :=
    match results with
    | EmptyString => prio_fallback
    | String c _ =>
        if Ascii.eqb c "E" then ANDROID_LOG_ERROR
        else if Ascii.eqb c "W" then ANDROID_LOG_WARN
        else if Ascii.eqb c "I" then ANDROID_LOG_INFO
        else if Ascii.eqb c "D" then ANDROID_LOG_DEBUG
        else if Ascii.eqb c "V" then ANDROID_LOG_VERBOSE
        else if Ascii.eqb c "S" then ANDROID_LOG_SILENT
        else prio_fallback
    end in
  if nprio <=? prio then 1 else 0.

End Loggable.


(** ** Environments and inputs of the runs below *)

(** An application (uid 10001) on a device where logd listens and takes
    every record. *)
Definition os_healthy : OS := {|
  os_getuid := fun _ => 10001;
  os_gettid := fun _ => 70000;
  os_clock_gettime := fun n => (1400000000 + Z.of_nat n, 500);
  os_socket := fun _ => ok 3;
  os_fcntl := fun _ => ok 0;
  os_connect := fun _ => ok 0;
  os_writev := fun _ => ok 20;
|}.

(** logd takes the first record, then goes away and does not come back:
    every later [writev] fails with [ENOTCONN] (107), every later [connect]
    with [ECONNREFUSED] (111). *)
Definition os_logd_dies : OS := {|
  os_getuid := fun _ => 10001;
  os_gettid := fun _ => 70000;
  os_clock_gettime := fun n => (1400000000 + Z.of_nat n, 500);
  os_socket := fun _ => ok 3;
  os_fcntl := fun _ => ok 0;
  os_connect := fun n => match n with O => ok 0 | _ => failed 111 end;
  os_writev := fun n => match n with O => ok 20 | _ => failed 107 end;
|}.

(** A process that has no descriptor left: [socket] fails with [EMFILE]
    (24). *)
Definition os_no_descriptors : OS := {|
  os_getuid := fun _ => 10001;
  os_gettid := fun _ => 70000;
  os_clock_gettime := fun n => (1400000000 + Z.of_nat n, 500);
  os_socket := fun _ => failed 24;
  os_fcntl := fun _ => ok 0;
  os_connect := fun _ => ok 0;
  os_writev := fun _ => ok 20;
|}.

(** The state after the record that found logd gone. *)
Definition stuck_without_descriptor : state :=
  snd (__android_log_write (P := android_arm) os_logd_dies 4
         (Some "tag"%string) "hello"%string
         (after_first_write os_logd_dies)).

(** The state after a first record that found no descriptor. *)
Definition disabled : state := after_first_write os_no_descriptors.

(** Four records, one of each kind. *)
Definition some_writes : list api_call :=
  [ call_write 4 (Some "tag"%string) "hello"%string;
    call_bswrite 1234 "text"%string;
    call_buf_write LOG_ID_SYSTEM 6 None "oops"%string;
    call_btwrite 42 0 [1; 2; 3; 4] 4 ].

(** The same around a reset. *)
Definition writes_and_reset : list api_call :=
  some_writes ++ [call_close] ++ some_writes.

(** The properties of a device on which only [log.tag.<23 bytes>] is set,
    to "D". *)
Definition props_debug_one_tag (key : string) : string :=
  if String.eqb key "log.tag.0123456789abcdefghijklm" then "D"%string
  else EmptyString.

(** * Proofs *)

(** ** Integers *)

Lemma to_int_id (z : Z) : - 2 ^ 31 <= z <= 2 ^ 31 - 1 -> to_int z = z.
Proof. intros Hz. unfold to_int. rewrite Z.mod_small; lia. Qed.

(** ** Traces *)

Lemma calls_app (kind : event -> bool) (a b : list event) :
  calls kind (a ++ b) = (calls kind a + calls kind b)%nat.
Proof. induction a as [|e a IH]; simpl; [reflexivity | rewrite IH; lia]. Qed.

Lemma calls_snoc (kind : event -> bool) (a : list event) (e : event) :
  calls kind (a ++ [e]) = (calls kind a + if kind e then 1 else 0)%nat.
Proof. rewrite calls_app. simpl. lia. Qed.

(** Unfold the monad and the system calls down to record updates. *)
Ltac run :=
  unfold close, android_set_abort_message, strip_header in *;
  unfold bind, ret, get, modify, getuid, gettid, clock_gettime, socket, fcntl,
    connect, writev in *;
  cbn [fst snd write_to_log logd_fd last_uid trace with_write_to_log
       with_logd_fd with_last_uid with_event] in *.

(** Count the events of each kind at the end of a trace. *)
Ltac count :=
  rewrite ?calls_snoc in *;
  cbn [is_getuid is_clock_gettime is_gettid is_close is_socket is_fcntl
       is_connect is_writev] in *;
  rewrite ?Nat.add_0_r in *.

(** Boolean tests as propositions. *)
Ltac props :=
  rewrite ?Z.ltb_lt, ?Z.ltb_ge, ?Z.eqb_eq, ?Z.eqb_neq, ?Z.leb_le, ?Z.leb_gt
    in *.

(** ** Frame builder *)

Section FrameBuilderProofs.
Context `{P : platform}.

Lemma size_t_id (z : Z) : 0 <= z <= SIZE_MAX -> size_t z = z.
Proof. intros Hz. unfold size_t. apply Z.mod_small. lia. Qed.

Lemma total_len_app (a b : list iovec) :
  total_len (a ++ b) = total_len a + total_len b.
Proof. induction a as [|x a IH]; simpl; [reflexivity | rewrite IH; lia]. Qed.

Lemma total_len_nonneg (v : list iovec) :
  Forall range_ok v -> 0 <= total_len v.
Proof.
  induction 1 as [|x v Hx _ IH]; simpl; [lia|]. unfold range_ok in Hx. lia.
Qed.

Lemma take_stored (done_ : list iovec) (slots : list (option iovec)) :
  take (length done_) (map Some done_ ++ slots) = map Some done_.
Proof. rewrite <- (length_map Some done_). apply take_app_length. Qed.

Lemma take_stored_one (done_ : list iovec) (x : iovec)
    (slots : list (option iovec)) :
  take (S (length done_)) (map Some done_ ++ Some x :: slots)
  = map Some (done_ ++ [x]).
Proof.
  rewrite map_app. simpl.
  rewrite take_app_ge by (rewrite length_map; lia).
  rewrite length_map.
  replace (S (length done_) - length done_)%nat with 1%nat by lia.
  reflexivity.
Qed.

Lemma insert_slot (done_ : list iovec) (x y : option iovec)
    (slots : list (option iovec)) :
  <[length done_ := x]> (map Some done_ ++ y :: slots)
  = map Some done_ ++ x :: slots.
Proof.
  rewrite insert_app_r_alt by (rewrite length_map; lia).
  rewrite length_map, Nat.sub_diag. reflexivity.
Qed.

(** The loop computes [capped]: with [done_] already stored in front and
    [payload_size = acc], the first [i] elements of the array it returns
    are [done_] followed by what [capped] keeps of [rest]. *)
Lemma copy_payload_capped (rest : list iovec) :
  forall (done_ : list iovec) (slots : list (option iovec)) (acc : Z),
    Forall range_ok rest ->
    0 <= acc <= LOGGER_ENTRY_MAX_PAYLOAD ->
    LOGGER_ENTRY_MAX_PAYLOAD <= SIZE_MAX ->
    length slots = length rest ->
    let r := copy_payload rest (map Some done_ ++ slots) acc (length done_) in
    take (snd r) (fst r) = map Some (done_ ++ capped acc rest).
Proof.
  induction rest as [|v rest IH]; intros done_ slots acc Hok Hacc HM Hlen;
    cbv zeta.
  - simpl. rewrite app_nil_r. apply take_stored.
  - destruct slots as [|slot slots]; [discriminate|].
    apply Forall_cons in Hok as [Hv Hok]. unfold range_ok in Hv.
    simpl in Hlen. simpl copy_payload. simpl capped.
    rewrite (size_t_id (acc + iov_len v)) by lia.
    rewrite !insert_slot.
    destruct (LOGGER_ENTRY_MAX_PAYLOAD <? acc + iov_len v) eqn:Hgt.
    + apply Z.ltb_lt in Hgt.
      rewrite (size_t_id (acc + iov_len v - LOGGER_ENTRY_MAX_PAYLOAD)) by lia.
      rewrite (size_t_id (iov_len v - _)) by lia.
      replace (iov_len v - (acc + iov_len v - LOGGER_ENTRY_MAX_PAYLOAD))
        with (LOGGER_ENTRY_MAX_PAYLOAD - acc) by lia.
      destruct (LOGGER_ENTRY_MAX_PAYLOAD - acc =? 0); cbn [fst snd].
      * rewrite app_nil_r. apply take_stored.
      * apply take_stored_one.
    + apply Z.ltb_ge in Hgt.
      specialize (IH (done_ ++ [v]) slots (acc + iov_len v) Hok).
      cbv zeta in IH. rewrite map_app, length_app in IH. simpl in IH.
      rewrite <- app_assoc in IH. simpl in IH.
      replace (length done_ + 1)%nat with (S (length done_)) in IH by lia.
      rewrite IH by (try lia; congruence).
      rewrite <- app_assoc. reflexivity.
Qed.

(** Ranges that fit are all kept. *)
Lemma capped_within (rest : list iovec) :
  forall acc : Z,
    Forall range_ok rest ->
    acc + total_len rest <= LOGGER_ENTRY_MAX_PAYLOAD ->
    capped acc rest = rest.
Proof.
  induction rest as [|v rest IH]; intros acc Hok Hfit; [reflexivity|].
  apply Forall_cons in Hok as [Hv Hok]. unfold range_ok in Hv.
  pose proof (total_len_nonneg rest Hok) as Hnn.
  simpl in *.
  destruct (LOGGER_ENTRY_MAX_PAYLOAD <? acc + iov_len v) eqn:Hgt;
    [apply Z.ltb_lt in Hgt; lia|].
  f_equal. apply IH; [assumption | lia].
Qed.

(** Ranges that do not fit are cut at the first one that takes the running
    total over the limit. *)
Lemma capped_exceeds (rest : list iovec) :
  forall acc : Z,
    Forall range_ok rest ->
    0 <= acc <= LOGGER_ENTRY_MAX_PAYLOAD ->
    LOGGER_ENTRY_MAX_PAYLOAD < acc + total_len rest ->
    exists (k : nat) (v : iovec),
      rest !! k = Some v /\
      acc + total_len (take k rest) <= LOGGER_ENTRY_MAX_PAYLOAD
        < acc + total_len (take (S k) rest) /\
      let cut := LOGGER_ENTRY_MAX_PAYLOAD - (acc + total_len (take k rest)) in
      capped acc rest
      = take k rest ++
        (if cut =? 0 then []
         else [ {| iov_base := iov_base v; iov_len := cut |} ]).
Proof.
  induction rest as [|v rest IH]; intros acc Hok Hacc Hbig.
  - simpl in Hbig. lia.
  - apply Forall_cons in Hok as [Hv Hok]. unfold range_ok in Hv.
    simpl in Hbig. simpl capped.
    destruct (LOGGER_ENTRY_MAX_PAYLOAD <? acc + iov_len v) eqn:Hgt.
    + apply Z.ltb_lt in Hgt. exists 0%nat, v. simpl.
      replace (LOGGER_ENTRY_MAX_PAYLOAD - (acc + 0))
        with (LOGGER_ENTRY_MAX_PAYLOAD - acc) by lia.
      repeat split; try lia.
    + apply Z.ltb_ge in Hgt.
      destruct (IH (acc + iov_len v) Hok) as (k & w & Hk & Hrange & Hcap);
        [lia | lia |].
      exists (S k), w. cbv zeta in *. simpl.
      replace (acc + (iov_len v + total_len (take k rest)))
        with (acc + iov_len v + total_len (take k rest)) by lia.
      rewrite Hcap. repeat split; try assumption; simpl in *; lia.
Qed.

Lemma build_frame_capped (log_id : log_id_t) (tid : Z) (ts : Z * Z)
    (vec : list iovec) :
  0 <= LOGGER_ENTRY_MAX_PAYLOAD <= SIZE_MAX ->
  Forall range_ok vec ->
  let r := build_frame log_id tid ts vec in
  take (snd r) (fst r) = map Some (header log_id tid ts ++ capped 0 vec).
Proof.
  intros HM Hok. unfold build_frame, store_header.
  rewrite Nat.add_comm. cbn [header_length Nat.add replicate].
  cbn [insert list_insert].
  apply (copy_payload_capped vec (header log_id tid ts)
           (replicate (length vec) None) 0); try assumption; try lia.
  apply length_replicate.
Qed.

(** C3.  What the first [writev] is given, [newVec[0..i-1]], when no
    segment is long enough to wrap [payload_size] around.  If the caller
    segments hold at most [LOGGER_ENTRY_MAX_PAYLOAD] bytes they follow the
    header unchanged.  Otherwise there is a first segment [k] at which the
    running total exceeds the limit; the segments before it are kept, it is
    cut to the bytes still free and kept only if that is not zero, nothing
    after it is kept, and the payload has exactly
    [LOGGER_ENTRY_MAX_PAYLOAD] bytes. *)
Theorem frame_builder_caps_payload (log_id : log_id_t) (tid : Z)
    (ts : Z * Z) (vec : list iovec) :
  0 <= LOGGER_ENTRY_MAX_PAYLOAD <= SIZE_MAX ->
  Forall range_ok vec ->
  let sent :=
    take (snd (build_frame log_id tid ts vec))
         (fst (build_frame log_id tid ts vec)) in
  (total_len vec <= LOGGER_ENTRY_MAX_PAYLOAD ->
   sent = map Some (header log_id tid ts ++ vec)) /\
  (LOGGER_ENTRY_MAX_PAYLOAD < total_len vec ->
   exists (k : nat) (v : iovec),
     vec !! k = Some v /\
     total_len (take k vec) <= LOGGER_ENTRY_MAX_PAYLOAD
       < total_len (take (S k) vec) /\
     let cut := LOGGER_ENTRY_MAX_PAYLOAD - total_len (take k vec) in
     let payload :=
       take k vec ++
       (if cut =? 0 then []
        else [ {| iov_base := iov_base v; iov_len := cut |} ]) in
     sent = map Some (header log_id tid ts ++ payload) /\
     total_len payload = LOGGER_ENTRY_MAX_PAYLOAD).
Proof.
  intros HM Hok sent. subst sent.
  rewrite (build_frame_capped log_id tid ts vec HM Hok).
  split.
  - intros Hfit. rewrite capped_within by (try assumption; lia).
    reflexivity.
  - intros Hbig.
    destruct (capped_exceeds vec 0 Hok) as (k & v & Hk & Hrange & Hcap);
      [lia | lia |].
    exists k, v. cbv zeta in *. simpl in Hrange, Hcap.
    repeat split; try assumption; try lia.
    + rewrite Hcap. reflexivity.
    + rewrite total_len_app.
      destruct (LOGGER_ENTRY_MAX_PAYLOAD - total_len (take k vec) =? 0)
        eqn:Hz; props; simpl; lia.
Qed.

(** The loop stores into the array, it does not resize it. *)
Lemma copy_payload_length (rest : list iovec) :
  forall (newVec : list (option iovec)) (acc : Z) (i : nat),
    length (fst (copy_payload rest newVec acc i)) = length newVec.
Proof.
  induction rest as [|v rest IH]; intros newVec acc i; simpl; [reflexivity|].
  destruct (LOGGER_ENTRY_MAX_PAYLOAD <? size_t (acc + iov_len v)).
  - destruct (_ =? 0); simpl; rewrite !length_insert; reflexivity.
  - rewrite IH, length_insert. reflexivity.
Qed.

(** When no range is cut, the loop ends with [i = nr + header_length], so
    that [newVec[0..nr + header_length - 1]], which the [writev] after a
    reconnect is given, is what the first [writev] was given. *)
Lemma retry_frame_when_not_cut (log_id : log_id_t) (tid : Z) (ts : Z * Z)
    (vec : list iovec) :
  0 <= LOGGER_ENTRY_MAX_PAYLOAD <= SIZE_MAX ->
  Forall range_ok vec ->
  total_len vec <= LOGGER_ENTRY_MAX_PAYLOAD ->
  let r := build_frame log_id tid ts vec in
  take (length vec + header_length) (fst r) = take (snd r) (fst r) /\
  take (snd r) (fst r) = map Some (header log_id tid ts ++ vec).
Proof.
  intros HM Hok Hfit r.
  assert (Hsame : take (snd r) (fst r)
                  = map Some (header log_id tid ts ++ vec)).
  { subst r. rewrite (build_frame_capped log_id tid ts vec HM Hok).
    rewrite capped_within by (try assumption; lia). reflexivity. }
  split; [|exact Hsame].
  assert (Hlen : length (fst r) = (length vec + header_length)%nat).
  { subst r. unfold build_frame. rewrite copy_payload_length.
    unfold store_header. rewrite !length_insert, length_replicate.
    reflexivity. }
  assert (Hi : (length vec + header_length <= snd r)%nat).
  { apply (f_equal length) in Hsame.
    rewrite length_take, length_map, length_app in Hsame. simpl in Hsame.
    unfold header_length. lia. }
  rewrite <- Hlen. rewrite firstn_all. symmetry. apply take_ge. lia.
Qed.

End FrameBuilderProofs.

(** ** [__write_to_log_initialize] *)

Section Initialize.
Context `{P : platform} (os : OS).

Lemma initialize_spec (s : state) :
  initialize_post os s (fst (__write_to_log_initialize os s))
                    (snd (__write_to_log_initialize os s)).
Proof.
  unfold __write_to_log_initialize. run.
  destruct (0 <=? logd_fd s) eqn:Hfd; run; count;
    (destruct (rv (os_socket os (calls is_socket (trace s))) <? 0) eqn:Hs;
     run; count;
     [| destruct (rv (os_fcntl os (calls is_fcntl (trace s))) <? 0) eqn:Hf;
        run; count;
        [| destruct (rv (os_connect os (calls is_connect (trace s))) <? 0)
             eqn:Hc; run; count ] ]).
  all: split; unfold setup_result; run; count; rewrite ?Hs, ?Hf, ?Hc.
  all: rewrite ?Z.ltb_lt, ?Z.ltb_ge in *.
  all: try solve [reflexivity | lia | tauto].
  all: intros HL He;
    try pose proof (linux_socket os HL _ Hs);
    try pose proof (linux_fcntl os HL _ Hf);
    try pose proof (linux_connect os HL _ Hc); lia.
Qed.

End Initialize.

(** Symbolic execution of a program in hypothesis [H]: name the frame, replace
    a call of [__write_to_log_initialize] by its specification, and split on
    the tests. *)
Ltac crack H :=
  repeat (run; count; first
    [ match type of H with
      | context [build_frame ?a ?b ?c ?d] =>
          destruct (build_frame a b c d) as [? ?] eqn:?
      end
    | match type of H with
      | context [__write_to_log_initialize ?o ?x] =>
          let Hi := fresh "Hinit" in
          pose proof (initialize_spec o x) as Hi;
          destruct (__write_to_log_initialize o x) as [? ?];
          cbn [fst snd] in Hi
      end
    | match type of H with
      | context [if ?b then _ else _] => destruct b eqn:?
      end ]).

(** Name the facts of the [initialize_post] that [crack] left behind. *)
Ltac open_init :=
  match goal with
  | Hinit : initialize_post _ _ _ _ |- _ =>
      destruct Hinit
        as [Hres Hu Hso Hfc Hco Hcr Hwr Hgu Hck Hfl Hdn Hkp Hnl]
  end.

Section SetupResult.
Context `{P : platform} (os : OS).

Lemma setup_result_counts (tr tr' : list event) :
  calls is_socket tr' = calls is_socket tr ->
  calls is_fcntl tr' = calls is_fcntl tr ->
  calls is_connect tr' = calls is_connect tr ->
  setup_result os tr' = setup_result os tr.
Proof.
  intros H1 H2 H3. unfold setup_result. rewrite H1, H2, H3. reflexivity.
Qed.

Lemma setup_result_snoc (tr : list event) (e : event) :
  is_socket e = false -> is_fcntl e = false -> is_connect e = false ->
  setup_result os (tr ++ [e]) = setup_result os tr.
Proof.
  intros H1 H2 H3.
  apply setup_result_counts; rewrite calls_snoc, ?H1, ?H2, ?H3; lia.
Qed.

Lemma setup_result_bounds (tr : list event) :
  linux os -> - (2 ^ 31 - 1) <= setup_result os tr <= 0.
Proof.
  intros HL. unfold setup_result.
  repeat match goal with
  | |- context [?a <? 0] =>
      let H := fresh in destruct (a <? 0) eqn:H; [apply Z.ltb_lt in H|]
  end;
  try (pose proof (linux_socket os HL _ ltac:(eassumption)));
  try (pose proof (linux_fcntl os HL _ ltac:(eassumption)));
  try (pose proof (linux_connect os HL _ ltac:(eassumption))); lia.
Qed.

End SetupResult.

(** ** Reconnect policy *)

Section Reconnect.
Context `{P : platform} (os : OS).

(** C1.  A send on the active path (the process is not logd and a
    descriptor is installed) whose [writev] fails.  If [errno] is
    [ENOTCONN], [__write_to_log_initialize] runs exactly once (one more
    [socket] call); when it fails its error is returned and nothing more is
    sent, when it succeeds there is exactly one more [writev].  With any
    other [errno] the negated [errno] is returned, there is no [socket]
    call and no second [writev], and the pointer and the descriptor are
    untouched. *)
Theorem reconnect_only_on_ENOTCONN (s : state) (log_id : log_id_t)
    (vec : list iovec) :
  linux os -> 0 <= header_size ->
  uid_seen os s <> AID_LOGD -> 0 <= logd_fd s ->
  let first := os_writev os (calls is_writev (trace s)) in
  rv first < 0 ->
  let res := fst (__write_to_log_kernel os log_id vec s) in
  let s' := snd (__write_to_log_kernel os log_id vec s) in
  if errno first =? ENOTCONN then
    calls is_socket (trace s') = S (calls is_socket (trace s)) /\
    if setup_result os (trace s) <? 0
    then calls is_writev (trace s') = S (calls is_writev (trace s)) /\
         res = setup_result os (trace s)
    else calls is_writev (trace s') = S (S (calls is_writev (trace s)))
  else
    res = - errno first /\
    calls is_socket (trace s') = calls is_socket (trace s) /\
    calls is_writev (trace s') = S (calls is_writev (trace s)) /\
    write_to_log s' = write_to_log s /\ logd_fd s' = logd_fd s.
Proof.
  intros HL Hhdr Huid Hfd first Hfail res s'. subst first res s'.
  unfold uid_seen in Huid.
  destruct (__write_to_log_kernel os log_id vec s) as [res s'] eqn:Hk.
  unfold __write_to_log_kernel in Hk.
  crack Hk.
  all: inversion Hk; subst; clear Hk.
  all: props.
  all: try lia.
  all: try (open_init;
            run; count; rewrite ?setup_result_snoc in Hres by reflexivity).
  all: pose proof (setup_result_bounds os (trace s) HL) as Hb.
  all: pose proof (linux_writev os HL _ Hfail) as He.
  all: destruct (errno (os_writev os (calls is_writev (trace s))) =? ENOTCONN)
         eqn:Hen; props; try lia.
  all: try (destruct (setup_result os (trace s) <? 0) eqn:Hsr; props;
            try lia).
  all: rewrite ?to_int_id by lia.
  all: repeat split; try lia; try reflexivity.
  all: run; count; lia.
Qed.

End Reconnect.

(** ** Self-filter *)

Section SelfFilter.
Context `{P : platform} (os : OS).

(** C4.  With [AID_LOGD] cached in [last_uid], [__write_to_log_kernel]
    returns 0 and leaves the state as it found it, trace included: no
    system call at all, whatever [logd_fd] holds, a negative value
    included.  The same holds for a call through [write_to_log] when it
    points to [__write_to_log_kernel]. *)
Theorem self_filter_before_channel (s : state) (log_id : log_id_t)
    (vec : list iovec) :
  AID_LOGD <> AID_ROOT ->
  last_uid s = AID_LOGD ->
  __write_to_log_kernel os log_id vec s = (0, s) /\
  (write_to_log s = ptr__write_to_log_kernel ->
   call_write_to_log os log_id vec s = (0, s)).
Proof.
  intros Hne Hlogd.
  assert (Hk : __write_to_log_kernel os log_id vec s = (0, s)).
  { unfold __write_to_log_kernel. run. rewrite Hlogd.
    destruct (AID_LOGD =? AID_ROOT) eqn:Hroot; props; [contradiction|].
    run. rewrite Hlogd, Z.eqb_refl. reflexivity. }
  split; [exact Hk|].
  intros Hptr. unfold call_write_to_log. run. rewrite Hptr. exact Hk.
Qed.

(** The call at which logd is first seen to run as [AID_LOGD] asks for the
    uid and returns 0, also without touching the channel. *)
Lemma self_filter_at_first_sight (s : state) (log_id : log_id_t)
    (vec : list iovec) :
  last_uid s = AID_ROOT ->
  os_getuid os (calls is_getuid (trace s)) = AID_LOGD ->
  __write_to_log_kernel os log_id vec s
  = (0, with_last_uid AID_LOGD (with_event (EvGetuid AID_LOGD) s)).
Proof.
  intros Hroot Hlogd. unfold __write_to_log_kernel. run.
  rewrite Hroot, Z.eqb_refl. run. rewrite Hlogd, Z.eqb_refl. reflexivity.
Qed.

(** For contrast: a process that is not logd and has no descriptor gets
    [-EBADF], also without any channel call. *)
Lemma bad_descriptor_after_filter (s : state) (log_id : log_id_t)
    (vec : list iovec) :
  last_uid s <> AID_ROOT -> last_uid s <> AID_LOGD -> logd_fd s < 0 ->
  __write_to_log_kernel os log_id vec s = (- EBADF, s).
Proof.
  intros Hroot Hlogd Hfd. unfold __write_to_log_kernel. run.
  apply Z.eqb_neq in Hroot, Hlogd. apply Z.ltb_lt in Hfd.
  rewrite Hroot. run. rewrite Hlogd, Hfd. reflexivity.
Qed.

End SelfFilter.

(** ** Return value of a successful send *)

Section ReturnValue.
Context `{P : platform} (os : OS).

(** C10.  On the active path, when the first [writev] returns a count
    above the header size, the function returns that count minus the
    header size; and when the first [writev] fails with [ENOTCONN], the
    set-up succeeds and the second [writev] returns a count above the
    header size, the function returns that second count minus the header
    size. *)
Theorem header_not_counted (s : state) (log_id : log_id_t)
    (vec : list iovec) :
  linux os -> 0 <= header_size ->
  uid_seen os s <> AID_LOGD -> 0 <= logd_fd s ->
  let first := os_writev os (calls is_writev (trace s)) in
  let second := os_writev os (S (calls is_writev (trace s))) in
  let res := fst (__write_to_log_kernel os log_id vec s) in
  (header_size < rv first -> res = rv first - header_size) /\
  (rv first < 0 -> errno first = ENOTCONN ->
   setup_result os (trace s) = 0 ->
   header_size < rv second -> res = rv second - header_size).
Proof.
  intros HL Hhdr Huid Hfd first second res. subst first second res.
  unfold uid_seen in Huid.
  pose proof (linux_writev_count os HL (calls is_writev (trace s))) as Hc1.
  pose proof (linux_writev_count os HL (S (calls is_writev (trace s))))
    as Hc2.
  destruct (__write_to_log_kernel os log_id vec s) as [res s'] eqn:Hk.
  unfold __write_to_log_kernel in Hk.
  crack Hk.
  all: inversion Hk; subst; clear Hk.
  all: props.
  all: try lia.
  all: try (open_init;
            run; count; rewrite ?setup_result_snoc in Hres by reflexivity;
            rewrite ?Hwr in *; run; count;
            rewrite ?Nat.add_1_r in *).
  all: split; [intros H1 | intros H1 H2 H3 H4]; try lia.
  all: rewrite to_int_id by lia; reflexivity.
Qed.

End ReturnValue.

(** ** What every call into the library preserves *)

Section Steady.
Context `{P : platform} (os : OS).

Lemma steady_refl (s : state) : steady s s.
Proof. split; intros; auto. Qed.

Lemma steady_trans (s1 s2 s3 : state) :
  steady s1 s2 -> steady s2 s3 -> steady s1 s3.
Proof.
  intros [A1 A2 A3] [B1 B2 B3]. split; [lia | lia |].
  intros Hu. destruct (A3 Hu) as [E1 E2].
  destruct B3 as [E3 E4]; [congruence|]. split; congruence.
Qed.

Lemma initialize_steady (s : state) :
  steady s (snd (__write_to_log_initialize os s)).
Proof.
  destruct (initialize_spec os s)
    as [Hres Hu Hso Hfc Hco Hcr Hwr Hgu Hck Hfl Hdn Hkp Hnl].
  split; intros; auto; lia.
Qed.

Lemma kernel_steady (s : state) (log_id : log_id_t) (vec : list iovec) :
  steady s (snd (__write_to_log_kernel os log_id vec s)).
Proof.
  destruct (__write_to_log_kernel os log_id vec s) as [res s'] eqn:Hk.
  unfold __write_to_log_kernel in Hk.
  crack Hk.
  all: inversion Hk; subst; clear Hk.
  all: props.
  all: try (open_init;
            run; count).
  all: split; run; count; try lia.
  all: intros Hne; try contradiction; split; congruence.
Qed.

(** A cached [AID_ROOT] makes the function ask for the uid, once, and cache
    the answer. *)
Lemma kernel_reads_uid (s : state) (log_id : log_id_t) (vec : list iovec) :
  last_uid s = AID_ROOT ->
  let s' := snd (__write_to_log_kernel os log_id vec s) in
  last_uid s' = os_getuid os (calls is_getuid (trace s)) /\
  calls is_getuid (trace s') = S (calls is_getuid (trace s)).
Proof.
  intros Hroot s'. subst s'.
  destruct (__write_to_log_kernel os log_id vec s) as [res s'] eqn:Hk.
  unfold __write_to_log_kernel in Hk.
  crack Hk.
  all: inversion Hk; subst; clear Hk.
  all: props; try contradiction.
  all: try (open_init;
            run; count).
  all: run; count; split; try congruence; try lia.
Qed.

Lemma init_steady (s : state) (log_id : log_id_t) (vec : list iovec) :
  steady s (snd (__write_to_log_init os log_id vec s)).
Proof.
  unfold __write_to_log_init, __write_to_log_null. run.
  destruct (write_to_log s); try apply kernel_steady; try apply steady_refl.
  pose proof (initialize_steady s) as Hi.
  destruct (__write_to_log_initialize os s) as [e s1]. cbn [fst snd] in *.
  destruct (e <? 0); [exact Hi|]. run.
  eapply steady_trans; [exact Hi|].
  eapply steady_trans; [| apply kernel_steady].
  split; run; auto.
Qed.

Lemma call_steady (s : state) (log_id : log_id_t) (vec : list iovec) :
  steady s (snd (call_write_to_log os log_id vec s)).
Proof.
  unfold call_write_to_log, __write_to_log_null. run.
  destruct (write_to_log s);
    [apply init_steady | apply steady_refl | apply kernel_steady].
Qed.

Lemma close_steady (s : state) : steady s (snd (__android_log_close s)).
Proof. unfold __android_log_close. run. split; run; count; auto; lia. Qed.

Lemma run_call_steady (c : api_call) (s : state) :
  steady s (run_call os c s).
Proof.
  destruct c; unfold run_call.
  - unfold __android_log_write.
    destruct (__android_log_write_args prio tag msg) as [log_id vec]. run.
    destruct (prio =? ANDROID_LOG_FATAL); run;
      (eapply steady_trans; [| apply call_steady]);
      split; run; count; auto; lia.
  - unfold __android_log_buf_write.
    match goal with
    | |- context [if ?b then _ else _] => destruct b
    end; apply call_steady.
  - apply call_steady.
  - apply call_steady.
  - apply call_steady.
  - apply close_steady.
Qed.

Lemma run_calls_steady (cs : list api_call) :
  forall s : state, steady s (run_calls os cs s).
Proof.
  induction cs as [|c cs IH]; intros s; [apply steady_refl|].
  simpl. eapply steady_trans; [apply run_call_steady | apply IH].
Qed.

End Steady.

(** ** First write and failed set-up *)

Section FirstWrite.
Context `{P : platform} (os : OS).

(** [__write_to_log_null] does nothing, every time. *)
Lemma disabled_is_sticky (s : state) (log_id : log_id_t) (vec : list iovec) :
  write_to_log s = ptr__write_to_log_null ->
  call_write_to_log os log_id vec s = (-1, s).
Proof.
  intros Hptr. unfold call_write_to_log. run. rewrite Hptr. reflexivity.
Qed.

(** A first write whose [socket] or [fcntl] fails installs
    [__write_to_log_null]. *)
Lemma resource_failure_disables (s : state) (log_id : log_id_t)
    (vec : list iovec) :
  linux os ->
  write_to_log s = ptr__write_to_log_init ->
  rv (os_socket os (calls is_socket (trace s))) < 0 \/
  rv (os_fcntl os (calls is_fcntl (trace s))) < 0 ->
  let r := call_write_to_log os log_id vec s in
  fst r = setup_result os (trace s) /\ fst r < 0 /\
  write_to_log (snd r) = ptr__write_to_log_null.
Proof.
  intros HL Hptr Hfail r. subst r.
  unfold call_write_to_log, __write_to_log_init. run. rewrite Hptr. run.
  rewrite Hptr.
  destruct (initialize_spec os s)
    as [Hres Hu Hso Hfc Hco Hcr Hwr Hgu Hck Hfl Hdn Hkp Hnl].
  destruct (__write_to_log_initialize os s) as [e s1]. cbn [fst snd] in *.
  destruct (e <? 0) eqn:He; props.
  - run. auto.
  - destruct (Hdn HL He) as (_ & _ & Hsame). specialize (Hnl Hfail).
    congruence.
Qed.

(** C2, as the code has it.  A first write whose set-up fails at
    [connect] returns the negated [errno] of [connect] and leaves
    [write_to_log] at [__write_to_log_init] with no descriptor installed.
    The next write therefore runs the set-up again: it calls [socket], and
    it calls [connect] when [socket] and [fcntl] succeed. *)
Theorem connect_failure_retried_on_next_write (s : state)
    (log_id : log_id_t) (vec : list iovec) :
  linux os ->
  write_to_log s = ptr__write_to_log_init ->
  0 <= rv (os_socket os (calls is_socket (trace s))) ->
  0 <= rv (os_fcntl os (calls is_fcntl (trace s))) ->
  rv (os_connect os (calls is_connect (trace s))) < 0 ->
  let r1 := call_write_to_log os log_id vec s in
  let s1 := snd r1 in
  fst r1 = - errno (os_connect os (calls is_connect (trace s))) /\
  write_to_log s1 = ptr__write_to_log_init /\
  logd_fd s1 < 0 /\
  forall (log_id' : log_id_t) (vec' : list iovec),
    let s2 := snd (call_write_to_log os log_id' vec' s1) in
    (calls is_socket (trace s1) < calls is_socket (trace s2))%nat /\
    (0 <= rv (os_socket os (calls is_socket (trace s1))) ->
     0 <= rv (os_fcntl os (calls is_fcntl (trace s1))) ->
     (calls is_connect (trace s1) < calls is_connect (trace s2))%nat).
Proof.
  intros HL Hptr Hso Hfc Hco r1 s1. subst r1 s1.
  assert (Hres : setup_result os (trace s)
                 = - errno (os_connect os (calls is_connect (trace s)))).
  { unfold setup_result. apply Z.ltb_ge in Hso, Hfc. apply Z.ltb_lt in Hco.
    rewrite Hso, Hfc, Hco. reflexivity. }
  pose proof (linux_connect os HL _ Hco) as Herr.
  destruct (initialize_spec os s)
    as [Hr Hu Hs Hf Hc Hcr Hwr Hgu Hck Hfl Hdn Hkp Hnl].
  destruct (__write_to_log_initialize os s) as [e s1] eqn:Hinit.
  cbn [fst snd] in *.
  assert (He : e < 0) by lia.
  assert (Hcall : call_write_to_log os log_id vec s = (e, s1)).
  { unfold call_write_to_log, __write_to_log_init. run. rewrite Hptr. run.
    rewrite Hptr, Hinit. apply Z.ltb_lt in He. rewrite He. reflexivity. }
  rewrite Hcall. cbn [fst snd].
  assert (Hptr1 : write_to_log s1 = ptr__write_to_log_init)
    by (rewrite Hkp by assumption; exact Hptr).
  split; [congruence|]. split; [exact Hptr1|]. split; [auto|].
  intros log_id' vec'.
  unfold call_write_to_log, __write_to_log_init. run. rewrite Hptr1. run.
  rewrite Hptr1.
  destruct (initialize_spec os s1)
    as [Hr' Hu' Hs' Hf' Hc' Hcr' Hwr' Hgu' Hck' Hfl' Hdn' Hkp' Hnl'].
  destruct (__write_to_log_initialize os s1) as [e' s2]. cbn [fst snd] in *.
  destruct (e' <? 0); run.
  - split; [lia|]. intros A B. rewrite (Hcr' A B). lia.
  - match goal with
    | |- context [__write_to_log_kernel os ?l ?v ?x] =>
        destruct (kernel_steady os x l v) as [K1 K2 _]
    end.
    run. split; [lia|]. intros A B. rewrite (Hcr' A B) in K2. lia.
Qed.

End FirstWrite.

(** ** Threads racing the first call *)

Section RacingFirstCalls.
Context `{P : platform} (os : OS).

(** The set-up keeps [write_to_log] or disables the library. *)
Lemma initialize_ptr (s : state) :
  write_to_log (snd (__write_to_log_initialize os s)) = write_to_log s \/
  write_to_log (snd (__write_to_log_initialize os s))
  = ptr__write_to_log_null.
Proof.
  destruct (initialize_spec os s)
    as [Hres Hu Hso Hfc Hco Hcr Hwr Hgu Hck Hfl Hdn Hkp Hnl].
  destruct (Z.lt_ge_cases (rv (os_socket os (calls is_socket (trace s)))) 0)
    as [Hs | Hs]; [right; apply Hnl; left; exact Hs|].
  destruct (Z.lt_ge_cases (rv (os_fcntl os (calls is_fcntl (trace s)))) 0)
    as [Hf | Hf]; [right; apply Hnl; right; exact Hf|].
  left. apply Hkp; assumption.
Qed.

(** So does [__write_to_log_kernel]; it never assigns
    [__write_to_log_init]. *)
Lemma kernel_ptr (s : state) (log_id : log_id_t) (vec : list iovec) :
  write_to_log (snd (__write_to_log_kernel os log_id vec s)) = write_to_log s
  \/ write_to_log (snd (__write_to_log_kernel os log_id vec s))
     = ptr__write_to_log_null.
Proof.
  destruct (__write_to_log_kernel os log_id vec s) as [res s'] eqn:Hk.
  unfold __write_to_log_kernel in Hk.
  repeat (run; count; first
    [ match type of Hk with
      | context [build_frame ?a ?b ?c ?d] =>
          destruct (build_frame a b c d) as [? ?] eqn:?
      end
    | match type of Hk with
      | context [__write_to_log_initialize ?o ?x] =>
          let Hp := fresh "Hptr" in
          pose proof (initialize_ptr x) as Hp;
          destruct (__write_to_log_initialize o x) as [? ?];
          cbn [fst snd] in Hp
      end
    | match type of Hk with
      | context [if ?b then _ else _] => destruct b eqn:?
      end ]).
  all: inversion Hk; subst; clear Hk; run; auto.
Qed.

(** Without [ENOTCONN] it makes no [socket] call and leaves the pointer. *)
Lemma kernel_no_reconnect (s : state) (log_id : log_id_t)
    (vec : list iovec) :
  (forall k : nat,
     rv (os_writev os k) < 0 -> errno (os_writev os k) <> ENOTCONN) ->
  write_to_log (snd (__write_to_log_kernel os log_id vec s)) = write_to_log s
  /\ calls is_socket (trace (snd (__write_to_log_kernel os log_id vec s)))
     = calls is_socket (trace s).
Proof.
  intros Hos. specialize (Hos (calls is_writev (trace s))).
  destruct (__write_to_log_kernel os log_id vec s) as [res s'] eqn:Hk.
  unfold __write_to_log_kernel in Hk.
  crack Hk.
  all: injection Hk as <- <-; run; count; props.
  all: try (exfalso; apply Hos; lia).
  all: split; reflexivity.
Qed.

(** A racer that finds the pointer assigned leaves it assigned. *)
Lemma init_settled_stays (s : state) (log_id : log_id_t)
    (vec : list iovec) :
  write_to_log s <> ptr__write_to_log_init ->
  write_to_log (snd (__write_to_log_init os log_id vec s))
  <> ptr__write_to_log_init.
Proof.
  intros Hptr. unfold __write_to_log_init, __write_to_log_null. run.
  destruct (write_to_log s) eqn:Hs; [contradiction | run; congruence |].
  destruct (kernel_ptr s log_id vec) as [H | H]; congruence.
Qed.

Lemma race_settled_stays (racers : list (log_id_t * list iovec)) :
  forall s : state,
    write_to_log s <> ptr__write_to_log_init ->
    write_to_log (racing_first_calls os racers s) <> ptr__write_to_log_init.
Proof.
  induction racers as [|r racers IH]; intros s Hptr; [exact Hptr|].
  apply IH, init_settled_stays, Hptr.
Qed.

(** Without [ENOTCONN] it makes no [socket] call either. *)
Lemma init_settled_quiet (s : state) (log_id : log_id_t)
    (vec : list iovec) :
  (forall k : nat,
     rv (os_writev os k) < 0 -> errno (os_writev os k) <> ENOTCONN) ->
  write_to_log s <> ptr__write_to_log_init ->
  write_to_log (snd (__write_to_log_init os log_id vec s)) = write_to_log s
  /\ calls is_socket (trace (snd (__write_to_log_init os log_id vec s)))
     = calls is_socket (trace s).
Proof.
  intros Hos Hptr. unfold __write_to_log_init, __write_to_log_null. run.
  destruct (write_to_log s) eqn:Hs; [contradiction | run; auto |].
  destruct (kernel_no_reconnect s log_id vec Hos) as [H1 H2].
  split; congruence.
Qed.

Lemma race_settled_quiet (racers : list (log_id_t * list iovec)) :
  (forall k : nat,
     rv (os_writev os k) < 0 -> errno (os_writev os k) <> ENOTCONN) ->
  forall s : state,
    write_to_log s <> ptr__write_to_log_init ->
    write_to_log (racing_first_calls os racers s) = write_to_log s /\
    calls is_socket (trace (racing_first_calls os racers s))
    = calls is_socket (trace s).
Proof.
  intros Hos.
  induction racers as [|r racers IH]; intros s Hptr; [split; reflexivity|].
  destruct (init_settled_quiet s (fst r) (snd r) Hos Hptr) as [H1 H2].
  destruct (IH (snd (__write_to_log_init os (fst r) (snd r) s)))
    as [I1 I2]; [congruence|].
  simpl. split; congruence.
Qed.

(** A set-up that is refused at [connect]: one call of each of the three,
    and the pointer as it was. *)
Lemma initialize_refused (s : state) :
  0 <= rv (os_socket os (calls is_socket (trace s))) ->
  0 <= rv (os_fcntl os (calls is_fcntl (trace s))) ->
  rv (os_connect os (calls is_connect (trace s))) < 0 ->
  let r := __write_to_log_initialize os s in
  fst r = - errno (os_connect os (calls is_connect (trace s))) /\
  write_to_log (snd r) = write_to_log s /\
  logd_fd (snd r) = -1 /\
  calls is_socket (trace (snd r)) = S (calls is_socket (trace s)) /\
  calls is_fcntl (trace (snd r)) = S (calls is_fcntl (trace s)) /\
  calls is_connect (trace (snd r)) = S (calls is_connect (trace s)).
Proof.
  intros Hs Hf Hc. apply Z.ltb_ge in Hs, Hf. apply Z.ltb_lt in Hc.
  unfold __write_to_log_initialize. run.
  destruct (0 <=? logd_fd s); run; count; rewrite Hs; run; count;
    rewrite Hf; run; count; rewrite Hc; run; count;
    repeat split; lia.
Qed.

(** The racers that find [connect] refused each run the set-up. *)
Lemma race_refused (racers : list (log_id_t * list iovec)) :
  linux os ->
  forall s : state,
    write_to_log s = ptr__write_to_log_init ->
    (forall k : nat,
       (k < length racers)%nat ->
       0 <= rv (os_socket os (calls is_socket (trace s) + k)) /\
       0 <= rv (os_fcntl os (calls is_fcntl (trace s) + k)) /\
       rv (os_connect os (calls is_connect (trace s) + k)) < 0) ->
    let s' := racing_first_calls os racers s in
    write_to_log s' = ptr__write_to_log_init /\
    calls is_socket (trace s')
    = (calls is_socket (trace s) + length racers)%nat /\
    calls is_fcntl (trace s')
    = (calls is_fcntl (trace s) + length racers)%nat /\
    calls is_connect (trace s')
    = (calls is_connect (trace s) + length racers)%nat.
Proof.
  intros HL.
  induction racers as [|r racers IH]; intros s Hptr Hall; cbv zeta.
  { simpl. rewrite !Nat.add_0_r. repeat split. exact Hptr. }
  destruct (Hall O ltac:(simpl; lia)) as (Hs & Hf & Hc).
  rewrite !Nat.add_0_r in Hs, Hf, Hc.
  pose proof (linux_connect os HL _ Hc) as Herr.
  destruct (initialize_refused s Hs Hf Hc) as (E & Ep & _ & Es & Ef & Ec).
  assert (Hrun : __write_to_log_init os (fst r) (snd r) s
                 = __write_to_log_initialize os s).
  { unfold __write_to_log_init. run. rewrite Hptr. run.
    destruct (__write_to_log_initialize os s) as [e s1]. cbn [fst] in E.
    assert (He : (e <? 0) = true) by (apply Z.ltb_lt; lia).
    rewrite He. reflexivity. }
  simpl. rewrite Hrun.
  destruct (IH (snd (__write_to_log_initialize os s))) as (I1 & I2 & I3 & I4).
  - congruence.
  - intros k Hk. rewrite Es, Ef, Ec.
    specialize (Hall (S k) ltac:(simpl; lia)).
    rewrite !Nat.add_succ_r in Hall. exact Hall.
  - cbv zeta in *. rewrite I1, I2, I3, I4, Es, Ef, Ec.
    simpl. repeat split; lia.
Qed.

(** The first racer when its set-up is not refused at [connect]. *)
Lemma first_racer_settles (s : state) (log_id : log_id_t)
    (vec : list iovec) :
  linux os ->
  write_to_log s = ptr__write_to_log_init ->
  rv (os_socket os (calls is_socket (trace s))) < 0 \/
  rv (os_fcntl os (calls is_fcntl (trace s))) < 0 \/
  0 <= rv (os_connect os (calls is_connect (trace s))) ->
  let s1 := snd (__write_to_log_init os log_id vec s) in
  write_to_log s1 <> ptr__write_to_log_init /\
  ((forall k : nat,
      rv (os_writev os k) < 0 -> errno (os_writev os k) <> ENOTCONN) ->
   calls is_socket (trace s1) = S (calls is_socket (trace s)) /\
   write_to_log s1
   = (if setup_result os (trace s) <? 0 then ptr__write_to_log_null
      else ptr__write_to_log_kernel)).
Proof.
  intros HL Hptr Hsettle s1. subst s1.
  unfold __write_to_log_init. run. rewrite Hptr. run.
  destruct (initialize_spec os s)
    as [Hres Hu Hso Hfc Hco Hcr Hwr Hgu Hck Hfl Hdn Hkp Hnl].
  destruct (__write_to_log_initialize os s) as [e s1]. cbn [fst snd] in *.
  rewrite <- Hres.
  destruct (e <? 0) eqn:He; props; run.
  - assert (Hnull : write_to_log s1 = ptr__write_to_log_null).
    { apply Hnl.
      destruct (Z.lt_ge_cases
                  (rv (os_socket os (calls is_socket (trace s)))) 0)
        as [Hs | Hs]; [left; exact Hs|].
      destruct (Z.lt_ge_cases
                  (rv (os_fcntl os (calls is_fcntl (trace s)))) 0)
        as [Hf | Hf]; [right; exact Hf|].
      exfalso. destruct Hsettle as [H | [H | H]]; try lia.
      unfold setup_result in Hres.
      apply Z.ltb_ge in Hs, Hf, H. rewrite Hs, Hf, H in Hres. lia. }
    split; [congruence|]. intros _. split; [exact Hso | exact Hnull].
  - match goal with
    | |- context [__write_to_log_kernel os ?l ?v ?x] =>
        destruct (kernel_ptr x l v) as [K | K];
        pose proof (kernel_no_reconnect x l v) as Q
    end; run.
    + split; [congruence|]. intros Hos. destruct (Q Hos) as [Q1 Q2].
      split; congruence.
    + split; [congruence|]. intros Hos. destruct (Q Hos) as [Q1 Q2].
      split; congruence.
Qed.

(** C6, as the code has it.  The racers pass through the test and the
    set-up of [__write_to_log_init] one at a time, and each one that finds
    [write_to_log] still at [__write_to_log_init] runs the set-up.  A set-up
    that succeeds, or that fails at [socket] or [fcntl], settles the race:
    the pointer is [__write_to_log_kernel] or [__write_to_log_null] from then
    on, and when no [writev] fails with [ENOTCONN] the race has made exactly
    one [socket] call.  A set-up that fails at [connect] settles nothing:
    racers whose [connect] is refused each make one [socket], one [fcntl] and
    one [connect] call, and leave the pointer at [__write_to_log_init]. *)
Theorem racing_first_calls_settle_unless_refused
    (racers : list (log_id_t * list iovec)) (s : state) :
  linux os ->
  write_to_log s = ptr__write_to_log_init ->
  let s' := racing_first_calls os racers s in
  (rv (os_socket os (calls is_socket (trace s))) < 0 \/
   rv (os_fcntl os (calls is_fcntl (trace s))) < 0 \/
   0 <= rv (os_connect os (calls is_connect (trace s))) ->
   racers <> [] ->
   (write_to_log s' = ptr__write_to_log_kernel \/
    write_to_log s' = ptr__write_to_log_null) /\
   ((forall k : nat,
       rv (os_writev os k) < 0 -> errno (os_writev os k) <> ENOTCONN) ->
    calls is_socket (trace s') = S (calls is_socket (trace s)) /\
    write_to_log s'
    = (if setup_result os (trace s) <? 0 then ptr__write_to_log_null
       else ptr__write_to_log_kernel))) /\
  ((forall k : nat,
      (k < length racers)%nat ->
      0 <= rv (os_socket os (calls is_socket (trace s) + k)) /\
      0 <= rv (os_fcntl os (calls is_fcntl (trace s) + k)) /\
      rv (os_connect os (calls is_connect (trace s) + k)) < 0) ->
   write_to_log s' = ptr__write_to_log_init /\
   calls is_socket (trace s')
   = (calls is_socket (trace s) + length racers)%nat /\
   calls is_fcntl (trace s')
   = (calls is_fcntl (trace s) + length racers)%nat /\
   calls is_connect (trace s')
   = (calls is_connect (trace s) + length racers)%nat).
Proof.
  intros HL Hptr s'. subst s'. split.
  - intros Hsettle Hne.
    destruct racers as [|r rest]; [contradiction|]. simpl.
    destruct (first_racer_settles s (fst r) (snd r) HL Hptr Hsettle)
      as [Hs1 Hquiet].
    set (s1 := snd (__write_to_log_init os (fst r) (snd r) s)) in *.
    pose proof (race_settled_stays rest s1 Hs1) as Hend.
    split.
    + destruct (write_to_log (racing_first_calls os rest s1));
        [contradiction | right | left]; reflexivity.
    + intros Hos. destruct (Hquiet Hos) as [Q1 Q2].
      destruct (race_settled_quiet rest Hos s1 Hs1) as [R1 R2].
      split; congruence.
  - intros Hall. exact (race_refused racers HL s Hptr Hall).
Qed.

End RacingFirstCalls.

(** ** Administrative reset *)

Section AdministrativeReset.

(** C7.  After [__android_log_close] the pointer is back at
    [__write_to_log_init] and [logd_fd] is -1; the call has issued one
    [close], of the descriptor that was installed.  In the reset state the
    call changes none of the three variables and its [close] is
    [close(-1)], which names no descriptor; so does the second of two calls
    in a row.  The function returns nothing ([unit]). *)
Theorem reset_is_idempotent (s : state) :
  let s' := snd (__android_log_close s) in
  let s'' := snd (__android_log_close s') in
  (write_to_log s' = ptr__write_to_log_init /\ logd_fd s' = -1 /\
   last_uid s' = last_uid s /\
   trace s' = trace s ++ [EvClose (logd_fd s)]) /\
  (write_to_log s = ptr__write_to_log_init -> logd_fd s = -1 ->
   write_to_log s' = write_to_log s /\ logd_fd s' = logd_fd s /\
   last_uid s' = last_uid s /\
   trace s' = trace s ++ [EvClose (-1)] /\
   calls closes_descriptor (trace s') = calls closes_descriptor (trace s)) /\
  (write_to_log s'' = write_to_log s' /\ logd_fd s'' = logd_fd s' /\
   last_uid s'' = last_uid s' /\
   trace s'' = trace s' ++ [EvClose (-1)] /\
   calls closes_descriptor (trace s'')
   = calls closes_descriptor (trace s')).
Proof.
  unfold __android_log_close. run.
  repeat split; try reflexivity; try congruence.
  - rewrite calls_snoc. cbn [closes_descriptor].
    match goal with H : logd_fd s = -1 |- _ => rewrite H end.
    simpl. lia.
  - rewrite (calls_snoc _ (trace s ++ _)). simpl. lia.
Qed.

End AdministrativeReset.

(** ** Radio tags *)

Section RadioTags.
Context `{P : platform} (os : OS).

Lemma substring_all (s : string) :
  forall n : nat, (String.length s <= n)%nat -> substring 0 n s = s.
Proof.
  induction s as [|c s IH]; intros n Hn; simpl in *.
  - destruct n; reflexivity.
  - destruct n; [lia|]. rewrite IH by lia. reflexivity.
Qed.

(** The rewritten tag is the notice followed by as much of the tag as the
    32-byte buffer [tmp_tag] has room for. *)
Lemma tmp_tag_contents (tag : string) :
  snprintf_s 32 "use-Rlog/RLOG-" tag
  = ("use-Rlog/RLOG-" ++ substring 0 17 tag)%string.
Proof. reflexivity. Qed.

(** Every tag that starts with "RIL" passes the test. *)
Lemma RIL_prefix_is_radio_tag (rest : string) :
  radio_tag ("RIL" ++ rest) = true.
Proof.
  unfold radio_tag.
  replace (strncmp_eq ("RIL" ++ rest) "RIL" 3) with true.
  - rewrite orb_true_r. reflexivity.
  - unfold strncmp_eq. simpl. destruct rest; reflexivity.
Qed.

(** C8, as the code has it.  [__android_log_write] sends a tag that passes
    the test to [LOG_ID_RADIO], and the tag range points to [tmp_tag]: the
    notice "use-Rlog/RLOG-" followed by the first 17 bytes of the tag, which
    is the whole tag when it has at most 17 bytes.  The write is the call
    through [write_to_log] with these arguments.  [__android_log_buf_write]
    does the same for every buffer but [LOG_ID_RADIO]; a record that is
    already addressed to [LOG_ID_RADIO] goes there with its tag as it is. *)
Theorem radio_tag_rerouted (prio : Z) (tag msg : string) :
  radio_tag tag = true ->
  let tmp_tag := ("use-Rlog/RLOG-" ++ substring 0 17 tag)%string in
  __android_log_write_args prio (Some tag) msg
  = (LOG_ID_RADIO, text_vec prio tmp_tag msg) /\
  __android_log_write os prio (Some tag) msg
  = bind (if prio =? ANDROID_LOG_FATAL then android_set_abort_message msg
          else ret tt)
         (fun _ => call_write_to_log os LOG_ID_RADIO
                     (text_vec prio tmp_tag msg)) /\
  (forall bufID : log_id_t,
     bufID <> LOG_ID_RADIO ->
     __android_log_buf_write os bufID prio (Some tag) msg
     = call_write_to_log os LOG_ID_RADIO (text_vec prio tmp_tag msg)) /\
  __android_log_buf_write os LOG_ID_RADIO prio (Some tag) msg
  = call_write_to_log os LOG_ID_RADIO (text_vec prio tag msg) /\
  ((String.length tag <= 17)%nat ->
   tmp_tag = ("use-Rlog/RLOG-" ++ tag)%string).
Proof.
  intros Hradio tmp_tag.
  assert (Hargs : __android_log_write_args prio (Some tag) msg
                  = (LOG_ID_RADIO, text_vec prio tmp_tag msg)).
  { unfold __android_log_write_args. rewrite Hradio, tmp_tag_contents.
    reflexivity. }
  split; [exact Hargs|]. split; [|split; [|split]].
  - unfold __android_log_write. rewrite Hargs. reflexivity.
  - intros bufID Hbuf. unfold __android_log_buf_write.
    rewrite Hradio, tmp_tag_contents.
    destruct bufID; try reflexivity. contradiction.
  - reflexivity.
  - intros Hlen. subst tmp_tag. rewrite substring_all by assumption.
    reflexivity.
Qed.

End RadioTags.

(** ** Cached uid *)

Section CachedUid.
Context `{P : platform} (os : OS).

(** C9, as the code has it.  [last_uid] starts at [AID_ROOT].  A call of
    [__write_to_log_kernel] that finds [AID_ROOT] cached asks for the uid
    once and caches the answer.  Once the cached value is not [AID_ROOT],
    no sequence of calls into the library changes it or asks for the uid
    again. *)
Theorem cached_uid_settles_once_not_root :
  last_uid initial_state = AID_ROOT /\
  (forall (s : state) (log_id : log_id_t) (vec : list iovec),
     last_uid s = AID_ROOT ->
     let s' := snd (__write_to_log_kernel os log_id vec s) in
     last_uid s' = os_getuid os (calls is_getuid (trace s)) /\
     calls is_getuid (trace s') = S (calls is_getuid (trace s))) /\
  (forall (s : state) (cs : list api_call),
     last_uid s <> AID_ROOT ->
     let s' := run_calls os cs s in
     last_uid s' = last_uid s /\
     calls is_getuid (trace s') = calls is_getuid (trace s)).
Proof.
  split; [reflexivity|]. split.
  - intros s log_id vec Hroot. apply kernel_reads_uid. exact Hroot.
  - intros s cs Hne. apply (steady_uid _ _ (run_calls_steady os cs s) Hne).
Qed.

End CachedUid.

(** * Concrete runs *)

(** Evaluate both sides of a comparison of integers, then decide it. *)
Ltac by_eval :=
  lazymatch goal with
  | |- ?a <> ?b =>
      let a' := eval vm_compute in a in
      let b' := eval vm_compute in b in
      change (a' <> b'); lia
  | |- ?R ?a ?b =>
      let a' := eval vm_compute in a in
      let b' := eval vm_compute in b in
      change (R a' b'); lia
  end.

Section ConcreteRuns.

(** The runs are those of a 32-bit ARM build. *)
#[local] Existing Instance android_arm.

Lemma linux_os_restarted : linux os_restarted.
Proof.
  split; intros n; unfold valid_errno; simpl; try lia;
    destruct n as [|[|n]]; simpl; lia.
Qed.

Lemma linux_os_overloaded : linux os_overloaded.
Proof.
  split; intros n; unfold valid_errno; simpl; try lia;
    destruct n as [|[|n]]; simpl; lia.
Qed.

Lemma linux_os_refusing : linux os_refusing.
Proof. split; intros n; unfold valid_errno; simpl; lia. Qed.

(** ** C1: a run through the reconnect *)

Lemma reconnect_only_on_ENOTCONN_witness :
  let s := after_first_write os_restarted in
  let vec := text_vec 4 "tag" "hello" in
  linux os_restarted /\
  0 <= header_size /\
  uid_seen os_restarted s <> AID_LOGD /\
  0 <= logd_fd s /\
  rv (os_writev os_restarted (calls is_writev (trace s))) < 0 /\
  let first := os_writev os_restarted (calls is_writev (trace s)) in
  let res := fst (__write_to_log_kernel os_restarted LOG_ID_MAIN vec s) in
  let s' := snd (__write_to_log_kernel os_restarted LOG_ID_MAIN vec s) in
  if errno first =? ENOTCONN then
    calls is_socket (trace s') = S (calls is_socket (trace s)) /\
    if setup_result os_restarted (trace s) <? 0
    then calls is_writev (trace s') = S (calls is_writev (trace s)) /\
         res = setup_result os_restarted (trace s)
    else calls is_writev (trace s') = S (S (calls is_writev (trace s)))
  else
    res = - errno first /\
    calls is_socket (trace s') = calls is_socket (trace s) /\
    calls is_writev (trace s') = S (calls is_writev (trace s)) /\
    write_to_log s' = write_to_log s /\ logd_fd s' = logd_fd s.
Proof.
  intros s vec.
  assert (H1 : linux os_restarted) by exact linux_os_restarted.
  assert (H2 : 0 <= header_size) by by_eval.
  assert (H3 : uid_seen os_restarted s <> AID_LOGD) by by_eval.
  assert (H4 : 0 <= logd_fd s) by by_eval.
  assert (H5 : rv (os_writev os_restarted (calls is_writev (trace s))) < 0)
    by by_eval.
  repeat (split; [assumption|]).
  exact (reconnect_only_on_ENOTCONN os_restarted s LOG_ID_MAIN vec
           H1 H2 H3 H4 H5).
Defined.

(** That run: one [close], one new socket, the record sent again. *)
Example restarted_logd_gets_the_record :
  let s := after_first_write os_restarted in
  let r := __write_to_log_kernel os_restarted LOG_ID_MAIN
             (text_vec 4 "tag" "hello") s in
  fst r = 11 /\
  calls is_socket (trace (snd r)) = S (calls is_socket (trace s)) /\
  calls is_writev (trace (snd r)) = S (S (calls is_writev (trace s))).
Proof. vm_compute. repeat split; reflexivity. Qed.

(** With [EAGAIN] instead, the error comes straight back. *)
Example overloaded_logd_drops_the_record :
  let s := after_first_write os_overloaded in
  let r := __write_to_log_kernel os_overloaded LOG_ID_MAIN
             (text_vec 4 "tag" "hello") s in
  fst r = -11 /\
  calls is_socket (trace (snd r)) = calls is_socket (trace s) /\
  calls is_writev (trace (snd r)) = S (calls is_writev (trace s)).
Proof. vm_compute. repeat split; reflexivity. Qed.

(** ** C2: no logd at the first write *)

Lemma connect_failure_retried_on_next_write_witness :
  let s := initial_state in
  let vec := text_vec 4 "tag" "hello" in
  linux os_refusing /\
  write_to_log s = ptr__write_to_log_init /\
  0 <= rv (os_socket os_refusing (calls is_socket (trace s))) /\
  0 <= rv (os_fcntl os_refusing (calls is_fcntl (trace s))) /\
  rv (os_connect os_refusing (calls is_connect (trace s))) < 0 /\
  let r1 := call_write_to_log os_refusing LOG_ID_MAIN vec s in
  let s1 := snd r1 in
  fst r1 = - errno (os_connect os_refusing (calls is_connect (trace s))) /\
  write_to_log s1 = ptr__write_to_log_init /\
  logd_fd s1 < 0 /\
  forall (log_id' : log_id_t) (vec' : list iovec),
    let s2 := snd (call_write_to_log os_refusing log_id' vec' s1) in
    (calls is_socket (trace s1) < calls is_socket (trace s2))%nat /\
    (0 <= rv (os_socket os_refusing (calls is_socket (trace s1))) ->
     0 <= rv (os_fcntl os_refusing (calls is_fcntl (trace s1))) ->
     (calls is_connect (trace s1) < calls is_connect (trace s2))%nat).
Proof.
  intros s vec.
  assert (H1 : linux os_refusing) by exact linux_os_refusing.
  assert (H2 : write_to_log s = ptr__write_to_log_init) by reflexivity.
  assert (H3 : 0 <= rv (os_socket os_refusing (calls is_socket (trace s))))
    by by_eval.
  assert (H4 : 0 <= rv (os_fcntl os_refusing (calls is_fcntl (trace s))))
    by by_eval.
  assert (H5 : rv (os_connect os_refusing (calls is_connect (trace s))) < 0)
    by by_eval.
  repeat (split; [assumption|]).
  exact (connect_failure_retried_on_next_write os_refusing s LOG_ID_MAIN vec
           H1 H2 H3 H4 H5).
Defined.

(** The claim as the specification has it fails on that run: after the
    refused [connect] the pointer is not [__write_to_log_null], and the second
    write calls [socket] and [connect] again. *)
Lemma disabled_after_refused_connect_counterexample :
  let r1 := __android_log_write os_refusing 4 (Some "tag"%string) "one"
              initial_state in
  let r2 := __android_log_write os_refusing 4 (Some "tag"%string) "two"
              (snd r1) in
  fst r1 = -111 /\
  write_to_log (snd r1) <> ptr__write_to_log_null /\
  calls is_socket (trace (snd r2)) <> calls is_socket (trace (snd r1)) /\
  calls is_connect (trace (snd r2)) <> calls is_connect (trace (snd r1)).
Proof. vm_compute. repeat split; discriminate. Qed.

(** ** C3: four ranges that hold more than the limit *)

Lemma frame_builder_caps_payload_witness :
  let vec := four_ranges in
  let ts := (1400000000, 500) in
  (0 <= LOGGER_ENTRY_MAX_PAYLOAD <= SIZE_MAX) /\
  Forall range_ok vec /\
  let sent :=
    take (snd (build_frame LOG_ID_EVENTS 4464 ts vec))
         (fst (build_frame LOG_ID_EVENTS 4464 ts vec)) in
  (total_len vec <= LOGGER_ENTRY_MAX_PAYLOAD ->
   sent = map Some (header LOG_ID_EVENTS 4464 ts ++ vec)) /\
  (LOGGER_ENTRY_MAX_PAYLOAD < total_len vec ->
   exists (k : nat) (v : iovec),
     vec !! k = Some v /\
     total_len (take k vec) <= LOGGER_ENTRY_MAX_PAYLOAD
       < total_len (take (S k) vec) /\
     let cut := LOGGER_ENTRY_MAX_PAYLOAD - total_len (take k vec) in
     let payload :=
       take k vec ++
       (if cut =? 0 then []
        else [ {| iov_base := iov_base v; iov_len := cut |} ]) in
     sent = map Some (header LOG_ID_EVENTS 4464 ts ++ payload) /\
     total_len payload = LOGGER_ENTRY_MAX_PAYLOAD).
Proof.
  intros vec ts.
  assert (H1 : 0 <= LOGGER_ENTRY_MAX_PAYLOAD <= SIZE_MAX)
    by (simpl; lia).
  assert (H2 : Forall range_ok vec)
    by (repeat constructor; simpl; lia).
  split; [exact H1|]. split; [exact H2|].
  exact (frame_builder_caps_payload LOG_ID_EVENTS 4464 ts vec H1 H2).
Defined.

(** On those ranges: the third is cut to the two bytes that are left, the
    fourth is not sent. *)
Example four_ranges_sent :
  let r := build_frame LOG_ID_EVENTS 4464 (1400000000, 500) four_ranges in
  drop 3 (take (snd r) (fst r))
  = [ Some {| iov_base := obj_int32 1234; iov_len := 4 |};
      Some {| iov_base := obj_bytes []; iov_len := 4070 |};
      Some {| iov_base := obj_bytes []; iov_len := 2 |} ].
Proof. vm_compute. reflexivity. Qed.

(** A length that no range in memory has makes [payload_size] wrap around:
    the loop then copies everything. *)
Example payload_size_wraps :
  let vec := [ {| iov_base := obj_int32 1234; iov_len := 4 |};
               {| iov_base := obj_bytes []; iov_len := SIZE_MAX - 3 |} ] in
  let r := build_frame LOG_ID_EVENTS 4464 (1400000000, 500) vec in
  ~ Forall range_ok vec /\
  drop 3 (take (snd r) (fst r)) = map Some vec.
Proof.
  split; [| vm_compute; reflexivity].
  intros H. apply Forall_cons in H as [_ H]. apply Forall_cons in H as [H _].
  unfold range_ok in H. simpl in H. lia.
Qed.

(** ** C4: logd logging about itself *)

Lemma self_filter_before_channel_witness :
  let s := logd_after_drop in
  let vec := text_vec 4 "liblog" "hello" in
  AID_LOGD <> AID_ROOT /\
  last_uid s = AID_LOGD /\
  __write_to_log_kernel os_as_logd LOG_ID_MAIN vec s = (0, s) /\
  (write_to_log s = ptr__write_to_log_kernel ->
   call_write_to_log os_as_logd LOG_ID_MAIN vec s = (0, s)).
Proof.
  intros s vec.
  assert (H1 : AID_LOGD <> AID_ROOT) by (simpl; lia).
  assert (H2 : last_uid s = AID_LOGD) by (vm_compute; reflexivity).
  split; [exact H1|]. split; [exact H2|].
  exact (self_filter_before_channel os_as_logd s LOG_ID_MAIN vec H1 H2).
Defined.

(** ** C5: the frame of the retry *)

(** C5, on the code.  The tag range is cut to 4075 bytes and the message is
    dropped, so the first [writev] is given five ranges.  The second is
    given [nr + header_length = 6] elements of [newVec]: the same five, and
    [newVec[5]], which the loop never stored into.  The clock was read
    once. *)
Theorem retry_passes_unwritten_range :
  let s' := snd (__android_log_write os_gone_at_first_send 4 (Some long_tag)
                   "x" initial_state) in
  let frame :=
    map Some
      (header LOG_ID_MAIN 4464 (1400000000, 500) ++
       [ {| iov_base := obj_prio 4; iov_len := 1 |};
         {| iov_base := obj_cstr long_tag; iov_len := 4075 |} ]) in
  writev_frames (trace s') = [ frame; frame ++ [None] ] /\
  calls is_clock_gettime (trace s') = 1%nat.
Proof. vm_compute. split; reflexivity. Qed.

(** ** C6: three threads race the first record *)

Lemma racing_first_calls_settle_unless_refused_witness :
  let os := os_refusing in
  let s := initial_state in
  let racers := three_racers in
  linux os /\
  write_to_log s = ptr__write_to_log_init /\
  (forall k : nat,
     (k < length racers)%nat ->
     0 <= rv (os_socket os (calls is_socket (trace s) + k)) /\
     0 <= rv (os_fcntl os (calls is_fcntl (trace s) + k)) /\
     rv (os_connect os (calls is_connect (trace s) + k)) < 0) /\
  let s' := racing_first_calls os racers s in
  (rv (os_socket os (calls is_socket (trace s))) < 0 \/
   rv (os_fcntl os (calls is_fcntl (trace s))) < 0 \/
   0 <= rv (os_connect os (calls is_connect (trace s))) ->
   racers <> [] ->
   (write_to_log s' = ptr__write_to_log_kernel \/
    write_to_log s' = ptr__write_to_log_null) /\
   ((forall k : nat,
       rv (os_writev os k) < 0 -> errno (os_writev os k) <> ENOTCONN) ->
    calls is_socket (trace s') = S (calls is_socket (trace s)) /\
    write_to_log s'
    = (if setup_result os (trace s) <? 0 then ptr__write_to_log_null
       else ptr__write_to_log_kernel))) /\
  write_to_log s' = ptr__write_to_log_init /\
  calls is_socket (trace s')
  = (calls is_socket (trace s) + length racers)%nat /\
  calls is_fcntl (trace s')
  = (calls is_fcntl (trace s) + length racers)%nat /\
  calls is_connect (trace s')
  = (calls is_connect (trace s) + length racers)%nat.
Proof.
  intros os s racers.
  assert (H1 : linux os) by exact linux_os_refusing.
  assert (H2 : write_to_log s = ptr__write_to_log_init) by reflexivity.
  assert (H3 : forall k : nat,
             (k < length racers)%nat ->
             0 <= rv (os_socket os (calls is_socket (trace s) + k)) /\
             0 <= rv (os_fcntl os (calls is_fcntl (trace s) + k)) /\
             rv (os_connect os (calls is_connect (trace s) + k)) < 0)
    by (intros k _; simpl; lia).
  do 3 (split; [assumption|]).
  exact (conj
           (proj1 (racing_first_calls_settle_unless_refused os racers s
                     H1 H2))
           (proj2 (racing_first_calls_settle_unless_refused os racers s
                     H1 H2) H3)).
Defined.

(** The claim as the specification has it fails when logd does not listen:
    the three racers run three set-ups, and afterwards the pointer is
    neither [__write_to_log_kernel] nor [__write_to_log_null]. *)
Lemma one_setup_per_race_counterexample :
  let s' := racing_first_calls os_refusing three_racers initial_state in
  calls is_socket (trace s') = 3%nat /\
  calls is_connect (trace s') = 3%nat /\
  write_to_log s' <> ptr__write_to_log_kernel /\
  write_to_log s' <> ptr__write_to_log_null.
Proof. vm_compute. repeat split; discriminate. Qed.

(** With logd listening the first racer sets up and the other two send. *)
Example racers_share_one_setup :
  let s' := racing_first_calls os_as_root three_racers initial_state in
  calls is_socket (trace s') = 1%nat /\
  calls is_writev (trace s') = 3%nat /\
  write_to_log s' = ptr__write_to_log_kernel.
Proof. vm_compute. repeat split; reflexivity. Qed.

(** ** C7: reset before the first write *)

Lemma reset_is_idempotent_witness :
  let s := initial_state in
  let s' := snd (__android_log_close s) in
  write_to_log s = ptr__write_to_log_init /\ logd_fd s = -1 /\
  write_to_log s' = write_to_log s /\ logd_fd s' = logd_fd s /\
  last_uid s' = last_uid s /\
  trace s' = trace s ++ [EvClose (-1)] /\
  calls closes_descriptor (trace s') = calls closes_descriptor (trace s).
Proof.
  intros s s'.
  assert (H1 : write_to_log s = ptr__write_to_log_init) by reflexivity.
  assert (H2 : logd_fd s = -1) by reflexivity.
  split; [exact H1|]. split; [exact H2|].
  exact (proj1 (proj2 (reset_is_idempotent s)) H1 H2).
Defined.

(** Reset of an open channel, twice: the descriptor is closed once. *)
Example reset_twice_closes_once :
  let s := after_first_write os_as_root in
  let s'' := snd (__android_log_close (snd (__android_log_close s))) in
  logd_fd s = 3 /\
  trace s'' = trace s ++ [EvClose 3; EvClose (-1)].
Proof. vm_compute. split; reflexivity. Qed.

(** ** C8: radio tags *)

Lemma radio_tag_rerouted_witness :
  let tag := "RIL-foo"%string in
  let msg := "hello"%string in
  radio_tag tag = true /\
  let tmp_tag := ("use-Rlog/RLOG-" ++ substring 0 17 tag)%string in
  __android_log_write_args 4 (Some tag) msg
  = (LOG_ID_RADIO, text_vec 4 tmp_tag msg) /\
  __android_log_write os_restarted 4 (Some tag) msg
  = bind (if 4 =? ANDROID_LOG_FATAL then android_set_abort_message msg
          else ret tt)
         (fun _ => call_write_to_log os_restarted LOG_ID_RADIO
                     (text_vec 4 tmp_tag msg)) /\
  (forall bufID : log_id_t,
     bufID <> LOG_ID_RADIO ->
     __android_log_buf_write os_restarted bufID 4 (Some tag) msg
     = call_write_to_log os_restarted LOG_ID_RADIO
         (text_vec 4 tmp_tag msg)) /\
  __android_log_buf_write os_restarted LOG_ID_RADIO 4 (Some tag) msg
  = call_write_to_log os_restarted LOG_ID_RADIO (text_vec 4 tag msg) /\
  ((String.length tag <= 17)%nat ->
   tmp_tag = ("use-Rlog/RLOG-" ++ tag)%string).
Proof.
  intros tag msg.
  assert (H1 : radio_tag tag = true) by reflexivity.
  split; [exact H1|].
  exact (radio_tag_rerouted os_restarted 4 tag msg H1).
Defined.

(** "RIL-foo" becomes "use-Rlog/RLOG-RIL-foo" on [LOG_ID_RADIO]. *)
Example RIL_foo_rerouted :
  __android_log_write_args 4 (Some "RIL-foo"%string) "hello"
  = (LOG_ID_RADIO, text_vec 4 "use-Rlog/RLOG-RIL-foo" "hello").
Proof. reflexivity. Qed.

(** The claim as the specification has it fails for a radio tag of more than
    17 bytes: the rewritten tag is not the notice followed by the tag.  It
    also fails for "RIL-foo" written to the radio buffer, which keeps its
    tag. *)
Lemma long_radio_tag_counterexample :
  let tag := "RIL-0123456789abcdefgh"%string in
  radio_tag tag = true /\
  __android_log_write_args 4 (Some tag) "hello"
  <> (LOG_ID_RADIO, text_vec 4 ("use-Rlog/RLOG-" ++ tag) "hello") /\
  __android_log_write_args 4 (Some tag) "hello"
  = (LOG_ID_RADIO, text_vec 4 "use-Rlog/RLOG-RIL-0123456789abc" "hello") /\
  radio_tag "RIL-foo" = true /\
  __android_log_buf_write os_restarted LOG_ID_RADIO 4 (Some "RIL-foo"%string)
    "hello"
  = call_write_to_log os_restarted LOG_ID_RADIO
      (text_vec 4 "RIL-foo" "hello").
Proof.
  split; [reflexivity|]. split; [vm_compute; discriminate|].
  split; [reflexivity|]. split; reflexivity.
Qed.

(** ** C9: the cached uid *)

Lemma cached_uid_settles_once_not_root_witness :
  let s := after_first_write os_restarted in
  let cs := [ call_write 4 (Some "tag"%string) "hello"%string;
              call_close;
              call_bwrite 1234 [1; 2; 3] 3;
              call_bswrite 1234 "event"%string;
              call_buf_write LOG_ID_SYSTEM 4 None "again"%string ] in
  last_uid s <> AID_ROOT /\
  last_uid (run_calls os_restarted cs s) = last_uid s /\
  calls is_getuid (trace (run_calls os_restarted cs s))
  = calls is_getuid (trace s).
Proof.
  intros s cs.
  assert (H1 : last_uid s <> AID_ROOT) by by_eval.
  split; [exact H1|].
  exact (proj2 (proj2 (cached_uid_settles_once_not_root os_restarted))
           s cs H1).
Defined.

(** The claim as the specification has it fails for a process that runs as
    root: the initial value of [last_uid] is the uid of that process, and the
    second write asks for the uid again although the first had asked. *)
Lemma root_asks_again_counterexample :
  let s0 := initial_state in
  let s1 := snd (__android_log_write os_as_root 4 (Some "tag"%string) "one"
                   s0) in
  let s2 := snd (__android_log_write os_as_root 4 (Some "tag"%string) "two"
                   s1) in
  last_uid s0 = os_getuid os_as_root 0 /\
  calls is_getuid (trace s1) = 1%nat /\
  calls is_getuid (trace s2) = 2%nat.
Proof. vm_compute. repeat split; reflexivity. Qed.

(** ** C10: the value returned *)

Lemma header_not_counted_witness :
  let s := after_first_write os_restarted in
  let vec := text_vec 4 "tag" "hello" in
  linux os_restarted /\
  0 <= header_size /\
  uid_seen os_restarted s <> AID_LOGD /\
  0 <= logd_fd s /\
  fst (__write_to_log_kernel os_restarted LOG_ID_MAIN vec s) = 22 - 11.
Proof.
  intros s vec.
  assert (H1 : linux os_restarted) by exact linux_os_restarted.
  assert (H2 : 0 <= header_size) by by_eval.
  assert (H3 : uid_seen os_restarted s <> AID_LOGD) by by_eval.
  assert (H4 : 0 <= logd_fd s) by by_eval.
  repeat (split; [assumption|]).
  refine (proj2 (header_not_counted os_restarted s LOG_ID_MAIN vec
                   H1 H2 H3 H4) _ _ _ _).
  - by_eval.
  - vm_compute. reflexivity.
  - vm_compute. reflexivity.
  - by_eval.
Defined.

(** The first record of a process: 20 bytes written, 9 reported. *)
Example first_record_reports_payload_bytes :
  fst (__android_log_write os_restarted 4 (Some "init"%string) "up"
         initial_state) = 9.
Proof. vm_compute. reflexivity. Qed.

End ConcreteRuns.

(** * Properties of the rest of the file *)

(** ** Descriptors *)

Lemma fd_audit_snoc (tr : list event) (e : event) :
  fd_audit (tr ++ [e]) = fd_audit_step (fd_audit tr) e.
Proof. unfold fd_audit. rewrite foldl_app. reflexivity. Qed.

Lemma held_open (fd : Z) : 0 <= fd -> held fd = [fd].
Proof. intros H. unfold held. apply Z.leb_le in H. rewrite H. reflexivity. Qed.

Lemma held_none (fd : Z) : fd < 0 -> held fd = [].
Proof. intros H. unfold held. apply Z.leb_gt in H. rewrite H. reflexivity. Qed.

(** Closing the one descriptor that is held. *)
Lemma audit_close_held (fd : Z) (stray : nat) :
  0 <= fd ->
  fd_audit_step ([fd], stray) (EvClose fd) = ([], stray).
Proof.
  intros H. unfold fd_audit_step. apply Z.leb_le in H. rewrite H.
  cbn [fst snd existsb remove_fd]. rewrite Z.eqb_refl. reflexivity.
Qed.

Lemma audit_socket_ok (open : list Z) (stray : nat) (r : Z) :
  0 <= r -> fd_audit_step (open, stray) (EvSocket r) = (r :: open, stray).
Proof.
  intros H. unfold fd_audit_step. apply Z.leb_le in H. rewrite H. reflexivity.
Qed.

Lemma audit_socket_failed (a : list Z * nat) (r : Z) :
  r < 0 -> fd_audit_step a (EvSocket r) = a.
Proof.
  intros H. unfold fd_audit_step. apply Z.leb_gt in H. rewrite H. reflexivity.
Qed.

(** The other calls leave the descriptor table alone. *)
Lemma audit_getuid (a : list Z * nat) (uid : Z) :
  fd_audit_step a (EvGetuid uid) = a.
Proof. reflexivity. Qed.

Lemma audit_clock (a : list Z * nat) (ts : Z * Z) :
  fd_audit_step a (EvClockGettime ts) = a.
Proof. reflexivity. Qed.

Lemma audit_gettid (a : list Z * nat) (tid : Z) :
  fd_audit_step a (EvGettid tid) = a.
Proof. reflexivity. Qed.

Lemma audit_abort (a : list Z * nat) (msg : string) :
  fd_audit_step a (EvSetAbortMessage msg) = a.
Proof. reflexivity. Qed.

Lemma audit_fcntl (a : list Z * nat) (fd r : Z) :
  fd_audit_step a (EvFcntl fd r) = a.
Proof. reflexivity. Qed.

Lemma audit_connect (a : list Z * nat) (fd r : Z) :
  fd_audit_step a (EvConnect fd r) = a.
Proof. reflexivity. Qed.

Lemma audit_writev (a : list Z * nat) (fd : Z) (iov : list (option iovec))
    (r : Z) :
  fd_audit_step a (EvWritev fd iov r) = a.
Proof. reflexivity. Qed.

Lemma audit_close_none (a : list Z * nat) (fd : Z) :
  fd < 0 -> fd_audit_step a (EvClose fd) = a.
Proof.
  intros H. unfold fd_audit_step. apply Z.leb_gt in H. rewrite H. reflexivity.
Qed.

(** Rewrite the audit of a trace that ends in known events. *)
Ltac audit :=
  rewrite ?fd_audit_snoc in *;
  repeat first
    [ progress rewrite ?audit_getuid, ?audit_clock, ?audit_gettid,
        ?audit_abort, ?audit_fcntl, ?audit_connect, ?audit_writev in *
    | rewrite audit_close_held in * by lia
    | rewrite audit_close_none in * by lia
    | rewrite audit_socket_ok in * by lia
    | rewrite audit_socket_failed in * by lia ].

Section Descriptors.
Context `{P : platform} (os : OS).

(** One set-up: it closes the descriptor it finds, and ends with the new
    descriptor in [logd_fd] or with none open. *)
Lemma initialize_tidy (s : state) :
  fd_audit (trace s) = (held (logd_fd s), O) ->
  fd_audit (trace (snd (__write_to_log_initialize os s)))
  = (held (logd_fd (snd (__write_to_log_initialize os s))), O) /\
  (write_to_log (snd (__write_to_log_initialize os s)) = write_to_log s \/
   write_to_log (snd (__write_to_log_initialize os s))
   = ptr__write_to_log_null /\
   logd_fd (snd (__write_to_log_initialize os s)) < 0).
Proof.
  intros Ha. unfold __write_to_log_initialize. run.
  destruct (0 <=? logd_fd s) eqn:Hfd; run; count; props;
    [rewrite held_open in Ha by lia | rewrite held_none in Ha by lia];
    (destruct (rv (os_socket os (calls is_socket (trace s))) <? 0) eqn:Hs;
     run; count;
     [| destruct (rv (os_fcntl os (calls is_fcntl (trace s))) <? 0) eqn:Hf;
        run; count;
        [| destruct (rv (os_connect os (calls is_connect (trace s))) <? 0)
             eqn:Hc; run; count ] ]).
  all: props; rewrite ?fd_audit_snoc; rewrite ?Ha; audit.
  all: rewrite ?held_open by lia; rewrite ?held_none by lia.
  all: split;
    [reflexivity
    | first [left; reflexivity | right; split; [reflexivity | lia]]].
Qed.

Lemma kernel_tidy (s : state) (log_id : log_id_t) (vec : list iovec) :
  fd_audit (trace s) = (held (logd_fd s), O) ->
  let s' := snd (__write_to_log_kernel os log_id vec s) in
  fd_audit (trace s') = (held (logd_fd s'), O) /\
  (write_to_log s' = write_to_log s \/
   write_to_log s' = ptr__write_to_log_null /\ logd_fd s' < 0).
Proof.
  intros Ha s'. subst s'.
  destruct (__write_to_log_kernel os log_id vec s) as [res s'] eqn:Hk.
  unfold __write_to_log_kernel in Hk.
  repeat (run; count; first
    [ match type of Hk with
      | context [build_frame ?a ?b ?c ?d] =>
          destruct (build_frame a b c d) as [? ?] eqn:?
      end
    | match type of Hk with
      | context [__write_to_log_initialize ?o ?x] =>
          let Hi := fresh "Hinit" in
          pose proof (initialize_tidy x) as Hi;
          destruct (__write_to_log_initialize o x) as [? ?];
          cbn [fst snd] in Hi
      end
    | match type of Hk with
      | context [if ?b then _ else _] => destruct b eqn:?
      end ]).
  all: inversion Hk; subst; clear Hk.
  all: run; audit.
  all: try (specialize (Hinit Ha); destruct Hinit as [Hfd Hptr]).
  all: rewrite ?Ha; rewrite ?Hfd; split; [reflexivity | auto].
Qed.

Lemma tidy_intro (s : state) :
  fd_audit (trace s) = (held (logd_fd s), O) ->
  (write_to_log s <> ptr__write_to_log_kernel -> logd_fd s < 0) ->
  tidy s.
Proof. intros Ha Hidle. split; [rewrite Ha; reflexivity .. | exact Hidle]. Qed.

Lemma tidy_audit (s : state) :
  tidy s -> fd_audit (trace s) = (held (logd_fd s), O).
Proof.
  intros [Ho Hs _]. destruct (fd_audit (trace s)); simpl in *; congruence.
Qed.

Lemma tidy_initial : tidy initial_state.
Proof. apply tidy_intro; [reflexivity | intros _; simpl; lia]. Qed.

Lemma init_tidy (s : state) (log_id : log_id_t) (vec : list iovec) :
  write_to_log s = ptr__write_to_log_init ->
  tidy s -> tidy (snd (__write_to_log_init os log_id vec s)).
Proof.
  intros Hptr Ht. pose proof (tidy_audit s Ht) as Ha.
  unfold __write_to_log_init. run. rewrite Hptr.
  pose proof (initialize_tidy s Ha) as [Ha1 Hp1].
  pose proof (initialize_spec os s) as Hpost.
  destruct (__write_to_log_initialize os s) as [e s1]. cbn [fst snd] in *.
  destruct (e <? 0) eqn:He; props; run.
  - apply tidy_intro; [exact Ha1|].
    intros _. apply (init_failed _ _ _ _ Hpost He).
  - match goal with
    | |- context [__write_to_log_kernel os ?l ?v ?x] =>
        pose proof (kernel_tidy x l v) as Hk
    end.
    cbv zeta in Hk. run. specialize (Hk Ha1). destruct Hk as [Ha2 Hp2].
    apply tidy_intro; [exact Ha2|].
    intros Hne. destruct Hp2 as [Hp2 | [_ Hp2]]; [contradiction | exact Hp2].
Qed.

Lemma call_tidy (s : state) (log_id : log_id_t) (vec : list iovec) :
  tidy s -> tidy (snd (call_write_to_log os log_id vec s)).
Proof.
  intros Ht. unfold call_write_to_log. run.
  destruct (write_to_log s) eqn:Hptr.
  - apply init_tidy; assumption.
  - exact Ht.
  - pose proof (kernel_tidy s log_id vec (tidy_audit s Ht)) as Hk.
    cbv zeta in Hk. destruct Hk as [Ha2 Hp2].
    apply tidy_intro; [exact Ha2|].
    intros Hne. destruct Hp2 as [Hp2 | [_ Hp2]]; [congruence | exact Hp2].
Qed.

Lemma abort_message_tidy (s : state) (msg : string) :
  tidy s -> tidy (with_event (EvSetAbortMessage msg) s).
Proof.
  intros Ht. pose proof (tidy_audit s Ht) as Ha. destruct Ht as [_ _ Hidle].
  apply tidy_intro; run; [audit; exact Ha | exact Hidle].
Qed.

Lemma close_tidy (s : state) : tidy s -> tidy (snd (__android_log_close s)).
Proof.
  intros Ht. pose proof (tidy_audit s Ht) as Ha.
  unfold __android_log_close. run.
  destruct (Z.lt_ge_cases (logd_fd s) 0) as [Hneg | Hpos].
  - rewrite held_none in Ha by assumption.
    apply tidy_intro; run; [audit; rewrite Ha; reflexivity | intros _; lia].
  - rewrite held_open in Ha by assumption.
    apply tidy_intro; run; [| intros _; lia].
    rewrite fd_audit_snoc, Ha. audit. reflexivity.
Qed.

Lemma run_call_tidy (c : api_call) (s : state) :
  tidy s -> tidy (run_call os c s).
Proof.
  intros Ht. destruct c; unfold run_call.
  - unfold __android_log_write.
    destruct (__android_log_write_args prio tag msg) as [log_id vec]. run.
    destruct (prio =? ANDROID_LOG_FATAL); run; apply call_tidy;
      [apply abort_message_tidy|]; exact Ht.
  - unfold __android_log_buf_write.
    match goal with
    | |- context [if ?b then _ else _] => destruct b
    end; apply call_tidy; exact Ht.
  - apply call_tidy; exact Ht.
  - apply call_tidy; exact Ht.
  - apply call_tidy; exact Ht.
  - apply close_tidy; exact Ht.
Qed.

(** X1.  Whatever the process calls and whatever the kernel answers, after
    every call the only descriptor the library holds is the one in
    [logd_fd], it has closed no descriptor it did not hold, and it holds one
    only while [write_to_log] points to [__write_to_log_kernel]. *)
Theorem descriptors_never_leak (cs : list api_call) :
  tidy (run_calls os cs initial_state).
Proof.
  assert (H : forall s, tidy s -> tidy (run_calls os cs s)).
  { induction cs as [|c cs IH]; intros s Hs; [exact Hs|].
    simpl. apply IH. apply run_call_tidy. exact Hs. }
  apply H. apply tidy_initial.
Qed.

End Descriptors.

(** ** Writes that cannot reach the channel *)

Section Quiescent.
Context `{P : platform} (os : OS).

(** Every writing entry point is a call through [write_to_log], after at
    most a call of [android_set_abort_message]. *)
Lemma write_call_shape (c : api_call) (s : state) :
  is_write c ->
  exists (log_id : log_id_t) (vec : list iovec) (s0 : state),
    run_call os c s = snd (call_write_to_log os log_id vec s0) /\
    (s0 = s \/ exists msg, s0 = with_event (EvSetAbortMessage msg) s).
Proof.
  intros Hw. destruct c; try contradiction; unfold run_call.
  - unfold __android_log_write.
    destruct (__android_log_write_args prio tag msg) as [log_id vec]. run.
    destruct (prio =? ANDROID_LOG_FATAL); run; eauto 8.
  - unfold __android_log_buf_write.
    match goal with
    | |- context [if ?b then _ else _] => destruct b
    end; eauto 8.
  - unfold __android_log_bwrite. eauto 8.
  - unfold __android_log_btwrite. eauto 8.
  - unfold __android_log_bswrite. eauto 8.
Qed.

(** With [AID_LOGD] cached the function changes nothing. *)
Lemma kernel_filtered (s : state) (log_id : log_id_t) (vec : list iovec) :
  AID_LOGD <> AID_ROOT ->
  last_uid s = AID_LOGD ->
  __write_to_log_kernel os log_id vec s = (0, s).
Proof.
  intros Hne Hlogd. unfold __write_to_log_kernel. run. rewrite Hlogd.
  destruct (AID_LOGD =? AID_ROOT) eqn:Hroot; props; [contradiction|].
  run. rewrite Hlogd, Z.eqb_refl. reflexivity.
Qed.

(** Without a descriptor the function returns before it touches the
    channel: [-EBADF], or 0 when the process turns out to be logd. *)
Lemma kernel_without_descriptor (s : state) (log_id : log_id_t)
    (vec : list iovec) :
  logd_fd s < 0 ->
  let r := __write_to_log_kernel os log_id vec s in
  (if uid_seen os s =? AID_LOGD then fst r = 0 else fst r = - EBADF) /\
  write_to_log (snd r) = write_to_log s /\
  logd_fd (snd r) = logd_fd s /\
  calls is_socket (trace (snd r)) = calls is_socket (trace s) /\
  calls is_writev (trace (snd r)) = calls is_writev (trace s) /\
  calls is_close (trace (snd r)) = calls is_close (trace s).
Proof.
  intros Hfd r. subst r. unfold uid_seen.
  destruct (__write_to_log_kernel os log_id vec s) as [res s'] eqn:Hk.
  unfold __write_to_log_kernel in Hk.
  crack Hk.
  all: injection Hk as <- <-; run; count; props; try lia.
  all: repeat split; reflexivity.
Qed.

(** X2.  When [write_to_log] points to [__write_to_log_kernel] and no
    descriptor is installed, no sequence of writes brings the channel back:
    the pointer and [logd_fd] stay as they are and there is no [socket], no
    [writev] and no [close].  Only [__android_log_close] ends this. *)
Theorem no_descriptor_no_retry (cs : list api_call) :
  forall s : state,
    write_to_log s = ptr__write_to_log_kernel ->
    logd_fd s < 0 ->
    Forall is_write cs ->
    let s' := run_calls os cs s in
    write_to_log s' = ptr__write_to_log_kernel /\
    logd_fd s' = logd_fd s /\
    calls is_socket (trace s') = calls is_socket (trace s) /\
    calls is_writev (trace s') = calls is_writev (trace s) /\
    calls is_close (trace s') = calls is_close (trace s).
Proof.
  induction cs as [|c cs IH]; intros s Hptr Hfd Hcs;
    [repeat split; first [assumption | reflexivity]|].
  apply Forall_cons in Hcs as [Hc Hcs]. simpl.
  destruct (write_call_shape c s Hc) as (log_id & vec & s0 & Hrun & Hs0).
  assert (H0 : write_to_log s0 = write_to_log s /\ logd_fd s0 = logd_fd s /\
               calls is_socket (trace s0) = calls is_socket (trace s) /\
               calls is_writev (trace s0) = calls is_writev (trace s) /\
               calls is_close (trace s0) = calls is_close (trace s)).
  { destruct Hs0 as [-> | [msg ->]]; run; count; repeat split. }
  destruct H0 as (E1 & E2 & E3 & E4 & E5).
  assert (Hfd0 : logd_fd s0 < 0) by lia.
  pose proof (kernel_without_descriptor s0 log_id vec Hfd0) as Hk.
  cbv zeta in Hk. destruct Hk as (_ & K1 & K2 & K3 & K4 & K5).
  assert (Hcall : call_write_to_log os log_id vec s0
                  = __write_to_log_kernel os log_id vec s0).
  { unfold call_write_to_log. run. rewrite E1, Hptr. reflexivity. }
  rewrite Hrun, Hcall.
  destruct (IH (snd (__write_to_log_kernel os log_id vec s0)))
    as (I1 & I2 & I3 & I4 & I5); [congruence | lia | assumption |].
  cbv zeta in *. repeat split; congruence.
Qed.

(** X3.  While [write_to_log] points to [__write_to_log_null], no sequence
    of writes makes a system call on the channel or asks for the uid, and the
    three variables stay as they are. *)
Theorem disabled_is_silent (cs : list api_call) :
  forall s : state,
    write_to_log s = ptr__write_to_log_null ->
    Forall is_write cs ->
    let s' := run_calls os cs s in
    write_to_log s' = ptr__write_to_log_null /\
    logd_fd s' = logd_fd s /\
    last_uid s' = last_uid s /\
    calls is_socket (trace s') = calls is_socket (trace s) /\
    calls is_writev (trace s') = calls is_writev (trace s) /\
    calls is_close (trace s') = calls is_close (trace s) /\
    calls is_getuid (trace s') = calls is_getuid (trace s).
Proof.
  induction cs as [|c cs IH]; intros s Hptr Hcs;
    [repeat split; first [assumption | reflexivity]|].
  apply Forall_cons in Hcs as [Hc Hcs]. simpl.
  destruct (write_call_shape c s Hc) as (log_id & vec & s0 & Hrun & Hs0).
  assert (Hcall : call_write_to_log os log_id vec s0 = (-1, s0)).
  { unfold call_write_to_log. run.
    destruct Hs0 as [-> | [msg ->]]; run; rewrite Hptr; reflexivity. }
  rewrite Hrun, Hcall. cbn [snd].
  destruct (IH s0) as (I1 & I2 & I3 & I4 & I5 & I6 & I7);
    [destruct Hs0 as [-> | [msg ->]]; run; exact Hptr | assumption |].
  cbv zeta in *.
  destruct Hs0 as [-> | [msg ->]]; run; count; repeat split; congruence.
Qed.

(** X4.  logd never sends a record to itself: once [AID_LOGD] is cached, no
    sequence of calls, [__android_log_close] included, issues a [writev],
    and the cached uid stays. *)
Theorem logd_never_sends (cs : list api_call) :
  AID_LOGD <> AID_ROOT ->
  forall s : state,
    last_uid s = AID_LOGD ->
    let s' := run_calls os cs s in
    last_uid s' = AID_LOGD /\
    calls is_writev (trace s') = calls is_writev (trace s).
Proof.
  intros Hne.
  assert (Hkernel : forall s log_id vec,
             last_uid s = AID_LOGD ->
             last_uid (snd (call_write_to_log os log_id vec s)) = AID_LOGD /\
             calls is_writev (trace (snd (call_write_to_log os log_id vec s)))
             = calls is_writev (trace s)).
  { intros s log_id vec Hlogd.
    unfold call_write_to_log, __write_to_log_init, __write_to_log_null. run.
    destruct (write_to_log s) eqn:Hptr; run.
    - rewrite Hptr.
      pose proof (initialize_spec os s) as Hpost.
      destruct (__write_to_log_initialize os s) as [e s1].
      cbn [fst snd] in *.
      destruct Hpost
        as [Hres Hu Hso Hfc Hco Hcr Hwr Hgu Hck Hfl Hdn Hkp Hnl].
      destruct (e <? 0); run; [split; congruence|].
      rewrite kernel_filtered by (run; congruence). run.
      split; congruence.
    - split; [assumption | reflexivity].
    - rewrite kernel_filtered by assumption. split; [assumption|reflexivity].
  }
  induction cs as [|c cs IH]; intros s Hlogd;
    [split; [assumption | reflexivity]|].
  simpl.
  assert (Hstep : last_uid (run_call os c s) = AID_LOGD /\
                  calls is_writev (trace (run_call os c s))
                  = calls is_writev (trace s)).
  { destruct c.
    1-5: match goal with
         | |- context [run_call os ?c ?st] =>
             destruct (write_call_shape c st I)
               as (log_id & vec & s0 & Hrun & Hs0)
         end;
         rewrite Hrun;
         destruct (Hkernel s0 log_id vec) as [K1 K2];
         [destruct Hs0 as [-> | [m ->]]; run; exact Hlogd|];
         split; [exact K1|]; rewrite K2;
         destruct Hs0 as [-> | [m ->]]; run; count; reflexivity.
    unfold run_call, __android_log_close. run. count.
    split; [assumption | lia]. }
  destruct Hstep as [S1 S2].
  destruct (IH (run_call os c s) S1) as [I1 I2]. cbv zeta in *.
  split; congruence.
Qed.

End Quiescent.

(** ** What the first [writev] is given *)

Section FirstFrame.
Context `{P : platform}.

(** The loop stores into [newVec[i]] and above only, and leaves [i] at most
    one past the last element it stored into.  No assumption on the lengths
    of the ranges. *)
Lemma copy_payload_written (rest : list iovec) :
  forall (newVec : list (option iovec)) (acc : Z) (i : nat),
    (i + length rest <= length newVec)%nat ->
    Forall is_Some (take i newVec) ->
    let r := copy_payload rest newVec acc i in
    (i <= snd r <= i + length rest)%nat /\
    take i (fst r) = take i newVec /\
    Forall is_Some (take (snd r) (fst r)).
Proof.
  induction rest as [|v rest IH]; intros newVec acc i Hlen Hsome; cbv zeta.
  - simpl. repeat split; try lia. exact Hsome.
  - simpl in Hlen. simpl copy_payload.
    assert (Hi : (i < length newVec)%nat) by lia.
    assert (Hstore : forall (x : option iovec) (l : list (option iovec)),
               (i < length l)%nat ->
               take (S i) (<[i := x]> l) = take i l ++ [x]).
    { intros x l Hl.
      rewrite (take_S_r _ _ x) by (apply list_lookup_insert_eq; exact Hl).
      rewrite take_insert_ge by lia. reflexivity. }
    destruct (LOGGER_ENTRY_MAX_PAYLOAD <? size_t (acc + iov_len v)).
    + destruct (_ =? 0); cbn [fst snd].
      * repeat split; try (simpl; lia).
        -- rewrite !take_insert_ge by lia. reflexivity.
        -- rewrite !take_insert_ge by lia. exact Hsome.
      * repeat split; try (simpl; lia).
        -- rewrite !take_insert_ge by lia. reflexivity.
        -- rewrite Hstore by (rewrite length_insert; exact Hi).
           rewrite take_insert_ge by lia.
           apply Forall_app. split; [exact Hsome|].
           constructor; [eexists; reflexivity | constructor].
    + destruct (IH (<[i := Some v]> newVec) (size_t (acc + iov_len v)) (S i))
        as (Hrange & Hkeep & Hall).
      * rewrite length_insert. lia.
      * rewrite Hstore by exact Hi.
        apply Forall_app. split; [exact Hsome|].
        constructor; [eexists; reflexivity | constructor].
      * simpl in Hrange. repeat split; try (simpl; lia); [|exact Hall].
        apply (f_equal (take i)) in Hkeep.
        rewrite !take_take in Hkeep.
        replace (i `min` S i)%nat with i in Hkeep by lia.
        rewrite Hkeep. apply take_insert_ge. lia.
Qed.

(** The frame of the first [writev], whatever the caller passes: it starts
    with the three header ranges as they were stored, every element of it
    was stored into, and it has at most one element per caller range after
    the header. *)
Lemma build_frame_written (log_id : log_id_t) (tid : Z) (ts : Z * Z)
    (vec : list iovec) :
  let r := build_frame log_id tid ts vec in
  let f := take (snd r) (fst r) in
  take header_length f = map Some (header log_id tid ts) /\
  Forall is_Some f /\
  (header_length <= length f <= length vec + header_length)%nat.
Proof.
  intros r f. subst f r. unfold build_frame.
  set (newVec := store_header log_id tid ts
                   (replicate (length vec + header_length) None)).
  assert (Hnew : newVec
                 = map Some (header log_id tid ts)
                   ++ replicate (length vec) None).
  { subst newVec. unfold store_header. rewrite Nat.add_comm. reflexivity. }
  assert (Hlen : length newVec = (length vec + header_length)%nat).
  { rewrite Hnew, length_app, length_map, length_replicate. simpl.
    unfold header_length. lia. }
  destruct (copy_payload_written vec newVec 0 header_length)
    as (Hrange & Hkeep & Hall).
  - lia.
  - rewrite Hnew. simpl. repeat constructor; eexists; reflexivity.
  - pose proof (copy_payload_length vec newVec 0 header_length) as Hl.
    split; [|split].
    + rewrite take_take.
      replace (header_length `min` _)%nat with header_length by lia.
      rewrite Hkeep, Hnew. reflexivity.
    + exact Hall.
    + rewrite length_take, Hl, Hlen. lia.
Qed.

(** With ranges that lie in memory, the caller part of the frame holds at
    most [LOGGER_ENTRY_MAX_PAYLOAD] bytes. *)
Lemma capped_total (rest : list iovec) :
  forall acc : Z,
    Forall range_ok rest ->
    0 <= acc <= LOGGER_ENTRY_MAX_PAYLOAD ->
    0 <= total_len (capped acc rest) <= LOGGER_ENTRY_MAX_PAYLOAD - acc.
Proof.
  induction rest as [|v rest IH]; intros acc Hok Hacc; simpl; [lia|].
  apply Forall_cons in Hok as [Hv Hok]. unfold range_ok in Hv.
  destruct (LOGGER_ENTRY_MAX_PAYLOAD <? acc + iov_len v) eqn:Hgt; props.
  - destruct (LOGGER_ENTRY_MAX_PAYLOAD - acc =? 0) eqn:Hz; props; simpl; lia.
  - simpl. specialize (IH (acc + iov_len v) Hok). lia.
Qed.

Lemma frame_bytes_stored (l : list iovec) :
  frame_bytes (map Some l) = total_len l.
Proof. induction l as [|x l IH]; simpl; [reflexivity | rewrite IH; lia]. Qed.

Lemma build_frame_bytes (log_id : log_id_t) (tid : Z) (ts : Z * Z)
    (vec : list iovec) :
  0 <= LOGGER_ENTRY_MAX_PAYLOAD <= SIZE_MAX ->
  Forall range_ok vec ->
  let r := build_frame log_id tid ts vec in
  header_size <= frame_bytes (take (snd r) (fst r))
    <= header_size + LOGGER_ENTRY_MAX_PAYLOAD.
Proof.
  intros HM Hok r. subst r.
  rewrite (build_frame_capped log_id tid ts vec HM Hok).
  rewrite frame_bytes_stored, total_len_app.
  pose proof (capped_total vec 0 Hok ltac:(lia)) as Hcap.
  unfold header, header_size, total_len at 1. simpl. lia.
Qed.

End FirstFrame.

(** ** Sends on the active path *)

Lemma writev_frames_snoc (tr : list event) (e : event) :
  writev_frames (tr ++ [e])
  = writev_frames tr
    ++ match e with EvWritev _ iov _ => [iov] | _ => [] end.
Proof.
  induction tr as [|x tr IH]; simpl.
  - destruct e; reflexivity.
  - destruct x; rewrite IH; reflexivity.
Qed.

(** Normalize the frames of a trace that ends in known events. *)
Ltac frames :=
  rewrite ?writev_frames_snoc in *;
  cbn iota in *;
  rewrite ?app_nil_r in *.

Section ActiveSend.
Context `{P : platform} (os : OS).

(** The set-up sends nothing. *)
Lemma initialize_frames (s : state) :
  writev_frames (trace (snd (__write_to_log_initialize os s)))
  = writev_frames (trace s).
Proof.
  unfold __write_to_log_initialize. run.
  destruct (0 <=? logd_fd s); run; count;
    (destruct (rv (os_socket os (calls is_socket (trace s))) <? 0);
     run; count;
     [| destruct (rv (os_fcntl os (calls is_fcntl (trace s))) <? 0);
        run; count;
        [| destruct (rv (os_connect os (calls is_connect (trace s))) <? 0);
           run; count ] ]).
  all: frames; reflexivity.
Qed.

(** A set-up whose three calls succeed installs what [socket] returned. *)
Lemma initialize_installs (s : state) :
  0 <= rv (os_socket os (calls is_socket (trace s))) ->
  0 <= rv (os_fcntl os (calls is_fcntl (trace s))) ->
  0 <= rv (os_connect os (calls is_connect (trace s))) ->
  fst (__write_to_log_initialize os s) = 0 /\
  logd_fd (snd (__write_to_log_initialize os s))
  = rv (os_socket os (calls is_socket (trace s))) /\
  write_to_log (snd (__write_to_log_initialize os s)) = write_to_log s.
Proof.
  intros Hs Hf Hc. apply Z.ltb_ge in Hs, Hf, Hc.
  unfold __write_to_log_initialize. run.
  destruct (0 <=? logd_fd s); run; count; rewrite Hs; run; count;
    rewrite Hf; run; count; rewrite Hc; run; repeat split.
Qed.

(** As [crack], with what the set-up does to the frames as well. *)
Ltac crack_frames H :=
  repeat (run; count; first
    [ match type of H with
      | context [build_frame ?a ?b ?c ?d] =>
          destruct (build_frame a b c d) as [? ?] eqn:?
      end
    | match type of H with
      | context [__write_to_log_initialize ?o ?x] =>
          let Hi := fresh "Hinit" in
          let Hf := fresh "Hframes" in
          pose proof (initialize_spec o x) as Hi;
          pose proof (initialize_frames x) as Hf;
          destruct (__write_to_log_initialize o x) as [? ?];
          cbn [fst snd] in Hi, Hf
      end
    | match type of H with
      | context [if ?b then _ else _] => destruct b eqn:?
      end ]).

(** A call that passes the two tests at the top hands its first [writev]
    the frame [first_frame]. *)
Lemma kernel_sends (s : state) (log_id : log_id_t) (vec : list iovec) :
  uid_seen os s <> AID_LOGD -> 0 <= logd_fd s ->
  exists rest : list (list (option iovec)),
    writev_frames (trace (snd (__write_to_log_kernel os log_id vec s)))
    = writev_frames (trace s) ++ first_frame os s log_id vec :: rest.
Proof.
  intros Huid Hfd. unfold uid_seen in Huid. unfold first_frame.
  destruct (__write_to_log_kernel os log_id vec s) as [res s'] eqn:Hk.
  unfold __write_to_log_kernel in Hk.
  crack_frames Hk.
  all: inversion Hk; subst; clear Hk.
  all: props; try lia; try contradiction.
  all: run; frames.
  all: rewrite ?Hframes; run; frames.
  all: rewrite <- ?app_assoc; eexists; reflexivity.
Qed.

(** X5.  Every write that gets as far as the channel hands its first
    [writev] a frame that begins with the three header ranges (log id, thread
    id as a [uint16_t], time), holds only elements the code has stored into,
    and has at most one more element per caller range; this holds for any
    lengths the caller passes. *)
Theorem first_send_is_well_formed (s : state) (log_id : log_id_t)
    (vec : list iovec) :
  uid_seen os s <> AID_LOGD -> 0 <= logd_fd s ->
  let s' := snd (__write_to_log_kernel os log_id vec s) in
  let f := first_frame os s log_id vec in
  (exists rest : list (list (option iovec)),
     writev_frames (trace s') = writev_frames (trace s) ++ f :: rest) /\
  take header_length f = map Some (first_header os s log_id) /\
  Forall is_Some f /\
  (header_length <= length f <= length vec + header_length)%nat.
Proof.
  intros Huid Hfd s' f. subst s' f.
  split; [apply kernel_sends; assumption | apply build_frame_written].
Qed.

End ActiveSend.

(** ** Results and states of the write path *)

Section WritePath.
Context `{P : platform} (os : OS).

(** X6.  When the first [writev] succeeds and the kernel reports no more
    bytes than the frame holds, the value returned lies between 0 and
    [LOGGER_ENTRY_MAX_PAYLOAD]. *)
Theorem result_within_cap (s : state) (log_id : log_id_t)
    (vec : list iovec) :
  linux os ->
  0 <= LOGGER_ENTRY_MAX_PAYLOAD <= SIZE_MAX ->
  0 <= header_size <= LOGGER_ENTRY_MAX_PAYLOAD ->
  Forall range_ok vec ->
  uid_seen os s <> AID_LOGD -> 0 <= logd_fd s ->
  0 <= rv (os_writev os (calls is_writev (trace s)))
    <= frame_bytes (first_frame os s log_id vec) ->
  0 <= fst (__write_to_log_kernel os log_id vec s)
    <= LOGGER_ENTRY_MAX_PAYLOAD.
Proof.
  intros HL HM Hhdr Hok Huid Hfd Hrv. unfold uid_seen in Huid.
  pose proof (linux_writev_count os HL (calls is_writev (trace s))) as Hc.
  unfold first_frame in Hrv.
  pose proof (build_frame_bytes log_id
                (uint16_t (os_gettid os (calls is_gettid (trace s))))
                (os_clock_gettime os (calls is_clock_gettime (trace s)))
                vec HM Hok) as Hbytes.
  cbv zeta in Hbytes.
  destruct (__write_to_log_kernel os log_id vec s) as [res s'] eqn:Hk.
  unfold __write_to_log_kernel in Hk.
  crack Hk.
  all: inversion Hk; subst; clear Hk.
  all: props; try lia; try contradiction.
  all: cbn [fst snd] in *; rewrite to_int_id by lia; lia.
Qed.

(** X7.  A reconnect that fails: the error of the set-up is returned, no
    descriptor is left installed, and nothing is sent again.  When it
    failed at [connect], [write_to_log] stays as it was; when it failed
    at [socket] or [fcntl], [write_to_log] becomes
    [__write_to_log_null]. *)
Theorem failed_reconnect (s : state) (log_id : log_id_t)
    (vec : list iovec) :
  linux os ->
  uid_seen os s <> AID_LOGD -> 0 <= logd_fd s ->
  rv (os_writev os (calls is_writev (trace s))) < 0 ->
  errno (os_writev os (calls is_writev (trace s))) = ENOTCONN ->
  setup_result os (trace s) < 0 ->
  let r := __write_to_log_kernel os log_id vec s in
  fst r = setup_result os (trace s) /\
  logd_fd (snd r) < 0 /\
  calls is_writev (trace (snd r)) = S (calls is_writev (trace s)) /\
  (0 <= rv (os_socket os (calls is_socket (trace s))) ->
   0 <= rv (os_fcntl os (calls is_fcntl (trace s))) ->
   write_to_log (snd r) = write_to_log s) /\
  (rv (os_socket os (calls is_socket (trace s))) < 0 \/
   rv (os_fcntl os (calls is_fcntl (trace s))) < 0 ->
   write_to_log (snd r) = ptr__write_to_log_null).
Proof.
  intros HL Huid Hfd Hfail Herr Hsetup r. subst r. unfold uid_seen in Huid.
  pose proof (setup_result_bounds os (trace s) HL) as Hb.
  destruct (__write_to_log_kernel os log_id vec s) as [res s'] eqn:Hk.
  unfold __write_to_log_kernel in Hk.
  crack Hk.
  all: inversion Hk; subst; clear Hk.
  all: props; try lia; try contradiction.
  all: open_init; run; count;
    rewrite ?setup_result_snoc in Hres by reflexivity.
  all: try lia.
  all: rewrite to_int_id by lia.
  all: repeat split; try lia; auto.
Qed.

(** X8.  After [__android_log_close], whatever the state was, the next
    write runs the set-up: it calls [socket], and when the set-up fails it
    returns the error of the set-up.  This holds for a library that was
    disabled as well. *)
Theorem close_rearms (s : state) (log_id : log_id_t) (vec : list iovec) :
  let s1 := snd (__android_log_close s) in
  let r2 := call_write_to_log os log_id vec s1 in
  (calls is_socket (trace s1) < calls is_socket (trace (snd r2)))%nat /\
  (setup_result os (trace s1) < 0 -> fst r2 = setup_result os (trace s1)).
Proof.
  intros s1 r2. subst r2.
  assert (Hptr : write_to_log s1 = ptr__write_to_log_init) by reflexivity.
  unfold call_write_to_log, __write_to_log_init. run. rewrite Hptr. run.
  rewrite Hptr.
  pose proof (initialize_spec os s1) as Hpost.
  destruct (__write_to_log_initialize os s1) as [e s2]. cbn [fst snd] in *.
  destruct Hpost as [Hres Hu Hso Hfc Hco Hcr Hwr Hgu Hck Hfl Hdn Hkp Hnl].
  destruct (e <? 0) eqn:He; props; run.
  - split; [lia | intros _; exact Hres].
  - match goal with
    | |- context [__write_to_log_kernel os ?l ?v ?x] =>
        destruct (kernel_steady os x l v) as [K1 _ _]
    end.
    run. split; lia.
Qed.

(** X9.  The first write of a process that is not logd, when the three
    calls of the set-up and the [writev] succeed: [write_to_log] becomes
    [__write_to_log_kernel], [logd_fd] is what [socket] returned, there
    was one [socket], one [connect] and one [writev], and the value
    returned is the count of the [writev], less the header when it is
    larger than the header. *)
Theorem first_write_opens_channel (s : state) (log_id : log_id_t)
    (vec : list iovec) :
  linux os ->
  write_to_log s = ptr__write_to_log_init ->
  0 <= rv (os_socket os (calls is_socket (trace s))) ->
  0 <= rv (os_fcntl os (calls is_fcntl (trace s))) ->
  0 <= rv (os_connect os (calls is_connect (trace s))) ->
  uid_seen os s <> AID_LOGD ->
  0 <= header_size ->
  let n := rv (os_writev os (calls is_writev (trace s))) in
  0 <= n ->
  let r := call_write_to_log os log_id vec s in
  fst r = (if header_size <? n then n - header_size else n) /\
  write_to_log (snd r) = ptr__write_to_log_kernel /\
  logd_fd (snd r) = rv (os_socket os (calls is_socket (trace s))) /\
  calls is_socket (trace (snd r)) = S (calls is_socket (trace s)) /\
  calls is_connect (trace (snd r)) = S (calls is_connect (trace s)) /\
  calls is_writev (trace (snd r)) = S (calls is_writev (trace s)).
Proof.
  intros HL Hptr Hs Hf Hc Huid Hh n Hn r. subst r n. unfold uid_seen in Huid.
  pose proof (linux_writev_count os HL (calls is_writev (trace s))) as Hcnt.
  unfold call_write_to_log, __write_to_log_init. run. rewrite Hptr. run.
  rewrite Hptr.
  destruct (initialize_installs os s Hs Hf Hc) as (He & Hfd & Hkeep).
  pose proof (initialize_spec os s) as Hpost.
  destruct (__write_to_log_initialize os s) as [e s1]. cbn [fst snd] in *.
  destruct Hpost as [Hres Hu Hso Hfc Hco Hcr Hwr Hgu Hck Hfl Hdn Hkp Hnl].
  subst e. cbn [Z.ltb Z.compare]. run.
  match goal with
  | |- context [__write_to_log_kernel os ?l ?v ?x] =>
      destruct (__write_to_log_kernel os l v x) as [res s2] eqn:Hk
  end.
  unfold __write_to_log_kernel in Hk.
  crack Hk.
  all: inversion Hk; subst; clear Hk.
  all: rewrite ?Hu, ?Hgu, ?Hwr, ?Hck in *.
  all: props; try lia.
  all: try match goal with
       | H : last_uid _ = AID_ROOT |- _ =>
           rewrite H, Z.eqb_refl in Huid
       | H : last_uid _ <> AID_ROOT |- _ =>
           apply Z.eqb_neq in H; rewrite H in Huid
       end.
  all: try contradiction; try congruence.
  all: run; count; rewrite ?Hso, ?Hwr, ?(Hcr Hs Hf).
  all: cbn [fst snd]; rewrite ?to_int_id by lia.
  all: destruct (header_size <? _) eqn:Hcut; props; try lia.
  all: repeat split; try lia; try reflexivity; try assumption.
Qed.

End WritePath.

(** ** Records of the entry points on an open channel *)

Lemma substring_length (s : string) :
  forall n : nat, (String.length (substring 0 n s) <= n)%nat.
Proof.
  induction s as [|c s IH]; intros [|n]; simpl; try lia.
  specialize (IH n). lia.
Qed.

Lemma substring_shorter (s : string) :
  forall n : nat, (String.length (substring 0 n s) <= String.length s)%nat.
Proof.
  induction s as [|c s IH]; intros [|n]; simpl; try lia.
  specialize (IH n). lia.
Qed.

Lemma substring_substring (s : string) :
  forall m n : nat,
    (m <= n)%nat -> substring 0 m (substring 0 n s) = substring 0 m s.
Proof.
  induction s as [|c s IH]; intros [|m] [|n] Hmn; simpl; try reflexivity;
    try lia.
  rewrite IH by lia. reflexivity.
Qed.

Section OpenChannel.
Context `{P : platform} (os : OS).

Lemma call_sends (s : state) (log_id : log_id_t) (vec : list iovec) :
  channel_open os s ->
  exists rest : list (list (option iovec)),
    writev_frames (trace (snd (call_write_to_log os log_id vec s)))
    = writev_frames (trace s) ++ first_frame os s log_id vec :: rest.
Proof.
  intros [Hptr Hfd Huid].
  unfold call_write_to_log. run. rewrite Hptr.
  apply kernel_sends; assumption.
Qed.

(** Caller ranges that fit go out as they are, after the header. *)
Lemma first_frame_whole (s : state) (log_id : log_id_t) (vec : list iovec) :
  0 <= LOGGER_ENTRY_MAX_PAYLOAD <= SIZE_MAX ->
  Forall range_ok vec ->
  total_len vec <= LOGGER_ENTRY_MAX_PAYLOAD ->
  first_frame os s log_id vec = map Some (first_header os s log_id ++ vec).
Proof.
  intros HM Hok Hfit. unfold first_frame, first_header.
  rewrite (build_frame_capped _ _ _ vec HM Hok).
  rewrite capped_within by (try assumption; lia). reflexivity.
Qed.

(** A call of [android_set_abort_message] in front changes neither the
    frame nor whether the channel is open. *)
Lemma abort_message_open (s : state) (msg : string) :
  channel_open os s -> channel_open os (with_event (EvSetAbortMessage msg) s).
Proof.
  intros [Hptr Hfd Huid]. split; run; try assumption.
  unfold uid_seen in *. run. count. exact Huid.
Qed.

Lemma abort_message_frame (s : state) (msg : string) (log_id : log_id_t)
    (vec : list iovec) :
  first_frame os (with_event (EvSetAbortMessage msg) s) log_id vec
  = first_frame os s log_id vec.
Proof. unfold first_frame. run. count. reflexivity. Qed.

(** A text record that fits is sent whole. *)
Lemma text_record_sent (s : state) (log_id : log_id_t) (prio : Z)
    (tag msg : string) :
  channel_open os s ->
  0 <= LOGGER_ENTRY_MAX_PAYLOAD -> 2 * LOGGER_ENTRY_MAX_PAYLOAD <= SIZE_MAX ->
  strlen tag + strlen msg + 3 <= LOGGER_ENTRY_MAX_PAYLOAD ->
  exists rest : list (list (option iovec)),
    writev_frames
      (trace (snd (call_write_to_log os log_id (text_vec prio tag msg) s)))
    = writev_frames (trace s)
      ++ map Some (first_header os s log_id ++ text_vec prio tag msg) :: rest.
Proof.
  intros Hopen HM HS Hfit.
  destruct (call_sends s log_id (text_vec prio tag msg) Hopen) as [rest Hr].
  exists rest. rewrite Hr. rewrite first_frame_whole; try reflexivity;
    try lia.
  - unfold text_vec, range_ok, strlen in *. repeat constructor; simpl; lia.
  - unfold text_vec, total_len, strlen in *. simpl. lia.
Qed.

End OpenChannel.

Section FormattedProofs.
Context `{P : platform} `{L : priorities} (os : OS).

(** The tag the text entry points pass on is at most 14 bytes longer than
    the tag they were given. *)
Lemma tmp_tag_length (tag : string) :
  strlen (snprintf_s 32 "use-Rlog/RLOG-" tag) <= strlen tag + 14.
Proof.
  rewrite tmp_tag_contents. unfold strlen. simpl String.length.
  pose proof (substring_shorter tag 17). lia.
Qed.

Lemma vsnprintf_length (expansion : string) :
  strlen (vsnprintf LOG_BUF_SIZE expansion) <= 1023.
Proof.
  unfold vsnprintf, strlen, LOG_BUF_SIZE.
  pose proof (substring_length expansion (1024 - 1)). lia.
Qed.

(** A record of [__android_log_write] whose tag and message fit is sent
    whole, with the log id and the tag of [__android_log_write_args]. *)
Lemma write_sent (s : state) (prio : Z) (tag : option string)
    (msg : string) :
  channel_open os s ->
  0 <= LOGGER_ENTRY_MAX_PAYLOAD -> 2 * LOGGER_ENTRY_MAX_PAYLOAD <= SIZE_MAX ->
  strlen (default EmptyString tag) + strlen msg + 17
    <= LOGGER_ENTRY_MAX_PAYLOAD ->
  exists rest : list (list (option iovec)),
    writev_frames (trace (snd (__android_log_write os prio tag msg s)))
    = writev_frames (trace s)
      ++ map Some
           (first_header os s (fst (__android_log_write_args prio tag msg))
            ++ snd (__android_log_write_args prio tag msg)) :: rest.
Proof.
  intros Hopen HM HS Hfit.
  unfold __android_log_write, __android_log_write_args.
  assert (Htag : match tag with Some t => t | None => EmptyString end
                 = default EmptyString tag) by (destruct tag; reflexivity).
  rewrite Htag. set (t := default EmptyString tag) in *.
  pose proof (tmp_tag_length t) as Htmp.
  destruct (radio_tag t); cbn [fst snd]; run.
  all: destruct (prio =? ANDROID_LOG_FATAL); run.
  all: match goal with
       | |- context [call_write_to_log os ?l (text_vec ?p ?g ?m) ?st] =>
           destruct (text_record_sent os st l p g m) as [rest Hr];
           [first [assumption | apply abort_message_open; assumption]
           | lia | lia | lia |];
           exists rest; rewrite Hr
       end.
  all: run; frames; try reflexivity.
  all: unfold first_header; run; count; reflexivity.
Qed.

(** X10.  On an open channel, [__android_log_print] and
    [__android_log_vprint] send the first 1023 bytes of the expansion of
    the format as the message, and a record whose tag has at most
    [LOGGER_ENTRY_MAX_PAYLOAD - 1040] bytes goes out whole: header,
    priority, tag, message. *)
Theorem formatted_record_sent_whole (s : state) (prio : Z)
    (tag : option string) (expansion : string) :
  channel_open os s ->
  0 <= LOGGER_ENTRY_MAX_PAYLOAD -> 2 * LOGGER_ENTRY_MAX_PAYLOAD <= SIZE_MAX ->
  strlen (default EmptyString tag) + 1040 <= LOGGER_ENTRY_MAX_PAYLOAD ->
  let msg := substring 0 1023 expansion in
  let log_id := fst (__android_log_write_args prio tag msg) in
  let vec := snd (__android_log_write_args prio tag msg) in
  strlen msg <= 1023 /\
  (exists rest : list (list (option iovec)),
     writev_frames (trace (snd (__android_log_print os prio tag expansion s)))
     = writev_frames (trace s)
       ++ map Some (first_header os s log_id ++ vec) :: rest) /\
  (exists rest : list (list (option iovec)),
     writev_frames
       (trace (snd (__android_log_vprint os prio tag expansion s)))
     = writev_frames (trace s)
       ++ map Some (first_header os s log_id ++ vec) :: rest).
Proof.
  intros Hopen HM HS Hfit msg log_id vec. subst msg log_id vec.
  pose proof (vsnprintf_length expansion) as Hmsg.
  split; [exact Hmsg|].
  split; apply (write_sent s prio tag (vsnprintf LOG_BUF_SIZE expansion));
    try assumption; lia.
Qed.

(** The same for [__android_log_buf_write]. *)
Lemma buf_write_sent (s : state) (bufID : log_id_t) (prio : Z)
    (tag : option string) (msg : string) :
  channel_open os s ->
  0 <= LOGGER_ENTRY_MAX_PAYLOAD -> 2 * LOGGER_ENTRY_MAX_PAYLOAD <= SIZE_MAX ->
  strlen (default EmptyString tag) + strlen msg + 17
    <= LOGGER_ENTRY_MAX_PAYLOAD ->
  let t := default EmptyString tag in
  let reroute :=
    (match bufID with LOG_ID_RADIO => false | _ => true end)
    && radio_tag t in
  let log_id := if reroute then LOG_ID_RADIO else bufID in
  let tag' :=
    if reroute then ("use-Rlog/RLOG-" ++ substring 0 17 t)%string else t in
  exists rest : list (list (option iovec)),
    writev_frames
      (trace (snd (__android_log_buf_write os bufID prio tag msg s)))
    = writev_frames (trace s)
      ++ map Some (first_header os s log_id ++ text_vec prio tag' msg)
         :: rest.
Proof.
  intros Hopen HM HS Hfit t reroute log_id tag'.
  subst log_id tag' reroute.
  unfold __android_log_buf_write.
  assert (Htag : match tag with Some t => t | None => EmptyString end = t)
    by (destruct tag; reflexivity).
  rewrite Htag.
  pose proof (tmp_tag_length t) as Htmp. rewrite tmp_tag_contents in *.
  destruct (_ && radio_tag t).
  all: apply text_record_sent; try assumption; subst t; lia.
Qed.

(** X11.  The same for [__android_log_buf_print]: the record goes to the
    buffer it was addressed to, or to [LOG_ID_RADIO] with the rewritten tag
    when it was addressed elsewhere and the tag passes the radio test. *)
Theorem formatted_buf_record_sent_whole (s : state) (bufID : log_id_t)
    (prio : Z) (tag : option string) (expansion : string) :
  channel_open os s ->
  0 <= LOGGER_ENTRY_MAX_PAYLOAD -> 2 * LOGGER_ENTRY_MAX_PAYLOAD <= SIZE_MAX ->
  strlen (default EmptyString tag) + 1040 <= LOGGER_ENTRY_MAX_PAYLOAD ->
  let t := default EmptyString tag in
  let msg := substring 0 1023 expansion in
  let reroute :=
    (match bufID with LOG_ID_RADIO => false | _ => true end)
    && radio_tag t in
  let log_id := if reroute then LOG_ID_RADIO else bufID in
  let tag' :=
    if reroute then ("use-Rlog/RLOG-" ++ substring 0 17 t)%string else t in
  exists rest : list (list (option iovec)),
    writev_frames
      (trace (snd (__android_log_buf_print os bufID prio tag expansion s)))
    = writev_frames (trace s)
      ++ map Some (first_header os s log_id ++ text_vec prio tag' msg)
         :: rest.
Proof.
  intros Hopen HM HS Hfit.
  pose proof (vsnprintf_length expansion) as Hmsg.
  apply (buf_write_sent s bufID prio tag (vsnprintf LOG_BUF_SIZE expansion));
    try assumption; lia.
Qed.

(** The tag that [lab126_log_write] builds never passes the radio test. *)
Lemma AMZ_tag_is_not_radio_tag (tag : string) :
  radio_tag (snprintf_s 128 "AMZ-" tag) = false.
Proof. reflexivity. Qed.

(** X12.  [lab126_log_write] ([AMAZON_LOG]) drops a record whose tag starts
    with "Sensors" or "qcom_se": it returns 0 and the state is as it was.
    Every other record goes to [LOG_ID_MAIN] with priority
    [ANDROID_LOG_DEBUG], whatever buffer and priority the caller named, and
    with the tag "AMZ-" followed by the first 123 bytes of the caller's tag;
    the radio rule of [__android_log_buf_write] never applies to it. *)
Theorem lab126_record (s : state) (bufID prio : Z) (tag : option string)
    (expansion : string) :
  channel_open os s ->
  0 <= LOGGER_ENTRY_MAX_PAYLOAD -> 2 * LOGGER_ENTRY_MAX_PAYLOAD <= SIZE_MAX ->
  1153 <= LOGGER_ENTRY_MAX_PAYLOAD ->
  let t := default EmptyString tag in
  let r := lab126_log_write os bufID prio tag expansion s in
  if strncmp_eq t "Sensors" 7 || strncmp_eq t "qcom_se" 7 then r = (0, s)
  else
    exists rest : list (list (option iovec)),
      writev_frames (trace (snd r))
      = writev_frames (trace s)
        ++ map Some
             (first_header os s LOG_ID_MAIN
              ++ text_vec ANDROID_LOG_DEBUG
                   ("AMZ-" ++ substring 0 123 t)
                   (substring 0 1023 expansion)) :: rest.
Proof.
  intros Hopen HM HS Hfit t r. subst r. unfold lab126_log_write.
  assert (Htag : match tag with Some t => t | None => EmptyString end = t)
    by (destruct tag; reflexivity).
  rewrite Htag.
  destruct (strncmp_eq t "Sensors" 7 || strncmp_eq t "qcom_se" 7);
    [reflexivity|].
  unfold __android_log_buf_write. cbn [andb].
  rewrite AMZ_tag_is_not_radio_tag.
  pose proof (vsnprintf_length expansion) as Hmsg.
  assert (Hlen : strlen (snprintf_s 128 "AMZ-" t) <= 127).
  { unfold snprintf_s, strlen.
    pose proof (substring_length ("AMZ-" ++ t) (128 - 1)). lia. }
  apply (text_record_sent os s LOG_ID_MAIN ANDROID_LOG_DEBUG
           (snprintf_s 128 "AMZ-" t) (vsnprintf LOG_BUF_SIZE expansion));
    try assumption; lia.
Qed.

End FormattedProofs.

(** ** [__android_log_assert] *)

Section Extends.
Context `{P : platform} (os : OS).

(** The library appends to the trace; it never rewrites it. *)
Lemma initialize_extends (s : state) :
  exists rest : list event,
    trace (snd (__write_to_log_initialize os s)) = trace s ++ rest.
Proof.
  unfold __write_to_log_initialize. run.
  destruct (0 <=? logd_fd s); run; count;
    (destruct (rv (os_socket os (calls is_socket (trace s))) <? 0);
     run; count;
     [| destruct (rv (os_fcntl os (calls is_fcntl (trace s))) <? 0);
        run; count;
        [| destruct (rv (os_connect os (calls is_connect (trace s))) <? 0);
           run; count ] ]).
  all: rewrite <- ?app_assoc; eexists; reflexivity.
Qed.

Lemma kernel_extends (s : state) (log_id : log_id_t) (vec : list iovec) :
  exists rest : list event,
    trace (snd (__write_to_log_kernel os log_id vec s)) = trace s ++ rest.
Proof.
  destruct (__write_to_log_kernel os log_id vec s) as [res s'] eqn:Hk.
  unfold __write_to_log_kernel in Hk.
  repeat (run; count; first
    [ match type of Hk with
      | context [build_frame ?a ?b ?c ?d] =>
          destruct (build_frame a b c d) as [? ?] eqn:?
      end
    | match type of Hk with
      | context [__write_to_log_initialize ?o ?x] =>
          let He := fresh "Hext" in
          destruct (initialize_extends x) as [? He];
          destruct (__write_to_log_initialize o x) as [? ?];
          cbn [fst snd] in He
      end
    | match type of Hk with
      | context [if ?b then _ else _] => destruct b eqn:?
      end ]).
  all: inversion Hk; subst; clear Hk; run.
  all: rewrite ?Hext; run.
  all: first [ exists []; rewrite app_nil_r; reflexivity
             | rewrite <- ?app_assoc; eexists; reflexivity ].
Qed.

Lemma call_extends (s : state) (log_id : log_id_t) (vec : list iovec) :
  exists rest : list event,
    trace (snd (call_write_to_log os log_id vec s)) = trace s ++ rest.
Proof.
  unfold call_write_to_log, __write_to_log_init, __write_to_log_null. run.
  destruct (write_to_log s) eqn:Hptr; run.
  - rewrite Hptr.
    destruct (initialize_extends s) as [r1 H1].
    destruct (__write_to_log_initialize os s) as [e s1]. cbn [fst snd] in *.
    destruct (e <? 0); run; [eauto|].
    match goal with
    | |- context [__write_to_log_kernel os ?l ?v ?x] =>
        destruct (kernel_extends x l v) as [r2 H2]
    end.
    rewrite H2. run. rewrite H1, <- app_assoc. eauto.
  - exists []. rewrite app_nil_r. reflexivity.
  - apply kernel_extends.
Qed.

End Extends.

Section AssertProofs.
Context `{P : platform} `{L : priorities} (os : OS).

Lemma assert_trace (s : state) (cond tag fmt : option string) :
  exists rest : list event,
    trace (snd (__android_log_assert os cond tag fmt s))
    = trace s ++ EvSetAbortMessage (assert_message cond fmt) :: rest.
Proof.
  unfold __android_log_assert, __android_log_write. run.
  destruct (__android_log_write_args ANDROID_LOG_FATAL tag
              (assert_message cond fmt)) as [log_id vec].
  run. rewrite Z.eqb_refl. run.
  match goal with
  | |- context [call_write_to_log os ?l ?v ?x] =>
      destruct (call_extends os x l v) as [rest Hr];
      destruct (call_write_to_log os l v x) as [r s']
  end.
  run. exists rest. rewrite Hr. rewrite <- app_assoc. reflexivity.
Qed.

Lemma assert_message_length (cond fmt : option string) :
  strlen (assert_message cond fmt) <= 1023.
Proof.
  unfold assert_message. destruct fmt as [e|].
  - apply vsnprintf_length.
  - destruct cond as [c|]; [|unfold strlen; simpl; lia].
    unfold snprintf_s, strlen, LOG_BUF_SIZE.
    pose proof (substring_length ("Assertion failed: " ++ c) (1024 - 1)).
    lia.
Qed.

(** X13.  [__android_log_assert] hands its message to
    [android_set_abort_message] before it does anything for the record, in
    every state of the library, a disabled one included.  The message has at
    most 1023 bytes; it is the expansion of the format when there is one,
    else "Assertion failed: " with the condition, else a fixed text. *)
Theorem assert_sets_abort_message_first (s : state)
    (cond tag fmt : option string) :
  let m := assert_message cond fmt in
  (exists rest : list event,
     trace (snd (__android_log_assert os cond tag fmt s))
     = trace s ++ EvSetAbortMessage m :: rest) /\
  strlen m <= 1023 /\
  m = match fmt, cond with
      | Some expansion, _ => substring 0 1023 expansion
      | None, Some c => substring 0 1023 ("Assertion failed: " ++ c)
      | None, None => "Unspecified assertion failed"%string
      end.
Proof.
  intros m. split; [apply assert_trace|].
  split; [apply assert_message_length|].
  subst m. unfold assert_message. destruct fmt, cond; reflexivity.
Qed.

(** X14.  On an open channel the record of [__android_log_assert] has
    priority [ANDROID_LOG_FATAL] and carries the text that was handed to
    [android_set_abort_message]; with a tag of at most
    [LOGGER_ENTRY_MAX_PAYLOAD - 1040] bytes it goes out whole. *)
Theorem assert_record_is_fatal (s : state) (cond tag fmt : option string) :
  channel_open os s ->
  0 <= LOGGER_ENTRY_MAX_PAYLOAD -> 2 * LOGGER_ENTRY_MAX_PAYLOAD <= SIZE_MAX ->
  strlen (default EmptyString tag) + 1040 <= LOGGER_ENTRY_MAX_PAYLOAD ->
  let m := assert_message cond fmt in
  let args := __android_log_write_args ANDROID_LOG_FATAL tag m in
  let s' := snd (__android_log_assert os cond tag fmt s) in
  (exists (rest : list (list (option iovec))) (tag' : string),
     snd args = text_vec ANDROID_LOG_FATAL tag' m /\
     writev_frames (trace s')
     = writev_frames (trace s)
       ++ map Some (first_header os s (fst args) ++ snd args) :: rest) /\
  In (EvSetAbortMessage m) (trace s').
Proof.
  intros Hopen HM HS Hfit m args s'. subst args s'.
  pose proof (assert_message_length cond fmt) as Hlen. fold m in Hlen.
  split.
  - destruct (write_sent os s ANDROID_LOG_FATAL tag m) as [rest Hr];
      try assumption; [lia|].
    exists rest.
    assert (Hvec : exists tag',
               snd (__android_log_write_args ANDROID_LOG_FATAL tag m)
               = text_vec ANDROID_LOG_FATAL tag' m).
    { unfold __android_log_write_args. destruct (radio_tag _); eauto. }
    destruct Hvec as [tag' Hvec]. exists tag'. split; [exact Hvec|].
    unfold __android_log_assert. run. fold m.
    destruct (__android_log_write os ANDROID_LOG_FATAL tag m s)
      as [r s'].
    exact Hr.
  - destruct (assert_trace s cond tag fmt) as (rest & Hr).
    rewrite Hr. apply in_or_app. right. left. reflexivity.
Qed.

End AssertProofs.

(** ** Binary entry points *)

Section BinaryProofs.
Context `{P : platform} (os : OS).

(** X15.  On an open channel [__android_log_bwrite] and
    [__android_log_btwrite] send a payload of [len] bytes whole when it
    fits with the tag (and the type byte); [__android_log_btwrite] differs
    by the one-byte range of the type between tag and payload. *)
Theorem binary_record_sent_whole (s : state) (tag type : Z)
    (payload : list Z) (len : Z) :
  channel_open os s ->
  0 <= LOGGER_ENTRY_MAX_PAYLOAD -> 2 * LOGGER_ENTRY_MAX_PAYLOAD <= SIZE_MAX ->
  0 <= len -> len + 5 <= LOGGER_ENTRY_MAX_PAYLOAD ->
  let tag_range := {| iov_base := obj_int32 tag; iov_len := 4 |} in
  let type_range := {| iov_base := obj_char type; iov_len := 1 |} in
  let data := {| iov_base := obj_bytes payload; iov_len := len |} in
  let hdr := first_header os s LOG_ID_EVENTS in
  (exists rest : list (list (option iovec)),
     writev_frames (trace (snd (__android_log_bwrite os tag payload len s)))
     = writev_frames (trace s)
       ++ map Some (hdr ++ [tag_range; data]) :: rest) /\
  (exists rest : list (list (option iovec)),
     writev_frames
       (trace (snd (__android_log_btwrite os tag type payload len s)))
     = writev_frames (trace s)
       ++ map Some (hdr ++ [tag_range; type_range; data]) :: rest).
Proof.
  intros Hopen HM HS Hlen Hfit tag_range type_range data hdr.
  subst tag_range type_range data hdr.
  unfold __android_log_bwrite, __android_log_btwrite.
  split.
  all: match goal with
       | |- context [call_write_to_log os ?l ?v ?x] =>
           destruct (call_sends os x l v Hopen) as [rest Hr];
           exists rest; rewrite Hr;
           rewrite (first_frame_whole os x l v); [reflexivity | lia | |]
       end.
  all: first [ repeat constructor; unfold range_ok; simpl; lia
             | unfold total_len; simpl; lia ].
Qed.

(** X16.  [__android_log_bswrite] on an open channel: the record is the
    tag, the type byte [EVENT_TYPE_STRING], a four-byte length and the string
    without its NUL.  The length range always says [strlen(payload)]; the
    string range is cut to [LOGGER_ENTRY_MAX_PAYLOAD - 9] bytes when the
    string is longer than that, and the length is not adjusted. *)
Theorem bswrite_length_not_adjusted (s : state) (tag : Z)
    (payload : string) :
  channel_open os s ->
  9 < LOGGER_ENTRY_MAX_PAYLOAD -> 2 * LOGGER_ENTRY_MAX_PAYLOAD <= SIZE_MAX ->
  strlen payload + LOGGER_ENTRY_MAX_PAYLOAD <= SIZE_MAX ->
  strlen payload < 2 ^ 32 ->
  let len := strlen payload in
  exists rest : list (list (option iovec)),
    writev_frames (trace (snd (__android_log_bswrite os tag payload s)))
    = writev_frames (trace s)
      ++ map Some
           (first_header os s LOG_ID_EVENTS
            ++ [ {| iov_base := obj_int32 tag; iov_len := 4 |};
                 {| iov_base := obj_char EVENT_TYPE_STRING; iov_len := 1 |};
                 {| iov_base := obj_int32 len; iov_len := 4 |};
                 {| iov_base := obj_cstr payload;
                    iov_len := Z.min len (LOGGER_ENTRY_MAX_PAYLOAD - 9) |} ])
         :: rest.
Proof.
  intros Hopen HM HS Hpay H32 len.
  assert (Hlen : 0 <= len) by (subst len; unfold strlen; lia).
  unfold __android_log_bswrite.
  assert (Hu : uint32_t (strlen payload) = len).
  { unfold uint32_t. apply Z.mod_small. fold len. lia. }
  rewrite Hu.
  match goal with
  | |- context [call_write_to_log os ?l ?v ?x] =>
      destruct (call_sends os x l v Hopen) as [rest Hr];
      exists rest; rewrite Hr
  end.
  unfold first_frame, first_header.
  rewrite build_frame_capped;
    [| lia | repeat constructor; unfold range_ok; simpl; lia].
  do 3 f_equal. cbn [capped iov_len iov_base].
  repeat match goal with
         | |- context [LOGGER_ENTRY_MAX_PAYLOAD <? ?x] =>
             destruct (LOGGER_ENTRY_MAX_PAYLOAD <? x) eqn:?; props; try lia
         end.
  - destruct (_ =? 0) eqn:Hz; props; [lia|].
    rewrite Z.min_r by lia. repeat f_equal.
  - rewrite Z.min_l by lia. reflexivity.
Qed.

End BinaryProofs.

(** ** A channel that stays open *)

Section SteadyChannel.
Context `{P : platform} (os : OS).

(** No [writev] ever fails with [ENOTCONN]: logd does not go away. *)
Lemma kernel_one_writev (s : state) (log_id : log_id_t) (vec : list iovec) :
  (forall n : nat,
     rv (os_writev os n) < 0 -> errno (os_writev os n) <> ENOTCONN) ->
  0 <= logd_fd s ->
  last_uid s <> AID_ROOT -> last_uid s <> AID_LOGD ->
  let s' := snd (__write_to_log_kernel os log_id vec s) in
  write_to_log s' = write_to_log s /\
  logd_fd s' = logd_fd s /\
  last_uid s' = last_uid s /\
  calls is_writev (trace s') = S (calls is_writev (trace s)) /\
  calls is_socket (trace s') = calls is_socket (trace s) /\
  calls is_close (trace s') = calls is_close (trace s) /\
  calls is_getuid (trace s') = calls is_getuid (trace s).
Proof.
  intros Hos Hfd Hroot Hlogd s'. subst s'.
  specialize (Hos (calls is_writev (trace s))).
  destruct (__write_to_log_kernel os log_id vec s) as [res s'] eqn:Hk.
  unfold __write_to_log_kernel in Hk.
  crack Hk.
  all: injection Hk as <- <-; run; count; props; try lia;
    try contradiction.
  all: try (exfalso; apply Hos; lia).
  all: repeat split; first [reflexivity | lia].
Qed.

(** X17.  While the channel is open, the uid is cached and no [writev]
    fails with [ENOTCONN], every writing call issues exactly one [writev]
    and no other call on the channel: a record that [writev] refuses, with
    [EAGAIN] for instance, is not sent again. *)
Theorem open_channel_one_writev_per_call (cs : list api_call) :
  (forall n : nat,
     rv (os_writev os n) < 0 -> errno (os_writev os n) <> ENOTCONN) ->
  forall s : state,
    write_to_log s = ptr__write_to_log_kernel ->
    0 <= logd_fd s ->
    last_uid s <> AID_ROOT -> last_uid s <> AID_LOGD ->
    Forall is_write cs ->
    let s' := run_calls os cs s in
    write_to_log s' = ptr__write_to_log_kernel /\
    logd_fd s' = logd_fd s /\
    last_uid s' = last_uid s /\
    calls is_writev (trace s')
    = (calls is_writev (trace s) + length cs)%nat /\
    calls is_socket (trace s') = calls is_socket (trace s) /\
    calls is_close (trace s') = calls is_close (trace s) /\
    calls is_getuid (trace s') = calls is_getuid (trace s).
Proof.
  intros Hos.
  induction cs as [|c cs IH]; intros s Hptr Hfd Hroot Hlogd Hcs.
  { simpl. rewrite Nat.add_0_r. repeat split; assumption. }
  apply Forall_cons in Hcs as [Hc Hcs]. simpl.
  destruct (write_call_shape os c s Hc) as (log_id & vec & s0 & Hrun & Hs0).
  assert (H0 : write_to_log s0 = write_to_log s /\ logd_fd s0 = logd_fd s /\
               last_uid s0 = last_uid s /\
               calls is_writev (trace s0) = calls is_writev (trace s) /\
               calls is_socket (trace s0) = calls is_socket (trace s) /\
               calls is_close (trace s0) = calls is_close (trace s) /\
               calls is_getuid (trace s0) = calls is_getuid (trace s)).
  { destruct Hs0 as [-> | [msg ->]]; run; count; repeat split. }
  destruct H0 as (E1 & E2 & E3 & E4 & E5 & E6 & E7).
  assert (Hcall : call_write_to_log os log_id vec s0
                  = __write_to_log_kernel os log_id vec s0).
  { unfold call_write_to_log. run. rewrite E1, Hptr. reflexivity. }
  destruct (kernel_one_writev s0 log_id vec Hos)
    as (K1 & K2 & K3 & K4 & K5 & K6 & K7); try congruence; try lia.
  rewrite Hrun, Hcall.
  destruct (IH (snd (__write_to_log_kernel os log_id vec s0)))
    as (I1 & I2 & I3 & I4 & I5 & I6 & I7);
    try congruence; try lia; try assumption.
  cbv zeta in *. repeat split; try congruence. lia.
Qed.

End SteadyChannel.

(** ** [__android_log_dev_available] *)

Lemma dev_available_cached (os_access : nat -> Z) (n : nat) :
  forall d : dev_state,
    g_log_status d <> kLogUninitialized ->
    dev_available_calls os_access n d
    = (replicate n (match g_log_status d with kLogAvailable => 1 | _ => 0 end),
       d).
Proof.
  induction n as [|n IH]; intros d Hd; [reflexivity|].
  simpl. unfold __android_log_dev_available.
  destruct (g_log_status d) eqn:Hst; try contradiction.
  all: rewrite IH by congruence; rewrite Hst; reflexivity.
Qed.

(** X18.  [__android_log_dev_available] asks the system once: whatever
    [access] would answer later, every call returns what the first call
    found, 1 when [access] returned 0 and 0 otherwise, and [access] is
    called once. *)
Theorem dev_available_asks_once (os_access : nat -> Z) (n : nat) :
  let r := dev_available_calls os_access (S n) dev_initial in
  fst r = replicate (S n) (if os_access O =? 0 then 1 else 0) /\
  access_calls (snd r) = 1%nat /\
  g_log_status (snd r) <> kLogUninitialized.
Proof.
  cbv zeta. cbn [dev_available_calls].
  destruct (__android_log_dev_available os_access dev_initial) as [r d1]
    eqn:H1.
  unfold __android_log_dev_available in H1.
  cbn [dev_initial g_log_status access_calls] in H1.
  destruct (os_access O =? 0); cbn [g_log_status] in H1;
    injection H1 as <- <-.
  all: rewrite dev_available_cached by (cbn; congruence).
  all: cbn; repeat split; congruence.
Qed.

(** ** [__android_log_loggable] *)

Section LoggableProofs.
Context `{L : priorities}.

(** The key holds the prefix and the first [PROP_NAME_MAX - 9] bytes of the
    tag: the [strncpy] copies one byte more, and the NUL stored at the end of
    [keybuf] overwrites it. *)
Lemma loggable_key_contents (tag : string) :
  (9 <= PROP_NAME_MAX)%nat ->
  loggable_key tag
  = ("log.tag." ++ substring 0 (PROP_NAME_MAX - 9) tag)%string.
Proof.
  intros Hmax. unfold loggable_key.
  destruct (Nat.le_exists_sub 9 PROP_NAME_MAX Hmax) as (k & Hk & _).
  rewrite Hk.
  replace (k + 9 - 1)%nat with (8 + k)%nat by lia.
  replace (k + 9 - 8)%nat with (S k) by lia.
  replace (k + 9 - 9)%nat with k by lia.
  cbn [append substring Nat.add].
  rewrite substring_substring by lia. reflexivity.
Qed.

(** X19.  [__android_log_loggable] ([MOTOROLA_LOG]) looks up the property
    of the first [PROP_NAME_MAX - 9] bytes of the tag, so two tags that agree
    on them get the same answer; and a record that may be logged at one
    priority may be logged at every higher one. *)
Theorem loggable_reads_tag_prefix (props : string -> string) (prio : Z)
    (tag1 tag2 : string) :
  (9 <= PROP_NAME_MAX)%nat ->
  substring 0 (PROP_NAME_MAX - 9) tag1
  = substring 0 (PROP_NAME_MAX - 9) tag2 ->
  __android_log_loggable props prio (Some tag1)
  = __android_log_loggable props prio (Some tag2) /\
  (forall prio' : Z,
     prio <= prio' ->
     __android_log_loggable props prio (Some tag1) = 1 ->
     __android_log_loggable props prio' (Some tag1) = 1).
Proof.
  intros Hmax Hsame. split.
  - unfold __android_log_loggable.
    rewrite !loggable_key_contents, Hsame by assumption. reflexivity.
  - intros prio' Hle. unfold __android_log_loggable.
    match goal with
    | |- context [if ?n <=? prio then _ else _] =>
        destruct (n <=? prio) eqn:H1; [|discriminate];
        destruct (n <=? prio') eqn:H2; props; [reflexivity | lia]
    end.
Qed.

End LoggableProofs.

(** ** Runs *)

Section MoreConcreteRuns.

#[local] Existing Instance android_arm.
#[local] Existing Instance android_priorities.

Lemma linux_os_healthy : linux os_healthy.
Proof. split; intros n; unfold valid_errno; simpl; lia. Qed.

Lemma linux_os_logd_dies : linux os_logd_dies.
Proof.
  split; intros n; unfold valid_errno; simpl; try lia;
    destruct n as [|n]; simpl; lia.
Qed.

Lemma channel_open_healthy :
  channel_open os_healthy (after_first_write os_healthy).
Proof. split; [vm_compute; reflexivity | by_eval | by_eval]. Qed.

Lemma some_writes_write : Forall is_write some_writes.
Proof. repeat constructor. Qed.

(** X2: logd went away between the first and the second record. *)
Lemma no_descriptor_no_retry_witness :
  let s := stuck_without_descriptor in
  write_to_log s = ptr__write_to_log_kernel /\
  logd_fd s < 0 /\
  Forall is_write some_writes /\
  let s' := run_calls os_logd_dies some_writes s in
  write_to_log s' = ptr__write_to_log_kernel /\
  logd_fd s' = logd_fd s /\
  calls is_socket (trace s') = calls is_socket (trace s) /\
  calls is_writev (trace s') = calls is_writev (trace s) /\
  calls is_close (trace s') = calls is_close (trace s).
Proof.
  intros s.
  assert (H1 : write_to_log s = ptr__write_to_log_kernel)
    by (vm_compute; reflexivity).
  assert (H2 : logd_fd s < 0) by by_eval.
  assert (H3 : Forall is_write some_writes) by exact some_writes_write.
  do 3 (split; [assumption|]).
  exact (no_descriptor_no_retry os_logd_dies some_writes s H1 H2 H3).
Defined.

(** X3: the process had no descriptor left at its first record. *)
Lemma disabled_is_silent_witness :
  let s := disabled in
  write_to_log s = ptr__write_to_log_null /\
  Forall is_write some_writes /\
  let s' := run_calls os_no_descriptors some_writes s in
  write_to_log s' = ptr__write_to_log_null /\
  logd_fd s' = logd_fd s /\
  last_uid s' = last_uid s /\
  calls is_socket (trace s') = calls is_socket (trace s) /\
  calls is_writev (trace s') = calls is_writev (trace s) /\
  calls is_close (trace s') = calls is_close (trace s) /\
  calls is_getuid (trace s') = calls is_getuid (trace s).
Proof.
  intros s.
  assert (H1 : write_to_log s = ptr__write_to_log_null)
    by (vm_compute; reflexivity).
  assert (H2 : Forall is_write some_writes) by exact some_writes_write.
  do 2 (split; [assumption|]).
  exact (disabled_is_silent os_no_descriptors some_writes s H1 H2).
Defined.

(** X4: logd after its privilege drop, with a reset among the calls. *)
Lemma logd_never_sends_witness :
  let s := logd_after_drop in
  AID_LOGD <> AID_ROOT /\
  last_uid s = AID_LOGD /\
  let s' := run_calls os_as_logd writes_and_reset s in
  last_uid s' = AID_LOGD /\
  calls is_writev (trace s') = calls is_writev (trace s).
Proof.
  intros s.
  assert (H1 : AID_LOGD <> AID_ROOT) by by_eval.
  assert (H2 : last_uid s = AID_LOGD) by (vm_compute; reflexivity).
  do 2 (split; [assumption|]).
  exact (logd_never_sends os_as_logd writes_and_reset H1 s H2).
Defined.

(** X5: a second record on the open channel, with ranges that are cut. *)
Lemma first_send_is_well_formed_witness :
  let s := after_first_write os_healthy in
  let vec := four_ranges in
  uid_seen os_healthy s <> AID_LOGD /\
  0 <= logd_fd s /\
  let s' := snd (__write_to_log_kernel os_healthy LOG_ID_EVENTS vec s) in
  let f := first_frame os_healthy s LOG_ID_EVENTS vec in
  (exists rest : list (list (option iovec)),
     writev_frames (trace s') = writev_frames (trace s) ++ f :: rest) /\
  take header_length f = map Some (first_header os_healthy s LOG_ID_EVENTS) /\
  Forall is_Some f /\
  (header_length <= length f <= length vec + header_length)%nat.
Proof.
  intros s vec.
  assert (H1 : uid_seen os_healthy s <> AID_LOGD) by by_eval.
  assert (H2 : 0 <= logd_fd s) by by_eval.
  do 2 (split; [assumption|]).
  exact (first_send_is_well_formed os_healthy s LOG_ID_EVENTS vec H1 H2).
Defined.

(** X6: the same record. *)
Lemma result_within_cap_witness :
  let s := after_first_write os_healthy in
  let vec := four_ranges in
  linux os_healthy /\
  0 <= LOGGER_ENTRY_MAX_PAYLOAD <= SIZE_MAX /\
  0 <= header_size <= LOGGER_ENTRY_MAX_PAYLOAD /\
  Forall range_ok vec /\
  uid_seen os_healthy s <> AID_LOGD /\
  0 <= logd_fd s /\
  0 <= rv (os_writev os_healthy (calls is_writev (trace s)))
    <= frame_bytes (first_frame os_healthy s LOG_ID_EVENTS vec) /\
  0 <= fst (__write_to_log_kernel os_healthy LOG_ID_EVENTS vec s)
    <= LOGGER_ENTRY_MAX_PAYLOAD.
Proof.
  intros s vec.
  assert (H1 : linux os_healthy) by exact linux_os_healthy.
  assert (H2 : 0 <= LOGGER_ENTRY_MAX_PAYLOAD <= SIZE_MAX) by (simpl; lia).
  assert (H3 : 0 <= header_size <= LOGGER_ENTRY_MAX_PAYLOAD)
    by (split; by_eval).
  assert (H4 : Forall range_ok vec) by (repeat constructor; simpl; lia).
  assert (H5 : uid_seen os_healthy s <> AID_LOGD) by by_eval.
  assert (H6 : 0 <= logd_fd s) by by_eval.
  assert (H7 : 0 <= rv (os_writev os_healthy (calls is_writev (trace s)))
               <= frame_bytes (first_frame os_healthy s LOG_ID_EVENTS vec))
    by (split; by_eval).
  do 7 (split; [assumption|]).
  exact (result_within_cap os_healthy s LOG_ID_EVENTS vec
           H1 H2 H3 H4 H5 H6 H7).
Defined.

(** X7: the record that finds logd gone and cannot reconnect. *)
Lemma failed_reconnect_witness :
  let os := os_logd_dies in
  let s := after_first_write os in
  let vec := text_vec 4 "tag" "hello" in
  linux os /\
  uid_seen os s <> AID_LOGD /\
  0 <= logd_fd s /\
  rv (os_writev os (calls is_writev (trace s))) < 0 /\
  errno (os_writev os (calls is_writev (trace s))) = ENOTCONN /\
  setup_result os (trace s) < 0 /\
  let r := __write_to_log_kernel os LOG_ID_MAIN vec s in
  fst r = setup_result os (trace s) /\
  logd_fd (snd r) < 0 /\
  calls is_writev (trace (snd r)) = S (calls is_writev (trace s)) /\
  (0 <= rv (os_socket os (calls is_socket (trace s))) ->
   0 <= rv (os_fcntl os (calls is_fcntl (trace s))) ->
   write_to_log (snd r) = write_to_log s) /\
  (rv (os_socket os (calls is_socket (trace s))) < 0 \/
   rv (os_fcntl os (calls is_fcntl (trace s))) < 0 ->
   write_to_log (snd r) = ptr__write_to_log_null).
Proof.
  intros os s vec.
  assert (H1 : linux os) by exact linux_os_logd_dies.
  assert (H2 : uid_seen os s <> AID_LOGD) by by_eval.
  assert (H3 : 0 <= logd_fd s) by by_eval.
  assert (H4 : rv (os_writev os (calls is_writev (trace s))) < 0) by by_eval.
  assert (H5 : errno (os_writev os (calls is_writev (trace s))) = ENOTCONN)
    by (vm_compute; reflexivity).
  assert (H6 : setup_result os (trace s) < 0) by by_eval.
  do 6 (split; [assumption|]).
  exact (failed_reconnect os s LOG_ID_MAIN vec H1 H2 H3 H4 H5 H6).
Defined.

(** X8: a reset of the disabled library; the next record asks for a
    socket again and gets the error of [socket], [-EMFILE]. *)
Lemma close_rearms_witness :
  let os := os_no_descriptors in
  let s1 := snd (__android_log_close disabled) in
  let r2 := call_write_to_log os LOG_ID_MAIN (text_vec 4 "tag" "hello") s1 in
  setup_result os (trace s1) < 0 /\
  (calls is_socket (trace s1) < calls is_socket (trace (snd r2)))%nat /\
  fst r2 = setup_result os (trace s1).
Proof.
  intros os s1 r2.
  assert (H1 : setup_result os (trace s1) < 0) by by_eval.
  split; [assumption|].
  pose proof (close_rearms os disabled LOG_ID_MAIN
                (text_vec 4 "tag" "hello")) as H.
  exact (conj (proj1 H) (proj2 H H1)).
Defined.

(** X9: the first record of an application. *)
Lemma first_write_opens_channel_witness :
  let os := os_healthy in
  let s := initial_state in
  let vec := text_vec 4 "tag" "hello" in
  linux os /\
  write_to_log s = ptr__write_to_log_init /\
  0 <= rv (os_socket os (calls is_socket (trace s))) /\
  0 <= rv (os_fcntl os (calls is_fcntl (trace s))) /\
  0 <= rv (os_connect os (calls is_connect (trace s))) /\
  uid_seen os s <> AID_LOGD /\
  0 <= header_size /\
  0 <= rv (os_writev os (calls is_writev (trace s))) /\
  let n := rv (os_writev os (calls is_writev (trace s))) in
  let r := call_write_to_log os LOG_ID_MAIN vec s in
  fst r = (if header_size <? n then n - header_size else n) /\
  write_to_log (snd r) = ptr__write_to_log_kernel /\
  logd_fd (snd r) = rv (os_socket os (calls is_socket (trace s))) /\
  calls is_socket (trace (snd r)) = S (calls is_socket (trace s)) /\
  calls is_connect (trace (snd r)) = S (calls is_connect (trace s)) /\
  calls is_writev (trace (snd r)) = S (calls is_writev (trace s)).
Proof.
  intros os s vec.
  assert (H1 : linux os) by exact linux_os_healthy.
  assert (H2 : write_to_log s = ptr__write_to_log_init) by reflexivity.
  assert (H3 : 0 <= rv (os_socket os (calls is_socket (trace s))))
    by by_eval.
  assert (H4 : 0 <= rv (os_fcntl os (calls is_fcntl (trace s)))) by by_eval.
  assert (H5 : 0 <= rv (os_connect os (calls is_connect (trace s))))
    by by_eval.
  assert (H6 : uid_seen os s <> AID_LOGD) by by_eval.
  assert (H7 : 0 <= header_size) by by_eval.
  assert (H8 : 0 <= rv (os_writev os (calls is_writev (trace s))))
    by by_eval.
  do 8 (split; [assumption|]).
  exact (first_write_opens_channel os s LOG_ID_MAIN vec
           H1 H2 H3 H4 H5 H6 H7 H8).
Defined.

(** X10: a formatted record with a radio tag. *)
Lemma formatted_record_sent_whole_witness :
  let os := os_healthy in
  let s := after_first_write os in
  let tag := Some "RILJ"%string in
  let expansion := "signal 3"%string in
  channel_open os s /\
  0 <= LOGGER_ENTRY_MAX_PAYLOAD /\
  2 * LOGGER_ENTRY_MAX_PAYLOAD <= SIZE_MAX /\
  strlen (default EmptyString tag) + 1040 <= LOGGER_ENTRY_MAX_PAYLOAD /\
  let msg := substring 0 1023 expansion in
  let log_id := fst (__android_log_write_args 4 tag msg) in
  let vec := snd (__android_log_write_args 4 tag msg) in
  strlen msg <= 1023 /\
  (exists rest : list (list (option iovec)),
     writev_frames (trace (snd (__android_log_print os 4 tag expansion s)))
     = writev_frames (trace s)
       ++ map Some (first_header os s log_id ++ vec) :: rest) /\
  (exists rest : list (list (option iovec)),
     writev_frames (trace (snd (__android_log_vprint os 4 tag expansion s)))
     = writev_frames (trace s)
       ++ map Some (first_header os s log_id ++ vec) :: rest).
Proof.
  intros os s tag expansion.
  assert (H1 : channel_open os s) by exact channel_open_healthy.
  assert (H2 : 0 <= LOGGER_ENTRY_MAX_PAYLOAD) by (simpl; lia).
  assert (H3 : 2 * LOGGER_ENTRY_MAX_PAYLOAD <= SIZE_MAX) by (simpl; lia).
  assert (H4 : strlen (default EmptyString tag) + 1040
               <= LOGGER_ENTRY_MAX_PAYLOAD) by by_eval.
  do 4 (split; [assumption|]).
  exact (formatted_record_sent_whole os s 4 tag expansion H1 H2 H3 H4).
Defined.

(** X11: the same through [__android_log_buf_print], addressed to the
    system buffer. *)
Lemma formatted_buf_record_sent_whole_witness :
  let os := os_healthy in
  let s := after_first_write os in
  let tag := Some "RILJ"%string in
  let expansion := "signal 3"%string in
  channel_open os s /\
  0 <= LOGGER_ENTRY_MAX_PAYLOAD /\
  2 * LOGGER_ENTRY_MAX_PAYLOAD <= SIZE_MAX /\
  strlen (default EmptyString tag) + 1040 <= LOGGER_ENTRY_MAX_PAYLOAD /\
  exists rest : list (list (option iovec)),
    writev_frames
      (trace (snd (__android_log_buf_print os LOG_ID_SYSTEM 4 tag expansion
                     s)))
    = writev_frames (trace s)
      ++ map Some
           (first_header os s LOG_ID_RADIO
            ++ text_vec 4 "use-Rlog/RLOG-RILJ" "signal 3") :: rest.
Proof.
  intros os s tag expansion.
  assert (H1 : channel_open os s) by exact channel_open_healthy.
  assert (H2 : 0 <= LOGGER_ENTRY_MAX_PAYLOAD) by (simpl; lia).
  assert (H3 : 2 * LOGGER_ENTRY_MAX_PAYLOAD <= SIZE_MAX) by (simpl; lia).
  assert (H4 : strlen (default EmptyString tag) + 1040
               <= LOGGER_ENTRY_MAX_PAYLOAD) by by_eval.
  do 4 (split; [assumption|]).
  exact (formatted_buf_record_sent_whole os s LOG_ID_SYSTEM 4 tag expansion
           H1 H2 H3 H4).
Defined.

(** X12: [lab126_log_write] with a radio tag, addressed to the radio buffer
    at priority error: the record goes to the main buffer at priority
    debug. *)
Lemma lab126_record_witness :
  let os := os_healthy in
  let s := after_first_write os in
  channel_open os s /\
  0 <= LOGGER_ENTRY_MAX_PAYLOAD /\
  2 * LOGGER_ENTRY_MAX_PAYLOAD <= SIZE_MAX /\
  1153 <= LOGGER_ENTRY_MAX_PAYLOAD /\
  exists rest : list (list (option iovec)),
    writev_frames
      (trace (snd (lab126_log_write os 1 6 (Some "RILJ"%string) "signal 3"
                     s)))
    = writev_frames (trace s)
      ++ map Some
           (first_header os s LOG_ID_MAIN
            ++ text_vec 3 "AMZ-RILJ" "signal 3") :: rest.
Proof.
  intros os s.
  assert (H1 : channel_open os s) by exact channel_open_healthy.
  assert (H2 : 0 <= LOGGER_ENTRY_MAX_PAYLOAD) by (simpl; lia).
  assert (H3 : 2 * LOGGER_ENTRY_MAX_PAYLOAD <= SIZE_MAX) by (simpl; lia).
  assert (H4 : 1153 <= LOGGER_ENTRY_MAX_PAYLOAD) by (simpl; lia).
  do 4 (split; [assumption|]).
  exact (lab126_record os s 1 6 (Some "RILJ"%string) "signal 3"
           H1 H2 H3 H4).
Defined.

(** X14: a failed assertion without a format. *)
Lemma assert_record_is_fatal_witness :
  let os := os_healthy in
  let s := after_first_write os in
  let cond := Some "p != NULL"%string in
  let tag := Some "tag"%string in
  channel_open os s /\
  0 <= LOGGER_ENTRY_MAX_PAYLOAD /\
  2 * LOGGER_ENTRY_MAX_PAYLOAD <= SIZE_MAX /\
  strlen (default EmptyString tag) + 1040 <= LOGGER_ENTRY_MAX_PAYLOAD /\
  let m := assert_message cond None in
  let args := __android_log_write_args ANDROID_LOG_FATAL tag m in
  let s' := snd (__android_log_assert os cond tag None s) in
  (exists (rest : list (list (option iovec))) (tag' : string),
     snd args = text_vec ANDROID_LOG_FATAL tag' m /\
     writev_frames (trace s')
     = writev_frames (trace s)
       ++ map Some (first_header os s (fst args) ++ snd args) :: rest) /\
  In (EvSetAbortMessage m) (trace s').
Proof.
  intros os s cond tag.
  assert (H1 : channel_open os s) by exact channel_open_healthy.
  assert (H2 : 0 <= LOGGER_ENTRY_MAX_PAYLOAD) by (simpl; lia).
  assert (H3 : 2 * LOGGER_ENTRY_MAX_PAYLOAD <= SIZE_MAX) by (simpl; lia).
  assert (H4 : strlen (default EmptyString tag) + 1040
               <= LOGGER_ENTRY_MAX_PAYLOAD) by by_eval.
  do 4 (split; [assumption|]).
  exact (assert_record_is_fatal os s cond tag None H1 H2 H3 H4).
Defined.

(** X15: an event with a four-byte payload. *)
Lemma binary_record_sent_whole_witness :
  let os := os_healthy in
  let s := after_first_write os in
  let payload := [1; 2; 3; 4] in
  channel_open os s /\
  0 <= LOGGER_ENTRY_MAX_PAYLOAD /\
  2 * LOGGER_ENTRY_MAX_PAYLOAD <= SIZE_MAX /\
  0 <= 4 /\ 4 + 5 <= LOGGER_ENTRY_MAX_PAYLOAD /\
  let tag_range := {| iov_base := obj_int32 42; iov_len := 4 |} in
  let type_range := {| iov_base := obj_char 0; iov_len := 1 |} in
  let data := {| iov_base := obj_bytes payload; iov_len := 4 |} in
  let hdr := first_header os s LOG_ID_EVENTS in
  (exists rest : list (list (option iovec)),
     writev_frames (trace (snd (__android_log_bwrite os 42 payload 4 s)))
     = writev_frames (trace s)
       ++ map Some (hdr ++ [tag_range; data]) :: rest) /\
  (exists rest : list (list (option iovec)),
     writev_frames (trace (snd (__android_log_btwrite os 42 0 payload 4 s)))
     = writev_frames (trace s)
       ++ map Some (hdr ++ [tag_range; type_range; data]) :: rest).
Proof.
  intros os s payload.
  assert (H1 : channel_open os s) by exact channel_open_healthy.
  assert (H2 : 0 <= LOGGER_ENTRY_MAX_PAYLOAD) by (simpl; lia).
  assert (H3 : 2 * LOGGER_ENTRY_MAX_PAYLOAD <= SIZE_MAX) by (simpl; lia).
  assert (H4 : 0 <= 4) by lia.
  assert (H5 : 4 + 5 <= LOGGER_ENTRY_MAX_PAYLOAD) by (simpl; lia).
  do 5 (split; [assumption|]).
  exact (binary_record_sent_whole os s 42 0 payload 4 H1 H2 H3 H4 H5).
Defined.

(** X16: a string of 4076 bytes: the length range says 4076, the string
    range has 4067 bytes. *)
Lemma bswrite_length_not_adjusted_witness :
  let os := os_healthy in
  let s := after_first_write os in
  channel_open os s /\
  9 < LOGGER_ENTRY_MAX_PAYLOAD /\
  2 * LOGGER_ENTRY_MAX_PAYLOAD <= SIZE_MAX /\
  strlen long_tag + LOGGER_ENTRY_MAX_PAYLOAD <= SIZE_MAX /\
  strlen long_tag < 2 ^ 32 /\
  let len := strlen long_tag in
  exists rest : list (list (option iovec)),
    writev_frames (trace (snd (__android_log_bswrite os 1234 long_tag s)))
    = writev_frames (trace s)
      ++ map Some
           (first_header os s LOG_ID_EVENTS
            ++ [ {| iov_base := obj_int32 1234; iov_len := 4 |};
                 {| iov_base := obj_char EVENT_TYPE_STRING; iov_len := 1 |};
                 {| iov_base := obj_int32 len; iov_len := 4 |};
                 {| iov_base := obj_cstr long_tag;
                    iov_len := Z.min len (LOGGER_ENTRY_MAX_PAYLOAD - 9) |} ])
         :: rest.
Proof.
  intros os s.
  assert (H1 : channel_open os s) by exact channel_open_healthy.
  assert (H2 : 9 < LOGGER_ENTRY_MAX_PAYLOAD) by (simpl; lia).
  assert (H3 : 2 * LOGGER_ENTRY_MAX_PAYLOAD <= SIZE_MAX) by (simpl; lia).
  assert (H4 : strlen long_tag + LOGGER_ENTRY_MAX_PAYLOAD <= SIZE_MAX)
    by by_eval.
  assert (H5 : strlen long_tag < 2 ^ 32) by by_eval.
  do 5 (split; [assumption|]).
  exact (bswrite_length_not_adjusted os s 1234 long_tag H1 H2 H3 H4 H5).
Defined.

Example long_string_event_is_cut :
  Z.min (strlen long_tag) (LOGGER_ENTRY_MAX_PAYLOAD - 9) = 4067 /\
  strlen long_tag = 4076.
Proof. vm_compute. split; reflexivity. Qed.

(** X17: an overloaded logd: the second [writev] fails with [EAGAIN]. *)
Lemma open_channel_one_writev_per_call_witness :
  let os := os_overloaded in
  let s := after_first_write os in
  (forall n : nat,
     rv (os_writev os n) < 0 -> errno (os_writev os n) <> ENOTCONN) /\
  write_to_log s = ptr__write_to_log_kernel /\
  0 <= logd_fd s /\
  last_uid s <> AID_ROOT /\
  last_uid s <> AID_LOGD /\
  Forall is_write some_writes /\
  let s' := run_calls os some_writes s in
  write_to_log s' = ptr__write_to_log_kernel /\
  logd_fd s' = logd_fd s /\
  last_uid s' = last_uid s /\
  calls is_writev (trace s')
  = (calls is_writev (trace s) + length some_writes)%nat /\
  calls is_socket (trace s') = calls is_socket (trace s) /\
  calls is_close (trace s') = calls is_close (trace s) /\
  calls is_getuid (trace s') = calls is_getuid (trace s).
Proof.
  intros os s.
  assert (H1 : forall n : nat,
             rv (os_writev os n) < 0 -> errno (os_writev os n) <> ENOTCONN).
  { intros [|[|n]] Hn; simpl in *; lia. }
  assert (H2 : write_to_log s = ptr__write_to_log_kernel)
    by (vm_compute; reflexivity).
  assert (H3 : 0 <= logd_fd s) by by_eval.
  assert (H4 : last_uid s <> AID_ROOT) by by_eval.
  assert (H5 : last_uid s <> AID_LOGD) by by_eval.
  assert (H6 : Forall is_write some_writes) by exact some_writes_write.
  do 6 (split; [assumption|]).
  exact (open_channel_one_writev_per_call os some_writes H1 s
           H2 H3 H4 H5 H6).
Defined.

(** X19: two tags of 25 bytes that differ in the last two. *)
Lemma loggable_reads_tag_prefix_witness :
  let tag1 := "0123456789abcdefghijklmXX"%string in
  let tag2 := "0123456789abcdefghijklmYY"%string in
  (9 <= PROP_NAME_MAX)%nat /\
  substring 0 (PROP_NAME_MAX - 9) tag1
  = substring 0 (PROP_NAME_MAX - 9) tag2 /\
  __android_log_loggable props_debug_one_tag 3 (Some tag1)
  = __android_log_loggable props_debug_one_tag 3 (Some tag2) /\
  (forall prio' : Z,
     3 <= prio' ->
     __android_log_loggable props_debug_one_tag 3 (Some tag1) = 1 ->
     __android_log_loggable props_debug_one_tag prio' (Some tag1) = 1).
Proof.
  intros tag1 tag2.
  assert (H1 : (9 <= PROP_NAME_MAX)%nat) by (simpl; lia).
  assert (H2 : substring 0 (PROP_NAME_MAX - 9) tag1
               = substring 0 (PROP_NAME_MAX - 9) tag2) by reflexivity.
  do 2 (split; [assumption|]).
  exact (loggable_reads_tag_prefix props_debug_one_tag 3 tag1 tag2 H1 H2).
Defined.

(** Both are looked up as the tag of 23 bytes, which is set to "D". *)
Example debug_of_the_prefix_applies :
  __android_log_loggable props_debug_one_tag 3
    (Some "0123456789abcdefghijklmXX"%string) = 1 /\
  __android_log_loggable props_debug_one_tag 2
    (Some "0123456789abcdefghijklmXX"%string) = 0 /\
  __android_log_loggable props_debug_one_tag 3
    (Some "another"%string) = 0.
Proof. vm_compute. repeat split; reflexivity. Qed.

End MoreConcreteRuns.
